(** * md-to-pretty-pdf: a shallow embedding of the conversion pipeline

    The development follows the two programs of the repository:
    [src/index.js], the commander based converter, and the older script
    kept beside it, here called the legacy script, which has the same
    inliner, its own template and its own argument handling.

    Conventions of the embedding.
    - A JavaScript string is represented by its UTF-8 encoding, as a
      [string]; a file read as text is the string of its bytes, so files
      are taken to be well-formed UTF-8.  Searching, splitting and
      replacing text commute with that encoding.  The case tables of
      the runtime are not written out: where the program uses the
      lower-cased text itself, [String.prototype.toLowerCase] is a
      function of the environment; where it only compares the result
      with [.svg], lowering the ASCII letters decides the same, because
      no other character becomes one of these letters.
    - A JavaScript number is a binary64 value of [SpecFloat], with the
      operations of that library at precision 53 and maximal exponent
      1024; parsing and printing of numbers follow ECMAScript and are
      written out below.
    - Asynchronous code is sequential here: a computation yields an
      outcome (a value, a thrown exception, or the exit of the process)
      and the list of the events it emitted: console output, file reads
      and calls on the puppeteer browser.  The file system, the Markdown
      parser and the browser are given by an environment.
    - [path] is Node's POSIX implementation, for an absolute working
      directory. *)

From Stdlib Require Import ZArith String Ascii List Bool Lia.
From Stdlib Require Import SpecFloat DecimalString.
Import ListNotations.

Local Open Scope string_scope.
Local Open Scope Z_scope.

(** The double quote character, as a string. *)
Definition dq : string := String "034" EmptyString.

(* ================================================================== *)
(** ** JavaScript strings *)

Module JsString.

Fixpoint startsWith (s p : string) {struct p} : bool :=
  match p, s with
  | EmptyString, _ => true
  | String _ _, EmptyString => false
  | String b p', String a s' => Ascii.eqb a b && startsWith s' p'
  end.

Fixpoint includes (s p : string) : bool :=
  startsWith s p ||
  match s with
  | EmptyString => false
  | String _ s' => includes s' p
  end.

(** [stripSuffix s p] is the text of [s] before its final [p], when [s]
    ends with [p]. *)
Fixpoint stripSuffix (s p : string) : option string :=
  if String.eqb s p then Some EmptyString
  else match s with
       | EmptyString => None
       | String c s' => option_map (String c) (stripSuffix s' p)
       end.

Definition endsWith (s p : string) : bool :=
  match stripSuffix s p with Some _ => true | None => false end.

Fixpoint drop (n : nat) (s : string) : string :=
  match n, s with
  | O, _ => s
  | S _, EmptyString => EmptyString
  | S n', String _ s' => drop n' s'
  end.

Fixpoint take (n : nat) (s : string) : string :=
  match n, s with
  | O, _ => EmptyString
  | S _, EmptyString => EmptyString
  | S n', String c s' => String c (take n' s')
  end.

(** [splitFirst s p] cuts [s] around the first (leftmost) occurrence of
    [p]: the text before it and the text after it. *)
Fixpoint splitFirst (s p : string) : option (string * string) :=
  if startsWith s p then Some (EmptyString, drop (String.length p) s)
  else match s with
       | EmptyString => None
       | String c s' =>
           match splitFirst s' p with
           | Some (before, after) => Some (String c before, after)
           | None => None
           end
       end.

(** GetSubstitution for a string pattern (no capture groups): [$$],
    [$&], [$`] and [$'] are expanded, any other text is literal. *)
Fixpoint getSubstitution (matched before after : string) (r : string) : string :=
  match r with
  | EmptyString => EmptyString
  | String c r' =>
      if Ascii.eqb c "$" then
        match r' with
        | String d r'' =>
            if Ascii.eqb d "$" then String "$" (getSubstitution matched before after r'')
            else if Ascii.eqb d "&" then matched ++ getSubstitution matched before after r''
            else if Ascii.eqb d "`" then before ++ getSubstitution matched before after r''
            else if Ascii.eqb d "'" then after ++ getSubstitution matched before after r''
            else String c (getSubstitution matched before after r')
        | EmptyString => String c EmptyString
        end
      else String c (getSubstitution matched before after r')
  end.

(** [String.prototype.replace] with a string pattern: only the first
    occurrence is replaced. *)
Definition replace (s pattern replacement : string) : string :=
  match splitFirst s pattern with
  | Some (before, after) =>
      before ++ getSubstitution pattern before after replacement ++ after
  | None => s
  end.

Definition lowerAscii (c : ascii) : ascii :=
  let n := nat_of_ascii c in
  if (Nat.leb 65 n && Nat.leb n 90)%bool then ascii_of_nat (n + 32) else c.

(** [toLowerCase] on the ASCII letters; bytes of other code points are
    kept. *)
Fixpoint toLowerCase (s : string) : string :=
  match s with
  | EmptyString => EmptyString
  | String c s' => String (lowerAscii c) (toLowerCase s')
  end.

Fixpoint span (f : ascii -> bool) (s : string) : string * string :=
  match s with
  | EmptyString => (EmptyString, EmptyString)
  | String c s' =>
      if f c then let (a, b) := span f s' in (String c a, b)
      else (EmptyString, s)
  end.

Fixpoint repeat (c : ascii) (n : nat) : string :=
  match n with
  | O => EmptyString
  | S n' => String c (repeat c n')
  end.

End JsString.

(* ================================================================== *)
(** ** JavaScript numbers: IEEE 754 binary64 *)

Module JsNumber.

Definition number := spec_float.

Definition prec : Z := 53.
Definition emax : Z := 1024.

Definition NaN : number := S754_nan.
Definition Infinity : number := S754_infinity false.

Definition mul : number -> number -> number := SFmul prec emax.
Definition div : number -> number -> number := SFdiv prec emax.
Definition ltb : number -> number -> bool := SFltb.
Definition leb : number -> number -> bool := SFleb.
Definition eqb : number -> number -> bool := SFeqb.

Definition isNaN (x : number) : bool :=
  match x with S754_nan => true | _ => false end.

(** ToBoolean: [NaN], [+0] and [-0] are falsy. *)
Definition truthy (x : number) : bool :=
  match x with S754_nan | S754_zero _ => false | _ => true end.

(** The number value of an integer. *)
Definition ofZ (z : Z) : number := binary_normalize prec emax z 0 false.

Definition signed (neg : bool) (m : Z) : number :=
  match m with
  | Z0 => S754_zero neg
  | Zpos p => S754_finite neg p 0
  | Zneg p => S754_finite (negb neg) p 0
  end.

(** The number value of the decimal [m * 10^e], rounded to nearest,
    ties to even; this is how a numeric literal or a parsed string
    becomes a number. *)
Definition ofDecimal (neg : bool) (m : Z) (e : Z) : number :=
  match e with
  | Zneg p => div (signed neg m) (S754_finite false (10 ^ p)%positive 0)
  | _ => match m * 10 ^ e with
         | Z0 => S754_zero neg
         | Zpos q => binary_round prec emax neg q 0
         | Zneg q => binary_round prec emax (negb neg) q 0
         end
  end.

(** The mathematical value of a finite number as a fraction
    [(numerator, denominator)], sign dropped. *)
Definition magnitude (m : positive) (e : Z) : Z * Z :=
  match e with
  | Zneg p => (Zpos m, Zpos (2 ^ p)%positive)
  | _ => (Zpos m * 2 ^ e, 1)
  end.

(** [Math.floor]. *)
Definition floor (x : number) : number :=
  match x with
  | S754_finite s m e =>
      match e with
      | Zneg _ =>
          let (n, d) := magnitude m e in
          let q := if s then - ((n + d - 1) / d) else n / d in
          match q with
          | Z0 => S754_zero s
          | _ => ofZ q
          end
      | _ => x
      end
  | _ => x
  end.

Definition same (x y : number) : bool :=
  match x, y with
  | S754_zero a, S754_zero b => Bool.eqb a b
  | S754_infinity a, S754_infinity b => Bool.eqb a b
  | S754_nan, S754_nan => true
  | S754_finite a m e, S754_finite b m' e' =>
      Bool.eqb a b && Pos.eqb m m' && Z.eqb e e'
  | _, _ => false
  end.

Definition digitsOf (z : Z) : string :=
  NilZero.string_of_uint (N.to_uint (Z.to_N z)).

(** [floorLog10 n d] is the [t] with [10^t <= n/d < 10^(t+1)], searched
    downwards from an upper estimate. *)
Fixpoint floorLog10_from (fuel : nat) (t : Z) (n d : Z) : Z :=
  match fuel with
  | O => t
  | S fuel' =>
      let fits := match t with
                  | Zneg p => d <=? n * 10 ^ (Zpos p)
                  | _ => d * 10 ^ t <=? n
                  end in
      if fits then t else floorLog10_from fuel' (t - 1) n d
  end.

Definition floorLog10 (n d : Z) : Z :=
  floorLog10_from 800 (Z.of_nat (String.length (digitsOf (n / d)))) n d.

(** Division of [n/d] by [10^p], rounded down. *)
Definition scaledFloor (n d p : Z) : Z :=
  match p with
  | Zneg q => (n * 10 ^ (Zpos q)) / d
  | _ => n / (d * 10 ^ p)
  end.

(** Distance of [s * 10^p] to [n/d], over the common denominator. *)
Definition distance (n d s p : Z) : Z :=
  match p with
  | Zneg q => Z.abs (s * d - n * 10 ^ (Zpos q))
  | _ => Z.abs (s * 10 ^ p * d - n)
  end.

(** The shortest digit string [s] (with [k] digits) and exponent [n]
    such that [s * 10^(n-k)] reads back as [x]; among the candidates of
    that length the one closest to [x]. *)
Fixpoint shortest (fuel : nat) (k : Z) (x : number) (n d t : Z) : Z * Z :=
  let p := t + 1 - k in
  let lo := scaledFloor n d p in
  let hi := lo + 1 in
  let okLo := (0 <? lo) && same (ofDecimal false lo p) x in
  let okHi := same (ofDecimal false hi p) x in
  let pick (s : Z) := (s, p) in
  match fuel with
  | O => pick lo
  | S fuel' =>
      match okLo, okHi with
      | true, true =>
          match distance n d lo p ?= distance n d hi p with
          | Lt => pick lo
          | Gt => pick hi
          | Eq => if Z.even lo then pick lo else pick hi
          end
      | true, false => pick lo
      | false, true => pick hi
      | false, false => shortest fuel' (k + 1) x n d t
      end
  end.

Fixpoint stripZeros (fuel : nat) (s p : Z) : Z * Z :=
  match fuel with
  | O => (s, p)
  | S fuel' =>
      if (s mod 10 =? 0) && negb (s =? 0) then stripZeros fuel' (s / 10) (p + 1)
      else (s, p)
  end.

Definition zeros (n : Z) : string := JsString.repeat "0"%char (Z.to_nat n).

(** Number::toString (radix 10) of a positive finite number. *)
Definition positiveToString (x : number) (m : positive) (e : Z) : string :=
  let (n0, d0) := magnitude m e in
  let t := floorLog10 n0 d0 in
  let (s0, p0) := shortest 20 1 x n0 d0 t in
  let (s, p) := stripZeros 30 s0 p0 in
  let ds := digitsOf s in
  let k := Z.of_nat (String.length ds) in
  let n := p + k in
  if (k <=? n) && (n <=? 21) then ds ++ zeros (n - k)
  else if (0 <? n) && (n <=? 21) then
    JsString.take (Z.to_nat n) ds ++ "." ++ JsString.drop (Z.to_nat n) ds
  else if (-6 <? n) && (n <=? 0) then "0." ++ zeros (- n) ++ ds
  else
    let ex := (if n - 1 <? 0 then "-" else "+") ++ digitsOf (Z.abs (n - 1)) in
    if k =? 1 then ds ++ "e" ++ ex
    else JsString.take 1 ds ++ "." ++ JsString.drop 1 ds ++ "e" ++ ex.

Definition toString (x : number) : string :=
  match x with
  | S754_nan => "NaN"
  | S754_zero _ => "0"
  | S754_infinity s => if s then "-Infinity" else "Infinity"
  | S754_finite s m e =>
      (if s then "-" else "") ++ positiveToString (S754_finite false m e) m e
  end.

(** *** Parsing *)

Definition isDigit (c : ascii) : bool :=
  let n := nat_of_ascii c in (Nat.leb 48 n && Nat.leb n 57)%bool.

Fixpoint digitsValue (acc : Z) (s : string) : Z :=
  match s with
  | EmptyString => acc
  | String c s' => digitsValue (10 * acc + (Z.of_nat (nat_of_ascii c) - 48)) s'
  end.

(** The white space and line terminator code points, in UTF-8. *)
Definition whiteSpace : list string :=
  [ String (ascii_of_nat 9) ""; String (ascii_of_nat 10) "";
    String (ascii_of_nat 11) ""; String (ascii_of_nat 12) "";
    String (ascii_of_nat 13) ""; " ";
    String (ascii_of_nat 194) (String (ascii_of_nat 160) "");
    String (ascii_of_nat 225) (String (ascii_of_nat 154) (String (ascii_of_nat 128) ""));
    String (ascii_of_nat 226) (String (ascii_of_nat 128) (String (ascii_of_nat 175) ""));
    String (ascii_of_nat 226) (String (ascii_of_nat 129) (String (ascii_of_nat 159) ""));
    String (ascii_of_nat 227) (String (ascii_of_nat 128) (String (ascii_of_nat 128) ""));
    String (ascii_of_nat 226) (String (ascii_of_nat 128) (String (ascii_of_nat 168) ""));
    String (ascii_of_nat 226) (String (ascii_of_nat 128) (String (ascii_of_nat 169) ""));
    String (ascii_of_nat 239) (String (ascii_of_nat 187) (String (ascii_of_nat 191) "")) ]
  ++ List.map (fun k => String (ascii_of_nat 226) (String (ascii_of_nat 128)
                          (String (ascii_of_nat (128 + k)) "")))
              (List.seq 0 11).

Definition leadingSpace (s : string) : option string :=
  match List.find (fun w => JsString.startsWith s w) whiteSpace with
  | Some w => Some (JsString.drop (String.length w) s)
  | None => None
  end.

Fixpoint trimStart_fuel (fuel : nat) (s : string) : string :=
  match fuel with
  | O => s
  | S fuel' =>
      match leadingSpace s with
      | Some s' => trimStart_fuel fuel' s'
      | None => s
      end
  end.

Definition trimStart (s : string) : string :=
  trimStart_fuel (String.length s) s.

Definition takeSign (s : string) : bool * string :=
  match s with
  | String "-" r => (true, r)
  | String "+" r => (false, r)
  | _ => (false, s)
  end.

(** The exponent part [e<sign><digits>] when it is complete, else 0. *)
Definition exponentPart (s : string) : Z :=
  match s with
  | String c r =>
      if (Ascii.eqb c "e" || Ascii.eqb c "E")%bool then
        let (neg, r') := takeSign r in
        let (ds, _) := JsString.span isDigit r' in
        match ds with
        | EmptyString => 0
        | _ => if neg then - digitsValue 0 ds else digitsValue 0 ds
        end
      else 0
  | EmptyString => 0
  end.

(** [parseFloat]: the longest prefix of the trimmed string that is a
    decimal literal. *)
Definition parseFloat (input : string) : number :=
  let (neg, s) := takeSign (trimStart input) in
  if JsString.startsWith s "Infinity" then S754_infinity neg
  else
    let (ip, r1) := JsString.span isDigit s in
    let (fp, r2) := match r1 with
                    | String "." r => JsString.span isDigit r
                    | _ => (EmptyString, r1)
                    end in
    match ip ++ fp with
    | EmptyString => NaN
    | ds => ofDecimal neg (digitsValue 0 ds)
              (exponentPart r2 - Z.of_nat (String.length fp))
    end.

(** [parseInt(value, 10)]. *)
Definition parseInt10 (input : string) : number :=
  let (neg, s) := takeSign (trimStart input) in
  let (ds, _) := JsString.span isDigit s in
  match ds with
  | EmptyString => NaN
  | _ => ofDecimal neg (digitsValue 0 ds) 0
  end.

End JsNumber.

(* ================================================================== *)
(** ** Node's [path] module (POSIX flavour) *)

Module Path.

Definition isSlash (c : ascii) : bool := Ascii.eqb c "/".

(** Splits at every [/]. *)
Fixpoint segments (s : string) : list string :=
  match s with
  | EmptyString => [EmptyString]
  | String c s' =>
      if isSlash c then EmptyString :: segments s'
      else match segments s' with
           | seg :: rest => String c seg :: rest
           | [] => [String c EmptyString]
           end
  end.

(** The last non-empty segment (trailing slashes are skipped). *)
Definition lastSegment (p : string) : string :=
  match List.filter (fun g => negb (String.eqb g "")) (segments p) with
  | [] => EmptyString
  | g :: gs => List.last gs g
  end.

(** [splitLastDot seg] is the text before the last dot and the text
    from that dot on. *)
Fixpoint splitLastDot (seg : string) : option (string * string) :=
  match seg with
  | EmptyString => None
  | String c seg' =>
      match splitLastDot seg' with
      | Some (before, ext) => Some (String c before, ext)
      | None => if Ascii.eqb c "." then Some (EmptyString, seg) else None
      end
  end.

(** [path.extname]. *)
Definition extname (p : string) : string :=
  let seg := lastSegment p in
  match splitLastDot seg with
  | None => EmptyString
  | Some (before, ext) =>
      if String.eqb before "" then EmptyString
      else if String.eqb seg ".." then EmptyString
      else ext
  end.

(** The scan of [path.dirname]: [l] holds the characters at the
    indices [length l], ..., [1] (last first); the result is the index
    of the slash that ends the directory part. *)
Fixpoint dirnameEnd (l : list ascii) (matchedSlash : bool) : option nat :=
  match l with
  | [] => None
  | c :: rest =>
      if isSlash c then
        if matchedSlash then dirnameEnd rest true
        else Some (List.length l)
      else dirnameEnd rest false
  end.

(** [path.dirname]. *)
Definition dirname (p : string) : string :=
  match p with
  | EmptyString => "."
  | String c0 rest =>
      let hasRoot := isSlash c0 in
      match dirnameEnd (List.rev (list_ascii_of_string rest)) true with
      | None => if hasRoot then "/" else "."
      | Some e => if (hasRoot && Nat.eqb e 1)%bool then "//"
                  else JsString.take e p
      end
  end.

Definition isAbsolute (p : string) : bool :=
  match p with String c _ => isSlash c | EmptyString => false end.

(** The segment stack of [normalizeString] below the root: empty and
    [.] segments are dropped, [..] removes the segment before it. *)
Fixpoint normalizeSegments (stack : list string) (segs : list string) : list string :=
  match segs with
  | [] => List.rev stack
  | g :: segs' =>
      if (String.eqb g "" || String.eqb g ".")%bool then normalizeSegments stack segs'
      else if String.eqb g ".." then normalizeSegments (List.tl stack) segs'
      else normalizeSegments (g :: stack) segs'
  end.

Definition join (segs : list string) : string := String.concat "/" segs.

(** [path.resolve(base, p)] in a process whose working directory is
    the absolute path [cwd]: the arguments are taken from the right
    until an absolute one is met, empty ones are skipped. *)
Definition resolve (cwd base p : string) : string :=
  let withSlash (x : string) := if String.eqb x "" then x else x ++ "/" in
  let joined :=
    if isAbsolute p then withSlash p
    else if isAbsolute base then withSlash base ++ withSlash p
    else withSlash cwd ++ withSlash base ++ withSlash p in
  "/" ++ join (normalizeSegments [] (segments joined)).

End Path.

(* ================================================================== *)
(** ** Encodings: percent-encoding and base64 *)

Module Encoding.

Definition hexDigit (n : nat) : ascii :=
  match String.get n "0123456789ABCDEF" with
  | Some c => c
  | None => "0"%char
  end.

Definition hexValue (c : ascii) : option nat :=
  let n := nat_of_ascii c in
  if (Nat.leb 48 n && Nat.leb n 57)%bool then Some (n - 48)%nat
  else if (Nat.leb 65 n && Nat.leb n 70)%bool then Some (n - 55)%nat
  else if (Nat.leb 97 n && Nat.leb n 102)%bool then Some (n - 87)%nat
  else None.

(** The characters [encodeURIComponent] leaves alone: letters, digits
    and [- _ . ! ~ * ' ( )]. *)
Definition unreserved (c : ascii) : bool :=
  let n := nat_of_ascii c in
  ((Nat.leb 65 n && Nat.leb n 90) || (Nat.leb 97 n && Nat.leb n 122)
   || (Nat.leb 48 n && Nat.leb n 57)
   || JsString.includes "-_.!~*'()" (String c ""))%bool.

(** [encodeURIComponent]: every other byte of the UTF-8 encoding
    becomes [%XX]. *)
Fixpoint encodeURIComponent (s : string) : string :=
  match s with
  | EmptyString => EmptyString
  | String c s' =>
      if unreserved c then String c (encodeURIComponent s')
      else
        let n := nat_of_ascii c in
        String "%" (String (hexDigit (n / 16)) (String (hexDigit (n mod 16))
               (encodeURIComponent s')))
  end.

(** Percent-decoding; a [%] that is not followed by two hexadecimal
    digits is an error. *)
Fixpoint percentDecode (s : string) : option string :=
  match s with
  | EmptyString => Some EmptyString
  | String c s' =>
      if Ascii.eqb c "%" then
        match s' with
        | String h (String l s2) =>
            match hexValue h, hexValue l, percentDecode s2 with
            | Some a, Some b, Some r => Some (String (ascii_of_nat (16 * a + b)) r)
            | _, _, _ => None
            end
        | _ => None
        end
      else option_map (String c) (percentDecode s')
  end.

(** *** base64 *)

Definition alphabet : string :=
  "ABCDEFGHIJKLMNOPQRSTUVWXYZabcdefghijklmnopqrstuvwxyz0123456789+/".

(** Six bits, most significant first. *)
Definition sextet : Type := (bool * bool * bool * bool * bool * bool)%type.

Definition bit (b : bool) (w : nat) : nat := if b then w else O.

Definition sextetIndex (x : sextet) : nat :=
  let '(a, b, c, d, e, f) := x in
  (bit a 32 + bit b 16 + bit c 8 + bit d 4 + bit e 2 + bit f 1)%nat.


Definition charOfSextet (x : sextet) : ascii :=
  match String.get (sextetIndex x) alphabet with
  | Some c => c
  | None => "="%char
  end.



(** [Buffer.prototype.toString("base64")]: three bytes give four
    characters, the last group is padded with [=]. *)
Fixpoint base64 (bytes : list ascii) : string :=
  match bytes with
  | Ascii a0 a1 a2 a3 a4 a5 a6 a7 :: Ascii b0 b1 b2 b3 b4 b5 b6 b7
      :: Ascii c0 c1 c2 c3 c4 c5 c6 c7 :: rest =>
      String (charOfSextet (a7, a6, a5, a4, a3, a2))
      (String (charOfSextet (a1, a0, b7, b6, b5, b4))
      (String (charOfSextet (b3, b2, b1, b0, c7, c6))
      (String (charOfSextet (c5, c4, c3, c2, c1, c0)) (base64 rest))))
  | [Ascii a0 a1 a2 a3 a4 a5 a6 a7; Ascii b0 b1 b2 b3 b4 b5 b6 b7] =>
      String (charOfSextet (a7, a6, a5, a4, a3, a2))
      (String (charOfSextet (a1, a0, b7, b6, b5, b4))
      (String (charOfSextet (b3, b2, b1, b0, false, false)) "="))
  | [Ascii a0 a1 a2 a3 a4 a5 a6 a7] =>
      String (charOfSextet (a7, a6, a5, a4, a3, a2))
      (String (charOfSextet (a1, a0, false, false, false, false)) "==")
  | [] => EmptyString
  end.




End Encoding.

(* ================================================================== *)
(** ** The image pattern

    The global pattern of [processLocalImages]: the text <img, one or
    more characters other than >, the text src=, a quote (single or
    double), a group of one or more characters that are not quotes, a
    quote, characters other than >, and >.  It is matched the way a
    backtracking engine does: the starting positions are tried from left
    to right, the first repetition is greedy and gives characters back
    one at a time, the two other repetitions are delimited by the
    character that follows them. *)

Module ImgRegex.

Definition notGt (c : ascii) : bool := negb (Ascii.eqb c ">").
Definition isQuote (c : ascii) : bool :=
  (Ascii.eqb c "034" || Ascii.eqb c "'")%bool.
Definition notQuote (c : ascii) : bool := negb (isQuote c).

(** The pattern from src= on, at the head of [t]: the captured group
    and the number of characters consumed. *)
Definition attribute (t : string) : option (string * nat) :=
  match t with
  | String "s" (String "r" (String "c" (String "=" (String q t1)))) =>
      if isQuote q then
        let (group, t2) := JsString.span notQuote t1 in
        match group, t2 with
        | String _ _, String _ t3 =>
            let (tail, t4) := JsString.span notGt t3 in
            match t4 with
            | String _ _ =>
                Some (group, (5 + String.length group + 1
                              + String.length tail + 1)%nat)
            | EmptyString => None
            end
        | _, _ => None
        end
      else None
  | _ => None
  end.

(** [t] follows [j] characters taken by the first repetition; longer
    runs are tried first. *)
Fixpoint afterRun (t : string) (j : nat) : option (string * nat) :=
  let here := match j, attribute t with
              | S _, Some (group, n) => Some (group, (j + n)%nat)
              | _, _ => None
              end in
  match t with
  | String c t' =>
      if notGt c then
        match afterRun t' (S j) with
        | Some r => Some r
        | None => here
        end
      else here
  | EmptyString => here
  end.

(** A match that starts at the head of [s]: the whole match and the
    group. *)
Definition matchHere (s : string) : option (string * string) :=
  match s with
  | String "<" (String "i" (String "m" (String "g" t))) =>
      match afterRun t 0 with
      | Some (group, n) => Some (JsString.take (4 + n) s, group)
      | None => None
      end
  | _ => None
  end.

(** [[...html.matchAll(imgRegex)]]: [skip] counts the characters of the
    previous match that are still to be passed. *)
Fixpoint matchAllFrom (s : string) (skip : nat) : list (string * string) :=
  match s with
  | EmptyString => []
  | String _ s' =>
      match skip with
      | S k => matchAllFrom s' k
      | O =>
          match matchHere s with
          | Some (full, group) =>
              (full, group) :: matchAllFrom s' (String.length full - 1)
          | None => matchAllFrom s' 0
          end
      end
  end.

Definition matchAll (html : string) : list (string * string) :=
  matchAllFrom html 0.

End ImgRegex.

(* ================================================================== *)
(** ** Effects: the event trace, exceptions and [process.exit] *)

(** The calls made on the puppeteer browser and page. *)
Inductive browserCall : Type :=
| Launch
| NewPage
| SetDefaultNavigationTimeout (ms : Z)
| SetDefaultTimeout (ms : Z)
| SetRequestInterception
| SetViewport (width height : JsNumber.number)
| EmulateMediaType (media : string)
| SetContent (html : string)
| AwaitImageElements (rejectOnError : bool)
| ApplyScale (scale : JsNumber.number)
| Pdf (path : string) (top right bottom left : string)
| Close.

Inductive event : Type :=
| ConsoleLog (text : string)
| ConsoleWarn (text : string)
| ConsoleError (text : string)
| FsAccess (path : string)
| FsReadFile (path : string)
| Browser (call : browserCall)
| PollPendingImages
| ProcessExit (code : Z).

(** What the program runs against: the working directory, the
    directory of the script, the readable files ([inr] carries the
    message of the error a read fails with), the paths that exist
    although they cannot be read (a directory, a file without read
    permission), the Markdown parser, the resolution of module paths
    ([inr] carries the message of the error [require.resolve] throws),
    [String.prototype.toLowerCase] and the puppeteer calls that
    reject. *)
Record env : Type := {
  cwd : string;
  scriptDir : string;
  file : string -> string + string;
  present : string -> bool;
  marked : string -> string;
  requireResolve : string -> string + string;
  lowerCase : string -> string;
  rejects : browserCall -> option string
}.

Inductive outcome (A : Type) : Type :=
| Done (a : A)
| Thrown (message : string)
| Exited (code : Z).
Arguments Done {A} a.
Arguments Thrown {A} message.
Arguments Exited {A} code.

(** A computation yields an outcome and the events it emitted. *)
Definition M (A : Type) : Type := (outcome A * list event)%type.

Definition ret {A} (a : A) : M A := (Done a, []).
Definition throw {A} (message : string) : M A := (Thrown message, []).
Definition emit (e : event) : M unit := (Done tt, [e]).
Definition processExit {A} (code : Z) : M A := (Exited code, [ProcessExit code]).

Definition bind {A B} (m : M A) (f : A -> M B) : M B :=
  match m with
  | (Done a, t) => let (o, t') := f a in (o, (t ++ t')%list)
  | (Thrown message, t) => (Thrown message, t)
  | (Exited code, t) => (Exited code, t)
  end.

(** [try { m } catch (error) { handler error.message }]. *)
Definition tryCatch {A} (m : M A) (handler : string -> M A) : M A :=
  match m with
  | (Thrown message, t) => let (o, t') := handler message in (o, (t ++ t')%list)
  | other => other
  end.

Declare Scope js_scope.
Delimit Scope js_scope with js.
Notation "x <- m ;; k" := (bind m (fun x => k))
  (at level 61, m at next level, right associativity) : js_scope.
Notation "m ;;; k" := (bind m (fun _ => k))
  (at level 61, right associativity) : js_scope.
Local Open Scope js_scope.

Definition readFile (E : env) (path : string) : M string :=
  emit (FsReadFile path) ;;;
  match file E path with
  | inl content => ret content
  | inr message => throw message
  end.

(** [fs.access(path)]: the path must exist; a file that can be read
    does. *)
Definition access (E : env) (path : string) : M unit :=
  emit (FsAccess path) ;;;
  match file E path with
  | inl _ => ret tt
  | inr message => if present E path then ret tt else throw message
  end.

(** [require.resolve(name)]: the path of the module file, or the error
    of a module that is not found. *)
Definition resolve (E : env) (name : string) : M string :=
  match requireResolve E name with
  | inl path => ret path
  | inr message => throw message
  end.

Definition browser (E : env) (call : browserCall) : M unit :=
  emit (Browser call) ;;;
  match rejects E call with
  | None => ret tt
  | Some message => throw message
  end.

(* ================================================================== *)
(** ** Resource inliner ([src/index.js], the legacy script has the same
    three functions) *)

Module Inliner.

(** [processSVG(filePath)], lines 49-63 of [src/index.js]. *)
Definition processSVG (E : env) (filePath : string) : M (option string) :=
  tryCatch
    (svgContent <- readFile E filePath ;;
     if negb (JsString.includes svgContent "<svg")
     then throw "Not a valid SVG file"
     else ret (Some svgContent))
    (fun message =>
       emit (ConsoleWarn ("Warning: Could not process SVG " ++ filePath
                          ++ ": " ++ message)) ;;;
       ret None).

(** Truthiness of a string or null. *)
Definition truthy (v : option string) : bool :=
  match v with
  | Some (String _ _) => true
  | _ => false
  end.

Definition svgDataURL (svgContent : string) : string :=
  "data:image/svg+xml;utf8," ++ Encoding.encodeURIComponent svgContent.

Definition mimeType (E : env) (imagePath : string) : string :=
  let extension := JsString.drop 1 (lowerCase E (Path.extname imagePath)) in
  "image/" ++ (if String.eqb extension "jpg" then "jpeg" else extension).

Definition rasterDataURL (E : env) (imagePath imageBuffer : string) : string :=
  "data:" ++ mimeType E imagePath ++ ";base64,"
  ++ Encoding.base64 (list_ascii_of_string imageBuffer).

(** [imageToDataURL(imagePath)], lines 71-92. *)
Definition imageToDataURL (E : env) (imagePath : string) : M (option string) :=
  tryCatch
    (if String.eqb (JsString.toLowerCase (Path.extname imagePath)) ".svg" then
       svgContent <- processSVG E imagePath ;;
       ret (if truthy svgContent
            then option_map svgDataURL svgContent
            else None)
     else
       imageBuffer <- readFile E imagePath ;;
       ret (Some (rasterDataURL E imagePath imageBuffer)))
    (fun message =>
       emit (ConsoleWarn ("Warning: Could not load image " ++ imagePath
                          ++ ": " ++ message)) ;;;
       ret (Some imagePath)).

Definition isLocal (src : string) : bool :=
  negb (JsString.startsWith src "http://")
  && negb (JsString.startsWith src "https://")
  && negb (JsString.startsWith src "data:").

(** The body of the [for] loop, for one match. *)
Definition processImage (E : env) (basePath : string)
    (html : string) (m : string * string) : M string :=
  let (fullMatch, src) := m in
  if isLocal src then
    let absoluteImagePath := Path.resolve (cwd E) basePath src in
    tryCatch
      (dataUrl <- imageToDataURL E absoluteImagePath ;;
       match dataUrl with
       | Some url => if truthy dataUrl
                     then ret (JsString.replace html src url)
                     else ret html
       | None => ret html
       end)
      (fun message =>
         emit (ConsoleWarn ("Warning: Could not process image " ++ src
                            ++ ": " ++ message)) ;;;
         ret html)
  else ret html.

Fixpoint processImages (E : env) (basePath : string)
    (images : list (string * string)) (html : string) : M string :=
  match images with
  | [] => ret html
  | m :: rest =>
      html' <- processImage E basePath html m ;;
      processImages E basePath rest html'
  end.

(** [processLocalImages(html, basePath)], lines 101-128. *)
Definition processLocalImages (E : env) (html basePath : string) : M string :=
  processImages E basePath (ImgRegex.matchAll html) html.

End Inliner.

(* ================================================================== *)
(** ** Numeric literals of the two programs *)

Definition c1 : JsNumber.number := Eval vm_compute in JsNumber.ofDecimal false 1 0.
Definition c2 : JsNumber.number := Eval vm_compute in JsNumber.ofDecimal false 2 0.
Definition c16 : JsNumber.number := Eval vm_compute in JsNumber.ofDecimal false 16 0.
Definition c96 : JsNumber.number := Eval vm_compute in JsNumber.ofDecimal false 96 0.
Definition c210 : JsNumber.number := Eval vm_compute in JsNumber.ofDecimal false 210 0.
Definition c297 : JsNumber.number := Eval vm_compute in JsNumber.ofDecimal false 297 0.
Definition c0 : JsNumber.number := JsNumber.ofDecimal false 0 0.
Definition c0_9 : JsNumber.number := Eval vm_compute in JsNumber.ofDecimal false 9 (-1).
Definition c1_1 : JsNumber.number := Eval vm_compute in JsNumber.ofDecimal false 11 (-1).
Definition c1_25 : JsNumber.number := Eval vm_compute in JsNumber.ofDecimal false 125 (-2).
Definition c1_5 : JsNumber.number := Eval vm_compute in JsNumber.ofDecimal false 15 (-1).
Definition c25_4 : JsNumber.number := Eval vm_compute in JsNumber.ofDecimal false 254 (-1).

Record margins : Type := {
  top : JsNumber.number;
  right : JsNumber.number;
  bottom : JsNumber.number;
  left : JsNumber.number
}.

(** [const mmToPixels = (mm) => Math.floor((mm * 96) / 25.4)] *)
Definition mmToPixels (mm : JsNumber.number) : JsNumber.number :=
  JsNumber.floor (JsNumber.div (JsNumber.mul mm c96) c25_4).

(** [inputPath.replace(/\.md$/, ".pdf")]: the pattern matches the three
    characters [.md] at the very end of the string, nothing else. *)
Definition outputPath (inputPath : string) : string :=
  match JsString.stripSuffix inputPath ".md" with
  | Some stem => stem ++ ".pdf"
  | None => inputPath
  end.

Definition pdfCall (path : string) (m : margins) : browserCall :=
  Pdf path (JsNumber.toString (top m) ++ "mm") (JsNumber.toString (right m) ++ "mm")
      (JsNumber.toString (bottom m) ++ "mm") (JsNumber.toString (left m) ++ "mm").

Definition settingsUsed (scale fontSize : JsNumber.number) (m : margins) : string :=
  "Settings used: scale=" ++ JsNumber.toString scale
  ++ ", font-size=" ++ JsNumber.toString fontSize
  ++ "px, margins: top=" ++ JsNumber.toString (top m)
  ++ "mm, right=" ++ JsNumber.toString (right m)
  ++ "mm, bottom=" ++ JsNumber.toString (bottom m)
  ++ "mm, left=" ++ JsNumber.toString (left m) ++ "mm".

(** [path.join(__dirname, name)] for the absolute directory of the
    script. *)
Definition scriptFile (E : env) (name : string) : string :=
  "/" ++ Path.join (Path.normalizeSegments [] (Path.segments (scriptDir E ++ "/" ++ name))).

(* ================================================================== *)
(** ** [src/index.js] *)

Module Main.

Record options : Type := {
  scale : JsNumber.number;
  fontSize : JsNumber.number;
  margin : option JsNumber.number;
  optMargins : margins
}.

(** The template of [generateHTML]. *)
Definition document (githubCss highlightCss customCss : string)
    (fontSize : JsNumber.number) (html : string) : string :=
  "<!DOCTYPE html>
    <html>
    <head>
        <meta charset=" ++
  dq ++
  "UTF-8" ++
  dq ++
  ">
        <meta name=" ++
  dq ++
  "viewport" ++
  dq ++
  " content=" ++
  dq ++
  "width=device-width, initial-scale=1" ++
  dq ++
  ">
        <style>
            " ++
  githubCss ++
  "
            " ++
  highlightCss ++
  "
            " ++
  customCss ++
  "
            .markdown-body { font-size: " ++
  JsNumber.toString fontSize ++
  "px; }
        </style>
    </head>
    <body class=" ++
  dq ++
  "markdown-body" ++
  dq ++
  ">
        " ++
  html ++
  "
    </body>
    </html>".

(** [generateHTML(html, options)], lines 137-177: the three style sheets
    are read in this order. *)
Definition generateHTML (E : env) (html : string) (o : options) : M string :=
  customCss <- readFile E (scriptFile E "styles.css") ;;
  githubPath <- resolve E "github-markdown-css/github-markdown.css" ;;
  githubCss <- readFile E githubPath ;;
  highlightPath <- resolve E "highlight.js/styles/github.css" ;;
  highlightCss <- readFile E highlightPath ;;
  ret (document githubCss highlightCss customCss (fontSize o) html).

(** [debugLog] and [writeDebugHtml] return at once unless
    [global.DEBUG_MODE] is set, and nothing in the program sets it. *)
Definition debugLog : M unit := ret tt.

(** [convertMarkdownToPdf(inputPath, options)], lines 226-375.  The
    handlers registered with [page.on] and the set of pending images are
    not represented; [PollPendingImages] stands for the loop that waits
    for that set to be empty.  The constant options of [page.pdf] are
    left out of [Pdf]. *)
Definition convertMarkdownToPdf (E : env) (inputPath : string) (o : options) : M unit :=
  tryCatch
    (let baseDir := Path.dirname inputPath in
     markdown <- readFile E inputPath ;;
     debugLog ;;;
     let html := marked E markdown in
     debugLog ;;;
     html <- Inliner.processLocalImages E html baseDir ;;
     debugLog ;;;
     finalHtml <- generateHTML E html o ;;
     debugLog ;;;
     browser E Launch ;;;
     browser E NewPage ;;;
     browser E (SetDefaultNavigationTimeout 30000) ;;;
     browser E (SetDefaultTimeout 30000) ;;;
     browser E SetRequestInterception ;;;
     browser E (SetViewport (mmToPixels c210) (mmToPixels c297)) ;;;
     browser E (EmulateMediaType "print") ;;;
     browser E (SetContent finalHtml) ;;;
     browser E (AwaitImageElements false) ;;;
     emit PollPendingImages ;;;
     (if negb (JsNumber.eqb (scale o) c1)
      then browser E (ApplyScale (scale o)) else ret tt) ;;;
     let outputPath := outputPath inputPath in
     browser E (pdfCall outputPath (optMargins o)) ;;;
     browser E Close ;;;
     debugLog ;;;
     emit (ConsoleLog ("PDF created successfully at: " ++ outputPath)) ;;;
     emit (ConsoleLog (settingsUsed (scale o) (fontSize o) (optMargins o))))
    (fun message =>
       debugLog ;;;
       emit (ConsoleError ("Error: " ++ message)) ;;;
       processExit 1).

(** The values commander hands to the action: each option as the text
    given on the command line, if it was given. *)
Record invocation : Type := {
  scaleArg : option string;
  fontSizeArg : option string;
  marginArg : option string;
  inputArg : string
}.

Definition uniform (x : JsNumber.number) : margins :=
  {| top := x; right := x; bottom := x; left := x |}.

(** [program.opts()] after the option parsers ([parseFloat],
    [parseInt(value, 10)]) and the defaults, then the body of the action. *)
Definition parseOptions (i : invocation) : options :=
  let scale := match scaleArg i with
               | Some v => JsNumber.parseFloat v
               | None => c1
               end in
  let fontSize := match fontSizeArg i with
                  | Some v => JsNumber.parseInt10 v
                  | None => c16
                  end in
  let fontSize := if JsNumber.truthy fontSize then fontSize else c16 in
  let margin := option_map JsNumber.parseFloat (marginArg i) in
  let margins := match margin with
                 | Some x => if JsNumber.truthy x then uniform x else uniform c25_4
                 | None => uniform c25_4
                 end in
  {| scale := scale; fontSize := fontSize; margin := margin; optMargins := margins |}.

(** The action of the command, lines 386-406. *)
Definition action (E : env) (i : invocation) : M unit :=
  let options := parseOptions i in
  emit (ConsoleLog "Options:") ;;;
  convertMarkdownToPdf E (inputArg i) options.

End Main.

(* ================================================================== *)
(** ** The legacy script *)

Module Legacy.

(** The template [fullHtml]. *)
Definition fullHtml (customCss : string) (fontSize : JsNumber.number)
    (html : string) : string :=
  "
            <!DOCTYPE html>
            <html>
            <head>
                <meta charset=" ++
  dq ++
  "utf-8" ++
  dq ++
  ">
                <style>
                    " ++
  customCss ++
  "
                    .markdown-body {
                        font-size: " ++
  JsNumber.toString fontSize ++
  "px !important;
                    }
                    .markdown-body pre,
                    .markdown-body code {
                        font-size: " ++
  JsNumber.toString (JsNumber.floor (JsNumber.mul fontSize c0_9)) ++
  "px !important;
                    }
                    .markdown-body h1 { font-size: " ++
  JsNumber.toString (JsNumber.mul fontSize c2) ++
  "px !important; }
                    .markdown-body h2 { font-size: " ++
  JsNumber.toString (JsNumber.mul fontSize c1_5) ++
  "px !important; }
                    .markdown-body h3 { font-size: " ++
  JsNumber.toString (JsNumber.mul fontSize c1_25) ++
  "px !important; }
                    .markdown-body h4 { font-size: " ++
  JsNumber.toString (JsNumber.mul fontSize c1_1) ++
  "px !important; }
                    .markdown-body h5 { font-size: " ++
  JsNumber.toString fontSize ++
  "px !important; }
                    .markdown-body h6 { font-size: " ++
  JsNumber.toString (JsNumber.mul fontSize c0_9) ++
  "px !important; }
                </style>
            </head>
            <body class=" ++
  dq ++
  "markdown-body" ++
  dq ++
  ">
                " ++
  html ++
  "
            </body>
            </html>
        ".

(** [convertMarkdownToPdf(inputPath, scale, fontSize, margins)] of the
    legacy script. *)
Definition convertMarkdownToPdf (E : env) (inputPath : string)
    (scale fontSize : JsNumber.number) (m : margins) : M unit :=
  tryCatch
    (tryCatch
       (access E inputPath)
       (fun _ =>
          emit (ConsoleError ("Error: Input file " ++ dq ++ inputPath ++ dq
                              ++ " does not exist")) ;;;
          processExit 1) ;;;
     let baseDir := Path.dirname inputPath in
     let outputPath := outputPath inputPath in
     markdown <- readFile E inputPath ;;
     let html := marked E markdown in
     html <- Inliner.processLocalImages E html baseDir ;;
     customCss <- readFile E (scriptFile E "styles.css") ;;
     let fullHtml := fullHtml customCss fontSize html in
     browser E Launch ;;;
     browser E NewPage ;;;
     browser E (SetViewport (mmToPixels c210) (mmToPixels c297)) ;;;
     browser E (EmulateMediaType "print") ;;;
     browser E (SetContent fullHtml) ;;;
     browser E (AwaitImageElements true) ;;;
     (if negb (JsNumber.eqb scale c1)
      then browser E (ApplyScale scale) else ret tt) ;;;
     browser E (pdfCall outputPath m) ;;;
     browser E Close ;;;
     emit (ConsoleLog ("PDF created successfully at: " ++ outputPath)) ;;;
     emit (ConsoleLog (settingsUsed scale fontSize m)))
    (fun message =>
       emit (ConsoleError ("Error: " ++ message)) ;;;
       processExit 1).

(** [arg.split('=')[1]] for an argument that holds an equals sign. *)
Definition afterEquals (arg : string) : string :=
  match JsString.splitFirst arg "=" with
  | Some (_, rest) => fst (JsString.span (fun c => negb (Ascii.eqb c "=")) rest)
  | None => EmptyString
  end.

(** [getArgValue(flag, defaultValue)]: the first argument that is
    [flag=value], or that is [flag] and has a successor, decides. *)
Fixpoint getArgValue (args : list string) (flag : string)
    (defaultValue : JsNumber.number) : JsNumber.number :=
  match args with
  | [] => defaultValue
  | arg :: rest =>
      if JsString.startsWith arg (flag ++ "=") then JsNumber.parseFloat (afterEquals arg)
      else match rest with
           | next :: _ =>
               if String.eqb arg flag then JsNumber.parseFloat next
               else getArgValue rest flag defaultValue
           | [] => getArgValue rest flag defaultValue
           end
  end.

Definition STANDARD_MARGIN : JsNumber.number := c25_4.
Definition DEFAULT_FONT_SIZE : JsNumber.number := c16.

Definition usage : list string :=
  [ "Usage: node index.js <input-markdown-file> [options]";
    "Options:";
    "  --scale <factor>       Scale factor (default: 1.0)";
    "  --font-size <px>       Base font size in pixels (default: 16)";
    "  --margin-top <mm>      Top margin in mm (default: 25.4)";
    "  --margin-right <mm>    Right margin in mm (default: 25.4)";
    "  --margin-bottom <mm>   Bottom margin in mm (default: 25.4)";
    "  --margin-left <mm>     Left margin in mm (default: 25.4)";
    "
Note: Default margins are 1 inch (25.4mm) as per standard document guidelines";
    "Example: node index.js input.md --scale 0.8 --font-size 14";
    "
When using npm run convert, use -- to pass arguments:";
    "npm run convert -- input.md --scale 0.8 --font-size 14" ].

Fixpoint errorLines (lines : list string) : M unit :=
  match lines with
  | [] => ret tt
  | l :: rest => emit (ConsoleError l) ;;; errorLines rest
  end.

Definition scaleError : string := "Error: Scale factor must be a positive number".
Definition fontSizeError : string := "Error: Font size must be a positive number".
Definition marginError (side : string) : string :=
  "Error: " ++ side ++ " margin must be a non-negative number".

(** [Object.entries(margins).forEach(...)]: the sides in the order of
    the object literal. *)
Fixpoint validateMargins (entries : list (string * JsNumber.number)) : M unit :=
  match entries with
  | [] => ret tt
  | (side, value) :: rest =>
      (if (JsNumber.isNaN value || JsNumber.ltb value c0)%bool
       then emit (ConsoleError (marginError side)) ;;; processExit 1
       else ret tt) ;;;
      validateMargins rest
  end.

Definition entries (m : margins) : list (string * JsNumber.number) :=
  [("top", top m); ("right", right m); ("bottom", bottom m); ("left", left m)].

Definition parseMargins (args : list string) : margins :=
  {| top := getArgValue args "--margin-top" STANDARD_MARGIN;
     right := getArgValue args "--margin-right" STANDARD_MARGIN;
     bottom := getArgValue args "--margin-bottom" STANDARD_MARGIN;
     left := getArgValue args "--margin-left" STANDARD_MARGIN |}.

(** The top level of the script; [args] is [process.argv.slice(2)]. *)
Definition main (E : env) (args : list string) : M unit :=
  emit (ConsoleLog "Received arguments:") ;;;
  match args with
  | [] => errorLines usage ;;; processExit 1
  | inputPath :: _ =>
      let scale := getArgValue args "--scale" c1 in
      let fontSize := getArgValue args "--font-size" DEFAULT_FONT_SIZE in
      let margins := parseMargins args in
      emit (ConsoleLog "Parsed values:") ;;;
      (if (JsNumber.isNaN scale || JsNumber.leb scale c0)%bool
       then emit (ConsoleError scaleError) ;;; processExit 1
       else ret tt) ;;;
      (if (JsNumber.isNaN fontSize || JsNumber.leb fontSize c0)%bool
       then emit (ConsoleError fontSizeError) ;;; processExit 1
       else ret tt) ;;;
      validateMargins (entries margins) ;;;
      convertMarkdownToPdf E inputPath scale fontSize margins
  end.

End Legacy.


(* ================================================================== *)
(** ** Specification-side definitions *)

(** The pixel count as the specification words it: the floor of the
    exact quotient [mm * 96 / 25.4]. *)
Definition mmToPixels_spec (mm : Z) : Z := (mm * 96 * 10) / 254.

Definition viewportAgrees (mm : Z) : bool :=
  JsNumber.same (mmToPixels (JsNumber.ofZ mm)) (JsNumber.ofZ (mmToPixels_spec mm)).

(** [f] holds at [z], [z + 1], ..., [z + count - 1]. *)
Fixpoint allFrom (count : nat) (z : Z) (f : Z -> bool) : bool :=
  match count with
  | O => true
  | S k => f z && allFrom k (z + 1) f
  end.

(** [x] is exactly the fraction [num / den] ([den] positive). *)
Definition hasValue (x : JsNumber.number) (num den : Z) : bool :=
  match x with
  | S754_zero _ => num =? 0
  | S754_finite s m e =>
      let (n, d) := JsNumber.magnitude m e in
      (if s then - n else n) * den =? num * d
  | _ => false
  end.

(** The pixel count of a number of millimetres given as the fraction
    [num / den]: the floor of the exact quotient. *)
Definition mmToPixels_exact (num den : Z) : Z := (num * 96 * 10) / (den * 254).

(** [x] is a positive normal number of millimetres, and the exact
    quotient [x * 96 / 25.4] lies between [n * (1 + 2^-50)] and
    [(n + 1) * (1 - 2^-50)]. *)
Definition quotientClear (x : JsNumber.number) (n : Z) : bool :=
  match x with
  | S754_finite false m e =>
      let (a, b) := JsNumber.magnitude m e in
      (2 ^ 52 <=? Zpos m)
      && (n * (2 ^ 50 + 1) * 254 * b <=? 960 * a * 2 ^ 50)
      && (960 * a * 2 ^ 50 <=? (n + 1) * (2 ^ 50 - 1) * 254 * b)
  | _ => false
  end.

(** [G] is a binary64 number and is exactly [num / den] times the
    positive number [F]. *)
Definition timesExactly (num den : Z) (F G : JsNumber.number) : bool :=
  match F, G with
  | S754_finite false m e, S754_finite false m' e' =>
      bounded JsNumber.prec JsNumber.emax m' e'
      && (den * (Zpos m' * 2 ^ (e' - Z.min e e'))
          =? num * (Zpos m * 2 ^ (e - Z.min e e')))
  | _, _ => false
  end.

(** Nine tenths of the positive number [F] lie between [n] and
    [n + 0.9]. *)
Definition nineTenthsIn (F : JsNumber.number) (n : Z) : bool :=
  match F with
  | S754_finite false m e =>
      let (a, b) := JsNumber.magnitude m e in
      (10 * n * b <=? 9 * a) && (9 * a <=? (10 * n + 9) * b)
  | _ => false
  end.

(** Nine tenths of the positive number [F] are at least [n], and stay
    at most [n + 1] when enlarged by the fraction [2^-52] of
    themselves. *)
Definition nineTenthsClear (F : JsNumber.number) (n : Z) : bool :=
  match F with
  | S754_finite false m e =>
      let (a, b) := JsNumber.magnitude m e in
      (10 * n * b <=? 9 * a)
      && (9 * a * (2 ^ 52 + 1) <=? 10 * (n + 1) * b * 2 ^ 52)
  | _ => false
  end.

(** The code size of the legacy script for the whole font size [f] is
    the floor of nine tenths of [f]. *)
Definition codeAgrees (f : Z) : bool :=
  JsNumber.same (JsNumber.floor (JsNumber.mul (JsNumber.ofZ f) c0_9))
                (JsNumber.ofZ (9 * f / 10)).

(** The record [mrs] stands for [X / 2^j]: its mantissa is the quotient,
    its round bit tells whether the remainder reaches the half, and its
    sticky bit whether the remainder is neither nothing nor the half. *)
Definition shifted (X j : Z) (mrs : shr_record) : Prop :=
  0 <= shr_m mrs
  /\ 0 <= X - shr_m mrs * 2 ^ j < 2 ^ j
  /\ (shr_r mrs = true <-> 2 ^ j <= 2 * (X - shr_m mrs * 2 ^ j))
  /\ (shr_s mrs = true <->
      0 < X - shr_m mrs * 2 ^ j /\ 2 * (X - shr_m mrs * 2 ^ j) <> 2 ^ j).

(** The one computed rule of [src/index.js]. *)
Definition baseRule (fontSize : JsNumber.number) : string :=
  ".markdown-body { font-size: " ++ JsNumber.toString fontSize ++ "px; }".

(** The one-line rules of the legacy script. *)
Definition legacyRule (selector : string) (size : JsNumber.number) : string :=
  ".markdown-body " ++ selector ++ " { font-size: " ++ JsNumber.toString size
  ++ "px !important; }".

(** The two block rules of the legacy script, as they are laid out in
    the template: the selector, an opening brace, and the declaration on
    the next line. *)
Definition newline : string := String "010" EmptyString.

Definition legacyBlock (selector : string) (size : JsNumber.number) : string :=
  selector ++ " {" ++ newline ++ "                        "
  ++ "font-size: " ++ JsNumber.toString size ++ "px !important;".

Definition preAndCode : string :=
  ".markdown-body pre," ++ newline ++ "                    "
  ++ ".markdown-body code".

(** A number is positive, non-negative. *)
Definition isPositive (x : JsNumber.number) : bool := JsNumber.ltb c0 x.
Definition isNonNegative (x : JsNumber.number) : bool := JsNumber.leb c0 x.

(** The two warnings of the inliner. *)
Definition svgWarning (filePath reason : string) : event :=
  ConsoleWarn ("Warning: Could not process SVG " ++ filePath ++ ": " ++ reason).

Definition loadWarning (imagePath reason : string) : event :=
  ConsoleWarn ("Warning: Could not load image " ++ imagePath ++ ": " ++ reason).

(** The path has the extension [.svg], in any letter case. *)
Definition isSvg (imagePath : string) : bool :=
  String.eqb (JsString.toLowerCase (Path.extname imagePath)) ".svg".

(** No [browser.close()] among the events. *)
Definition unclosed (t : list event) : Prop := ~ In (Browser Close) t.

(** An entry of the margins whose value is NaN or negative. *)
Definition offending (e : string * JsNumber.number) : bool :=
  negb (isNonNegative (snd e)).

(* ================================================================== *)
(** ** Sample environments *)

Module Sample.

Definition enoent (path : string) : string :=
  "ENOENT: no such file or directory, open '" ++ path ++ "'".

(** Reading the directory [docs] fails with this message. *)
Definition eisdir : string := "EISDIR: illegal operation on a directory, read".

Definition files : list (string * string) :=
  [ ("docs/doc.md", "# Title");
    ("notes.txt", "plain notes");
    ("/home/u/docs/a.png", "PNG");
    ("/home/u/docs/a.PNG", "PNG");
    ("/home/u/docs/a.svg", "<svg></svg>");
    ("/home/u/docs/bad.svg", "<html></html>");
    ("/opt/md2pdf/src/styles.css", "body { line-height: 1.5; }");
    ("/opt/md2pdf/node_modules/github-markdown-css/github-markdown.css",
     ".markdown-body h1 { font-size: 2em; }");
    ("/opt/md2pdf/node_modules/highlight.js/styles/github.css",
     ".hljs { color: #24292e; }") ].

Fixpoint lookup (path : string) (l : list (string * string)) : string + string :=
  match l with
  | [] => inr (enoent path)
  | (p, content) :: rest => if String.eqb p path then inl content else lookup path rest
  end.

(** A machine on which every browser call succeeds and the Markdown
    parser returns [fragment]. *)
Definition machine (fragment : string) : env := {|
  cwd := "/home/u";
  scriptDir := "/opt/md2pdf/src";
  file := fun path => if String.eqb path "docs" then inr eisdir
                      else lookup path files;
  present := fun path => String.eqb path "docs";
  marked := fun _ => fragment;
  requireResolve := fun name => inl ("/opt/md2pdf/node_modules/" ++ name);
  lowerCase := JsString.toLowerCase;
  rejects := fun _ => None
|}.

(** The same machine, except that loading the page times out. *)
Definition stalled (fragment : string) : env := {|
  cwd := "/home/u";
  scriptDir := "/opt/md2pdf/src";
  file := fun path => if String.eqb path "docs" then inr eisdir
                      else lookup path files;
  present := fun path => String.eqb path "docs";
  marked := fun _ => fragment;
  requireResolve := fun name => inl ("/opt/md2pdf/node_modules/" ++ name);
  lowerCase := JsString.toLowerCase;
  rejects := fun call => match call with
                         | SetContent _ => Some "Navigation timeout of 30000 ms exceeded"
                         | _ => None
                         end
|}.

Definition heading : string := "<h1>Title</h1>".

(** What the Markdown parser gives for an image: the source, then the
    alternative text. *)
Definition img (src : string) : string :=
  "<img src=" ++ dq ++ src ++ dq ++ " alt=" ++ dq ++ "x" ++ dq ++ ">".

(** A paragraph that names the picture before it shows it. *)
Definition mention : string := "<p>See a.svg: " ++ img "a.svg" ++ "</p>".

(** A remote picture followed by a local one of the same name. *)
Definition remoteThenLocal : string :=
  "<p>" ++ img "https://example.com/a.png" ++ img "a.png" ++ "</p>".

Definition invocation (scale fontSize margin : option string) (input : string)
    : Main.invocation :=
  {| Main.scaleArg := scale; Main.fontSizeArg := fontSize;
     Main.marginArg := margin; Main.inputArg := input |}.

End Sample.

(* ================================================================== *)
(** ** Vocabulary for the further properties *)

(** Every character of [s] satisfies [f]. *)
Fixpoint allChars (f : ascii -> bool) (s : string) : bool :=
  match s with
  | EmptyString => true
  | String c s' => f c && allChars f s'
  end.

(** An argument that [getArgValue] reacts to: [flag=...] or [flag]. *)
Definition mentions (flag arg : string) : bool :=
  JsString.startsWith arg (flag ++ "=") || String.eqb arg flag.

Definition notEquals (c : ascii) : bool := negb (Ascii.eqb c "=").

(** The file can be read. *)
Definition readable (E : env) (path : string) : bool :=
  match file E path with inl _ => true | inr _ => false end.

(** The style sheet beside the script, and a style sheet of a module:
    it is found and can be read. *)
Definition customCssPath (E : env) : string := scriptFile E "styles.css".

Definition readableModule (E : env) (name : string) : bool :=
  match requireResolve E name with
  | inl path => readable E path
  | inr _ => false
  end.

(** Classes of events: the calls of the program on [fs], the calls on
    the browser, and so on. *)
Definition isFsCall (e : event) : bool :=
  match e with FsAccess _ | FsReadFile _ => true | _ => false end.

Definition isBrowserEvent (e : event) : bool :=
  match e with Browser _ => true | _ => false end.

Definition isRead (e : event) : bool :=
  match e with FsReadFile _ => true | _ => false end.

Definition isWarning (e : event) : bool :=
  match e with ConsoleWarn _ => true | _ => false end.

Definition isReadOrWarning (e : event) : bool := isRead e || isWarning e.

Definition isApplyScale (e : event) : bool :=
  match e with Browser (ApplyScale _) => true | _ => false end.

(** A viewport call, if it is one, asks for 793 by 1122 pixels. *)
Definition viewportIsA4 (e : event) : bool :=
  match e with
  | Browser (SetViewport w h) =>
      JsNumber.same w (JsNumber.ofZ 793) && JsNumber.same h (JsNumber.ofZ 1122)
  | _ => true
  end.

(** All the events of a trace are of one class. *)
Definition only (P : event -> bool) (t : list event) : Prop :=
  List.forallb P t = true.

Definition countEvents (P : event -> bool) (t : list event) : nat :=
  List.length (List.filter P t).

(** The matches of the image pattern whose src is local. *)
Definition localImages (html : string) : list (string * string) :=
  List.filter (fun m => Inliner.isLocal (snd m)) (ImgRegex.matchAll html).

(** A program ends normally or exits with status 1. *)
Definition settled (o : outcome unit) : Prop := o = Done tt \/ o = Exited 1.

(** No exception escapes the computation; when it exits, the status is 1. *)
Definition noThrow {A} (m : M A) : Prop := forall message, fst m <> Thrown message.
Definition exitsWith1 {A} (m : M A) : Prop := forall code, fst m = Exited code -> code = 1.

(** The input file and the three style sheets can all be read. *)
Definition allReadable (E : env) (inputPath : string) : bool :=
  readable E inputPath && readable E (customCssPath E)
  && readableModule E "github-markdown-css/github-markdown.css"
  && readableModule E "highlight.js/styles/github.css".

(** The flags the legacy script looks for. *)
Definition legacyFlags : list string :=
  ["--scale"; "--font-size"; "--margin-top"; "--margin-right";
   "--margin-bottom"; "--margin-left"].

(** The input file and the style sheet of the legacy script can be
    read. *)
Definition legacyReadable (E : env) (inputPath : string) : bool :=
  readable E inputPath && readable E (customCssPath E).

(** A trace in two phases: first no browser call, then no call on
    [fs]. *)
Definition phased (t : list event) : Prop :=
  exists t1 t2, t = (t1 ++ t2)%list
                /\ only (fun e => negb (isBrowserEvent e)) t1
                /\ only (fun e => negb (isFsCall e)) t2.

(** [word] is the attribute of the image pattern and [src] its group:
    [src=], a quote, the group (not empty, free of quotes), a quote,
    characters other than [>], and [>]. *)
Definition srcAttribute (word src : string) : Prop :=
  exists q1 q2 tail,
    ImgRegex.isQuote q1 = true
    /\ ImgRegex.isQuote q2 = true
    /\ src <> EmptyString
    /\ allChars ImgRegex.notQuote src = true
    /\ allChars ImgRegex.notGt tail = true
    /\ word = "src=" ++ String q1 (src ++ String q2 (tail ++ ">")).

(** [fullMatch] is a word of the image pattern and [src] its group:
    [<img], one or more characters other than [>], and the attribute. *)
Definition imgMatch (fullMatch src : string) : Prop :=
  exists run word,
    run <> EmptyString
    /\ allChars ImgRegex.notGt run = true
    /\ srcAttribute word src
    /\ fullMatch = "<img" ++ run ++ word.

(** A character other than those that end a double-quoted attribute or
    a tag ([dq], [<], [>]) and other than the space.  The apostrophe,
    which ends a single-quoted attribute, counts as safe here. *)
Definition doubleQuotedSafe (c : ascii) : bool :=
  negb (Ascii.eqb c "034" || Ascii.eqb c "<" || Ascii.eqb c ">" || Ascii.eqb c " ").

(* ================================================================== *)
(** ** Facts about strings *)

Section StringFacts.

Lemma append_assoc (a b c : string) : (a ++ b) ++ c = a ++ (b ++ c).
Proof. induction a as [|x a IH]; simpl; [reflexivity | now rewrite IH]. Qed.

Lemma length_append (a b : string) :
  String.length (a ++ b) = (String.length a + String.length b)%nat.
Proof. induction a as [|x a IH]; simpl; [reflexivity | now rewrite IH]. Qed.

Lemma startsWith_append (p s : string) : JsString.startsWith (p ++ s) p = true.
Proof.
  induction p as [|c p IH]; simpl; [reflexivity|].
  now rewrite Ascii.eqb_refl, IH.
Qed.

Lemma includes_here (s p : string) :
  JsString.startsWith s p = true -> JsString.includes s p = true.
Proof. intros H; destruct s; simpl in *; rewrite H; reflexivity. Qed.

Lemma includes_cons (c : ascii) (s p : string) :
  JsString.includes s p = true -> JsString.includes (String c s) p = true.
Proof. intros H; simpl; rewrite H; apply orb_true_r. Qed.

Lemma includes_append_right (pre s p : string) :
  JsString.includes s p = true -> JsString.includes (pre ++ s) p = true.
Proof.
  intros H. induction pre as [|c pre IH]; [exact H|].
  cbn [append]. now apply includes_cons.
Qed.

Lemma includes_append (pre p post : string) :
  JsString.includes (pre ++ p ++ post) p = true.
Proof.
  induction pre as [|c pre IH]; simpl append.
  - apply includes_here, startsWith_append.
  - now apply includes_cons.
Qed.

(** *** The suffix [.md] *)

Lemma stripSuffix_unfold (s p : string) :
  JsString.stripSuffix s p =
  if String.eqb s p then Some EmptyString
  else match s with
       | EmptyString => None
       | String c s' => option_map (String c) (JsString.stripSuffix s' p)
       end.
Proof. destruct s; reflexivity. Qed.

Lemma stripSuffix_sound (s p stem : string) :
  JsString.stripSuffix s p = Some stem -> s = stem ++ p.
Proof.
  revert stem; induction s as [|c s IH]; intros stem;
    rewrite stripSuffix_unfold;
    match goal with |- context [String.eqb ?a ?b] =>
      destruct (String.eqb_spec a b) as [<-|_] end;
    try (now intros [= <-]); try discriminate.
  destruct (JsString.stripSuffix s p) as [t|]; simpl; [|discriminate].
  intros [= <-]. simpl. f_equal. now apply IH.
Qed.

Lemma stripSuffix_append (stem p : string) :
  JsString.stripSuffix (stem ++ p) p = Some stem.
Proof.
  induction stem as [|c t IH]; rewrite stripSuffix_unfold.
  - simpl. now rewrite String.eqb_refl.
  - simpl append.
    destruct (String.eqb_spec (String c (t ++ p)) p) as [E|_].
    + apply (f_equal String.length) in E. simpl in E.
      rewrite length_append in E. lia.
    + now rewrite IH.
Qed.

Lemma endsWith_true (s p : string) :
  JsString.endsWith s p = true <-> exists stem, s = stem ++ p.
Proof.
  unfold JsString.endsWith. split.
  - destruct (JsString.stripSuffix s p) as [stem|] eqn:H; [|discriminate].
    intros _. exists stem. now apply stripSuffix_sound.
  - intros [stem ->]. now rewrite stripSuffix_append.
Qed.

End StringFacts.

(* ================================================================== *)
(** ** Facts about the encodings *)

Section EncodingFacts.

(** The replacement patterns only start at a dollar sign. *)
Lemma getSubstitution_plain (matched before after r : string) :
  JsString.includes r "$" = false ->
  JsString.getSubstitution matched before after r = r.
Proof.
  induction r as [|c r IH]; [reflexivity|].
  simpl. intros H. apply orb_false_iff in H as [Hc Hr].
  rewrite andb_true_r in Hc. rewrite Hc. now rewrite IH.
Qed.

Lemma replace_first (s pattern r before after : string) :
  JsString.splitFirst s pattern = Some (before, after) ->
  JsString.includes r "$" = false ->
  JsString.replace s pattern r = before ++ r ++ after.
Proof.
  intros Hs Hr. unfold JsString.replace. rewrite Hs.
  now rewrite getSubstitution_plain.
Qed.

Lemma includes_dollar_append (a b : string) :
  JsString.includes a "$" = false -> JsString.includes b "$" = false ->
  JsString.includes (a ++ b) "$" = false.
Proof.
  intros Ha Hb. induction a as [|c a IH]; [exact Hb|].
  simpl in *. apply orb_false_iff in Ha as [Hc Ha].
  rewrite Hc. simpl. now apply IH.
Qed.

Lemma byte_facts (c : ascii) :
  let n := nat_of_ascii c in
  Encoding.hexValue (Encoding.hexDigit (n / 16)) = Some (n / 16)%nat
  /\ Encoding.hexValue (Encoding.hexDigit (n mod 16)) = Some (n mod 16)%nat
  /\ ascii_of_nat (16 * (n / 16) + n mod 16) = c
  /\ Ascii.eqb (Encoding.hexDigit (n / 16)) "$" = false
  /\ Ascii.eqb (Encoding.hexDigit (n mod 16)) "$" = false
  /\ (Encoding.unreserved c = true ->
      Ascii.eqb c "%" = false /\ Ascii.eqb c "$" = false).
Proof.
  destruct c as [[] [] [] [] [] [] [] []]; vm_compute;
    repeat split; intros; try reflexivity; discriminate.
Qed.

(** Percent-decoding undoes [encodeURIComponent]. *)
Lemma percentDecode_encodeURIComponent (s : string) :
  Encoding.percentDecode (Encoding.encodeURIComponent s) = Some s.
Proof.
  induction s as [|c s IH]; [reflexivity|].
  destruct (byte_facts c) as (Hh & Hl & Hc & _ & _ & Hu).
  cbn [Encoding.encodeURIComponent].
  destruct (Encoding.unreserved c) eqn:U.
  - destruct (Hu eq_refl) as [Hp _].
    cbn [Encoding.percentDecode]. rewrite Hp, IH. reflexivity.
  - cbn [Encoding.percentDecode]. rewrite Ascii.eqb_refl, Hh, Hl, IH, Hc.
    reflexivity.
Qed.

(** [encodeURIComponent] escapes the dollar sign. *)
Lemma encodeURIComponent_no_dollar (s : string) :
  JsString.includes (Encoding.encodeURIComponent s) "$" = false.
Proof.
  induction s as [|c s IH]; [reflexivity|].
  destruct (byte_facts c) as (_ & _ & _ & Dh & Dl & Hu).
  cbn [Encoding.encodeURIComponent].
  destruct (Encoding.unreserved c) eqn:U.
  - destruct (Hu eq_refl) as [_ Hd].
    simpl. now rewrite Hd, IH.
  - cbn [JsString.includes JsString.startsWith].
    rewrite Dh, Dl, IH. reflexivity.
Qed.


Lemma list_ind3 {A} (P : list A -> Prop) :
  P [] -> (forall a, P [a]) -> (forall a b, P [a; b]) ->
  (forall a b c l, P l -> P (a :: b :: c :: l)) ->
  forall l, P l.
Proof.
  intros H0 H1 H2 H3. fix IH 1.
  intros [|a [|b [|c l]]].
  - exact H0.
  - apply H1.
  - apply H2.
  - apply H3, IH.
Qed.




End EncodingFacts.

(* ================================================================== *)
(** ** Facts about the monad *)

Section MonadFacts.

Context {A B : Type}.

Lemma bind_done_inv (m : M A) (f : A -> M B) (b : B) :
  fst (bind m f) = Done b ->
  exists a, fst m = Done a /\ fst (f a) = Done b
            /\ snd (bind m f) = (snd m ++ snd (f a))%list.
Proof.
  destruct m as [[a|msg|code] t]; simpl; try discriminate.
  destruct (f a) as [o t'] eqn:Hf; simpl. intros ->.
  exists a. rewrite Hf. auto.
Qed.

(** An event of the continuation is an event of the whole. *)
Lemma bind_in_rest (m : M A) (f : A -> M B) (b : B) (e : event) :
  (forall a, fst (f a) = Done b -> In e (snd (f a))) ->
  fst (bind m f) = Done b -> In e (snd (bind m f)).
Proof.
  intros Hk H. destruct (bind_done_inv _ _ _ H) as (a & _ & Hf & ->).
  apply in_or_app. right. now apply Hk.
Qed.

Lemma bind_in_first (m : M A) (f : A -> M B) (b : B) (e : event) :
  In e (snd m) -> fst (bind m f) = Done b -> In e (snd (bind m f)).
Proof.
  intros Hm H. destruct (bind_done_inv _ _ _ H) as (a & _ & _ & ->).
  apply in_or_app. now left.
Qed.

End MonadFacts.

Lemma tryCatch_exit_done {A} (m : M A) (h : string -> M A) (a : A) :
  (forall message, fst (h message) <> Done a) ->
  fst (tryCatch m h) = Done a ->
  fst m = Done a /\ snd (tryCatch m h) = snd m.
Proof.
  intros Hh. destruct m as [[x|msg|code] t]; simpl; auto; try discriminate.
  specialize (Hh msg). destruct (h msg) as [o t']; simpl in *. congruence.
Qed.

Lemma browser_emits (E : env) (call : browserCall) :
  In (Browser call) (snd (browser E call)).
Proof.
  unfold browser, emit, bind. destruct (rejects E call); simpl; auto.
Qed.

(* ================================================================== *)
(** ** Output path and viewport *)

Section OutputPath.

Lemma list_ascii_of_string_append (a b : string) :
  list_ascii_of_string (a ++ b)
  = (list_ascii_of_string a ++ list_ascii_of_string b)%list.
Proof. induction a as [|c a IH]; simpl; [reflexivity | now rewrite IH]. Qed.

Lemma length_list_ascii (a : string) :
  List.length (list_ascii_of_string a) = String.length a.
Proof. induction a as [|c a IH]; simpl; [reflexivity | now rewrite IH]. Qed.

Lemma dirnameEnd_bound (l : list ascii) (b : bool) (e : nat) :
  Path.dirnameEnd l b = Some e -> (e <= List.length l)%nat.
Proof.
  revert b; induction l as [|c l IH]; intros b; simpl; [discriminate|].
  destruct (Path.isSlash c).
  - destruct b.
    + intros H. apply IH in H. lia.
    + intros [= <-]. lia.
  - intros H. apply IH in H. lia.
Qed.

Lemma take_append (e : nat) (a b : string) :
  (e <= String.length a)%nat -> JsString.take e (a ++ b) = JsString.take e a.
Proof.
  revert e; induction a as [|c a IH]; intros [|e] H; simpl in *;
    try reflexivity; try lia.
  f_equal. apply IH. lia.
Qed.

(** Replacing the final [.md] by [.pdf] keeps the directory part. *)
Lemma dirname_md_pdf (stem : string) :
  Path.dirname (stem ++ ".pdf") = Path.dirname (stem ++ ".md").
Proof.
  destruct stem as [|c0 rest]; [reflexivity|].
  simpl append. unfold Path.dirname.
  rewrite !list_ascii_of_string_append, !rev_app_distr. simpl.
  change (Path.isSlash "f") with false. change (Path.isSlash "d") with false.
  change (Path.isSlash "p") with false. change (Path.isSlash "m") with false.
  change (Path.isSlash ".") with false. cbv iota.
  destruct (Path.dirnameEnd (rev (list_ascii_of_string rest)) false) as [e|] eqn:He;
    [|reflexivity].
  apply dirnameEnd_bound in He. rewrite length_rev, length_list_ascii in He.
  destruct (Path.isSlash c0 && Nat.eqb e 1)%bool; [reflexivity|].
  change (String c0 (rest ++ ".pdf")) with (String c0 rest ++ ".pdf").
  change (String c0 (rest ++ ".md")) with (String c0 rest ++ ".md").
  rewrite !take_append; simpl; try lia. reflexivity.
Qed.

Lemma outputPath_md (stem : string) : outputPath (stem ++ ".md") = stem ++ ".pdf".
Proof. unfold outputPath. now rewrite stripSuffix_append. Qed.

Lemma outputPath_other (inputPath : string) :
  JsString.endsWith inputPath ".md" = false -> outputPath inputPath = inputPath.
Proof.
  unfold outputPath, JsString.endsWith.
  destruct (JsString.stripSuffix inputPath ".md"); [discriminate | reflexivity].
Qed.

Lemma outputPath_changes (inputPath : string) :
  JsString.endsWith inputPath ".md" = true -> outputPath inputPath <> inputPath.
Proof.
  intros H. apply endsWith_true in H as [stem ->].
  rewrite outputPath_md. intros E.
  apply (f_equal String.length) in E. rewrite !length_append in E.
  simpl in E. lia.
Qed.

End OutputPath.

(* ================================================================== *)
(** ** Where the PDF is written *)

Section PdfTarget.

Ltac walk :=
  repeat (cbv zeta; cbv beta;
          first [ apply bind_in_first; solve [apply browser_emits]
                | apply bind_in_rest; intros ? ]).

(** A run of [convertMarkdownToPdf] that ends normally has asked the
    page for a PDF at [outputPath inputPath]. *)
Lemma main_done_writes (E : env) (inputPath : string) (o : Main.options) :
  fst (Main.convertMarkdownToPdf E inputPath o) = Done tt ->
  In (Browser (pdfCall (outputPath inputPath) (Main.optMargins o)))
     (snd (Main.convertMarkdownToPdf E inputPath o)).
Proof.
  unfold Main.convertMarkdownToPdf. intros H.
  apply tryCatch_exit_done in H as [H ->].
  2:{ intros message. unfold Main.debugLog. discriminate. }
  revert H. walk.
Qed.

Lemma legacy_done_writes (E : env) (inputPath : string)
    (scale fontSize : JsNumber.number) (m : margins) :
  fst (Legacy.convertMarkdownToPdf E inputPath scale fontSize m) = Done tt ->
  In (Browser (pdfCall (outputPath inputPath) m))
     (snd (Legacy.convertMarkdownToPdf E inputPath scale fontSize m)).
Proof.
  unfold Legacy.convertMarkdownToPdf. intros H.
  apply tryCatch_exit_done in H as [H ->].
  2:{ intros message. discriminate. }
  revert H. walk.
Qed.

End PdfTarget.

(* ================================================================== *)
(** ** Binary64 arithmetic: exact products *)

Section Binary64.

Lemma digits2_pos_bounds (p : BinNums.positive) :
  2 ^ (Zpos (digits2_pos p) - 1) <= Zpos p < 2 ^ Zpos (digits2_pos p).
Proof.
  induction p as [p IH|p IH|]; cbn [digits2_pos].
  - rewrite Pos2Z.inj_succ. change (Zpos p~1) with (2 * Zpos p + 1).
    replace (Z.succ (Zpos (digits2_pos p)) - 1) with (Z.succ (Zpos (digits2_pos p) - 1)) by lia.
    rewrite !Z.pow_succ_r by lia. lia.
  - rewrite Pos2Z.inj_succ. change (Zpos p~0) with (2 * Zpos p).
    replace (Z.succ (Zpos (digits2_pos p)) - 1) with (Z.succ (Zpos (digits2_pos p) - 1)) by lia.
    rewrite !Z.pow_succ_r by lia. lia.
  - change (2 ^ (1 - 1) <= 1 < 2 ^ 1). change (2 ^ (1 - 1)) with 1.
    change (2 ^ 1) with 2. lia.
Qed.

Lemma digits2_pos_unique (p : BinNums.positive) (k : Z) :
  2 ^ (k - 1) <= Zpos p < 2 ^ k -> Zpos (digits2_pos p) = k.
Proof.
  intros [Hl Hu]. destruct (digits2_pos_bounds p) as [Dl Du].
  set (d := Zpos (digits2_pos p)) in *.
  assert (Hk : 0 < k).
  { destruct (Z.ltb_spec 0 k) as [|Hk]; [assumption|].
    assert (2 ^ k <= 2 ^ 0) by (destruct (Z.eq_dec k 0) as [->|]; [lia|];
                                rewrite Z.pow_neg_r by lia; cbn; lia).
    cbn in *. lia. }
  destruct (Z.lt_trichotomy d k) as [H|[H|H]]; [|assumption|].
  - assert (2 ^ d <= 2 ^ (k - 1)) by (apply Z.pow_le_mono_r; lia). lia.
  - assert (2 ^ k <= 2 ^ (d - 1)) by (apply Z.pow_le_mono_r; lia). lia.
Qed.

Lemma Zdigits2_shift (m : BinNums.positive) (n : Z) :
  0 <= n -> Zdigits2 (Zpos m * 2 ^ n) = Zpos (digits2_pos m) + n.
Proof.
  intros Hn. destruct (digits2_pos_bounds m) as [Dl Du].
  assert (Hp : 0 < 2 ^ n) by (apply Z.pow_pos_nonneg; lia).
  destruct (Zpos m * 2 ^ n) as [|q|q] eqn:Hq; try lia.
  cbn [Zdigits2]. apply digits2_pos_unique. rewrite <- Hq.
  replace (Zpos (digits2_pos m) + n - 1) with ((Zpos (digits2_pos m) - 1) + n) by lia.
  rewrite !Z.pow_add_r by lia. nia.
Qed.

Lemma shr_1_double (z : Z) :
  0 < z ->
  shr_1 {| shr_m := 2 * z; shr_r := false; shr_s := false |}
  = {| shr_m := z; shr_r := false; shr_s := false |}.
Proof. destruct z; intros H; try lia. reflexivity. Qed.

Lemma iter_shr_exact (n : BinNums.positive) :
  forall z, 0 < z ->
  iter_pos shr_1 n {| shr_m := z * 2 ^ Zpos n; shr_r := false; shr_s := false |}
  = {| shr_m := z; shr_r := false; shr_s := false |}.
Proof.
  induction n as [n IH|n IH|]; intros z Hz; cbn [iter_pos].
  - assert (Hp : 0 < 2 ^ Zpos n) by (apply Z.pow_pos_nonneg; lia).
    replace (z * 2 ^ Zpos n~1) with (2 * ((z * 2 ^ Zpos n) * 2 ^ Zpos n)).
    + rewrite shr_1_double by nia. rewrite IH by nia. now apply IH.
    + replace (Zpos n~1) with (1 + Zpos n + Zpos n) by lia.
      rewrite !Z.pow_add_r by lia. change (2 ^ 1) with 2. ring.
  - assert (Hp : 0 < 2 ^ Zpos n) by (apply Z.pow_pos_nonneg; lia).
    replace (z * 2 ^ Zpos n~0) with ((z * 2 ^ Zpos n) * 2 ^ Zpos n).
    + rewrite IH by nia. now apply IH.
    + replace (Zpos n~0) with (Zpos n + Zpos n) by lia.
      rewrite !Z.pow_add_r by lia. ring.
  - change (2 ^ 1) with 2. rewrite Z.mul_comm. now apply shr_1_double.
Qed.

Lemma fexp_normal (e : Z) : -1021 <= e -> fexp 53 1024 e = e - 53.
Proof. unfold fexp, emin. lia. Qed.

(** Rounding a mantissa that is a canonical one followed by zeros drops
    the zeros. *)
Lemma binary_round_aux_exact (s : bool) (m : BinNums.positive) (e n : Z) :
  0 <= n -> canonical_mantissa 53 1024 m (e + n) = true -> e + n <= 971 ->
  binary_round_aux 53 1024 s (Zpos m * 2 ^ n) e loc_Exact = S754_finite s m (e + n).
Proof.
  intros Hn Hc He. unfold canonical_mantissa in Hc. apply Z.eqb_eq in Hc.
  unfold binary_round_aux, shr_fexp.
  rewrite (Zdigits2_shift m n Hn).
  replace (Zpos (digits2_pos m) + n + e) with (Zpos (digits2_pos m) + (e + n)) by lia.
  rewrite Hc. replace (e + n - e) with n by lia.
  assert (Hs : shr (shr_record_of_loc (Zpos m * 2 ^ n) loc_Exact) e n
               = ({| shr_m := Zpos m; shr_r := false; shr_s := false |}, e + n)).
  { unfold shr, shr_record_of_loc. destruct n as [|n|n]; try lia.
    - change (2 ^ 0) with 1. rewrite Z.mul_1_r, Z.add_0_r. reflexivity.
    - rewrite iter_shr_exact by lia. reflexivity. }
  rewrite Hs. cbn [shr_m loc_of_shr_record round_nearest_even Zdigits2].
  rewrite Hc, Z.sub_diag. cbn [shr shr_record_of_loc shr_m].
  apply Z.leb_le in He. change (1024 - 53) with 971. now rewrite He.
Qed.

Lemma binary_round_aux_canonical (s : bool) (m : BinNums.positive) (e : Z) :
  canonical_mantissa 53 1024 m e = true -> e <= 971 ->
  binary_round_aux 53 1024 s (Zpos m) e loc_Exact = S754_finite s m e.
Proof.
  intros Hc He. pose proof (binary_round_aux_exact s m e 0) as H.
  change (2 ^ 0) with 1 in H. rewrite Z.mul_1_r, Z.add_0_r in H.
  apply H; [lia | assumption | assumption].
Qed.

Lemma iter_xO (k : BinNums.positive) (x : BinNums.positive) :
  Zpos (Pos.iter xO x k) = Zpos x * 2 ^ Zpos k.
Proof.
  induction k as [|k IH] using Pos.peano_ind.
  - cbn [Pos.iter]. change (2 ^ 1) with 2. lia.
  - rewrite Pos.iter_succ, Pos2Z.inj_succ, Z.pow_succ_r by lia.
    change (Zpos (Pos.iter xO x k)~0) with (2 * Zpos (Pos.iter xO x k)). lia.
Qed.

(** The number value of a whole number below [2^53]: its digits,
    padded to 53 bits. *)
Lemma ofZ_pos (x : BinNums.positive) :
  Zpos x < 2 ^ 53 ->
  exists m, JsNumber.ofZ (Zpos x) = S754_finite false m (Zpos (digits2_pos x) - 53)
            /\ Zpos m = Zpos x * 2 ^ (53 - Zpos (digits2_pos x)).
Proof.
  intros Hx. destruct (digits2_pos_bounds x) as [Dl Du].
  set (d := Zpos (digits2_pos x)) in *.
  assert (Hd : 1 <= d <= 53).
  { split; [unfold d; lia|].
    destruct (Z.leb_spec d 53) as [|H]; [assumption|].
    assert (2 ^ 53 <= 2 ^ (d - 1)) by (apply Z.pow_le_mono_r; lia). lia. }
  unfold JsNumber.ofZ, binary_normalize, binary_round, shl_align.
  fold d. rewrite Z.add_0_r, fexp_normal by lia. rewrite Z.sub_0_r.
  destruct (d - 53) as [|k|k] eqn:Hk; try lia; cbv beta iota zeta.
  - exists x. replace (53 - d) with 0 by lia. change (2 ^ 0) with 1.
    split; [| lia].
    rewrite binary_round_aux_canonical; [reflexivity | | lia].
    unfold canonical_mantissa. fold d. rewrite fexp_normal by lia. apply Z.eqb_eq. lia.
  - exists (Pos.iter xO x k). replace (53 - d) with (Zpos k) by lia.
    split; [| apply iter_xO].
    rewrite binary_round_aux_canonical; [reflexivity | | lia].
    unfold canonical_mantissa.
    assert (Hdig : Zpos (digits2_pos (Pos.iter xO x k)) = 53).
    { apply digits2_pos_unique. rewrite iter_xO.
      replace (Zpos k) with (53 - d) by lia.
      assert (2 ^ (d - 1) * 2 ^ (53 - d) = 2 ^ 52)
        by (rewrite <- Z.pow_add_r by lia; f_equal; lia).
      assert (2 ^ d * 2 ^ (53 - d) = 2 ^ 53)
        by (rewrite <- Z.pow_add_r by lia; f_equal; lia).
      assert (0 < 2 ^ (53 - d)) by (apply Z.pow_pos_nonneg; lia).
      change (53 - 1) with 52. nia. }
    rewrite Hdig, fexp_normal by lia. apply Z.eqb_eq. lia.
Qed.

(** A product that is a binary64 number is computed exactly. *)
Lemma mul_exact (sa : bool) (ma mb mc : BinNums.positive) (ea eb ec : Z) :
  ea + eb <= ec ->
  Zpos ma * Zpos mb = Zpos mc * 2 ^ (ec - ea - eb) ->
  canonical_mantissa 53 1024 mc ec = true -> ec <= 971 ->
  JsNumber.mul (S754_finite sa ma ea) (S754_finite false mb eb) = S754_finite sa mc ec.
Proof.
  intros He Hm Hc Hb. unfold JsNumber.mul, SFmul.
  rewrite Pos2Z.inj_mul, Hm, xorb_false_r.
  rewrite binary_round_aux_exact.
  - f_equal. lia.
  - lia.
  - replace (ea + eb + (ec - ea - eb)) with ec by lia. exact Hc.
  - lia.
Qed.

Lemma padded_digits (x m : BinNums.positive) :
  Zpos x < 2 ^ 53 ->
  Zpos m = Zpos x * 2 ^ (53 - Zpos (digits2_pos x)) ->
  1 <= Zpos (digits2_pos x) <= 53 /\ 2 ^ 52 <= Zpos m < 2 ^ 53
  /\ Zpos (digits2_pos m) = 53.
Proof.
  intros Hx Hm. destruct (digits2_pos_bounds x) as [Dl Du].
  set (d := Zpos (digits2_pos x)) in *.
  assert (Hd : 1 <= d <= 53).
  { split; [unfold d; lia|].
    destruct (Z.leb_spec d 53) as [|H]; [assumption|].
    assert (2 ^ 53 <= 2 ^ (d - 1)) by (apply Z.pow_le_mono_r; lia). lia. }
  assert (2 ^ (d - 1) * 2 ^ (53 - d) = 2 ^ 52)
    by (rewrite <- Z.pow_add_r by lia; f_equal; lia).
  assert (2 ^ d * 2 ^ (53 - d) = 2 ^ 53)
    by (rewrite <- Z.pow_add_r by lia; f_equal; lia).
  assert (0 < 2 ^ (53 - d)) by (apply Z.pow_pos_nonneg; lia).
  assert (Hr : 2 ^ 52 <= Zpos m < 2 ^ 53) by nia.
  split; [assumption|]. split; [assumption|].
  apply digits2_pos_unique. change (53 - 1) with 52. exact Hr.
Qed.

(** The product of two whole numbers, when it is below [2^53]. *)
Lemma mul_ofZ (a b : BinNums.positive) :
  Zpos a * Zpos b < 2 ^ 53 ->
  JsNumber.mul (JsNumber.ofZ (Zpos a)) (JsNumber.ofZ (Zpos b))
  = JsNumber.ofZ (Zpos a * Zpos b).
Proof.
  intros H. change (Zpos a * Zpos b) with (Zpos (a * b)) in *.
  assert (Ha : Zpos a < 2 ^ 53) by nia.
  assert (Hb : Zpos b < 2 ^ 53) by nia.
  destruct (ofZ_pos a Ha) as (ma & -> & Ma).
  destruct (ofZ_pos b Hb) as (mb & -> & Mb).
  destruct (ofZ_pos (a * b) H) as (mc & -> & Mc).
  destruct (padded_digits _ _ Ha Ma) as (Da & _ & _).
  destruct (padded_digits _ _ Hb Mb) as (Db & _ & _).
  destruct (padded_digits _ _ H Mc) as (Dc & _ & Dmc).
  destruct (digits2_pos_bounds a) as [Al Au].
  destruct (digits2_pos_bounds b) as [Bl Bu].
  destruct (digits2_pos_bounds (a * b)) as [Cl Cu].
  set (da := Zpos (digits2_pos a)) in *.
  set (db := Zpos (digits2_pos b)) in *.
  set (dc := Zpos (digits2_pos (a * b))) in *.
  assert (Hdc : da + db - 1 <= dc).
  { destruct (Z.leb_spec (da + db - 1) dc) as [|Hlt]; [assumption|].
    assert (2 ^ dc <= 2 ^ (da + db - 2)) by (apply Z.pow_le_mono_r; lia).
    assert (2 ^ (da - 1) * 2 ^ (db - 1) = 2 ^ (da + db - 2))
      by (rewrite <- Z.pow_add_r by lia; f_equal; lia).
    rewrite Pos2Z.inj_mul in Cu. nia. }
  apply mul_exact.
  - lia.
  - rewrite Ma, Mb, Mc, Pos2Z.inj_mul.
    replace (dc - 53 - (da - 53) - (db - 53)) with (dc - da - db + 53) by lia.
    assert (2 ^ (53 - da) * 2 ^ (53 - db) = 2 ^ (53 - dc) * 2 ^ (dc - da - db + 53))
      by (rewrite <- !Z.pow_add_r by lia; f_equal; lia).
    nia.
  - unfold canonical_mantissa. rewrite Dmc, fexp_normal by lia. apply Z.eqb_eq. lia.
  - lia.
Qed.

End Binary64.

(* ================================================================== *)
(** ** Binary64 arithmetic: rounding to nearest *)

Section Division.

Lemma shr_1_spec (m : Z) (r s : bool) :
  0 <= m ->
  shr_1 {| shr_m := m; shr_r := r; shr_s := s |}
  = {| shr_m := m / 2; shr_r := Z.odd m; shr_s := r || s |}.
Proof.
  intros Hm. destruct m as [|[p|p|]|]; try lia; cbn [shr_1 Z.odd].
  - reflexivity.
  - replace (Zpos p~1 / 2) with (Zpos p); [reflexivity|].
    change (Zpos p~1) with (2 * Zpos p + 1). apply Z.div_unique with 1; lia.
  - replace (Zpos p~0 / 2) with (Zpos p); [reflexivity|].
    change (Zpos p~0) with (2 * Zpos p). apply Z.div_unique with 0; lia.
  - reflexivity.
Qed.

Lemma record_of_loc (m : Z) (l : location) :
  shr_m (shr_record_of_loc m l) = m
  /\ loc_of_shr_record (shr_record_of_loc m l) = l.
Proof. destruct l as [|[]]; split; reflexivity. Qed.

(** The last step of rounding: a mantissa of 53 digits is kept, the
    mantissa [2^53] becomes [2^52] with the next exponent. *)
Lemma round_finish (s : bool) (m2 e1 : Z) :
  2 ^ 52 <= m2 <= 2 ^ 53 -> -1021 <= e1 + 53 -> e1 + 1 <= 971 ->
  exists (m3 : BinNums.positive) (e3 : Z),
    (let '(mrs, e) := shr_fexp 53 1024 m2 e1 loc_Exact in
     match shr_m mrs with
     | Z0 => S754_zero s
     | Zpos m => if e <=? 1024 - 53 then S754_finite s m e else S754_infinity s
     | Zneg _ => S754_nan
     end) = S754_finite s m3 e3
    /\ e1 <= e3 <= e1 + 1
    /\ Zpos m3 * 2 ^ (e3 - e1) = m2.
Proof.
  intros Hm He Hb. destruct m2 as [|pm|pm]; try lia.
  unfold shr_fexp. cbn [Zdigits2].
  destruct (Z.ltb_spec (Zpos pm) (2 ^ 53)) as [Hlt|Hge].
  - rewrite (digits2_pos_unique pm 53) by (change (53 - 1) with 52; lia).
    rewrite fexp_normal by lia. replace (53 + e1 - 53 - e1) with 0 by lia.
    cbn [shr shr_record_of_loc shr_m].
    exists pm, e1. replace (e1 <=? 1024 - 53) with true by (symmetry; apply Z.leb_le; lia).
    split; [reflexivity|]. split; [lia|].
    rewrite Z.sub_diag. change (2 ^ 0) with 1. lia.
  - assert (Hpm : Zpos pm = 2 ^ 53) by lia.
    rewrite (digits2_pos_unique pm 54)
      by (change (54 - 1) with 53; rewrite Hpm; change (2 ^ 54) with (2 * 2 ^ 53); lia).
    rewrite fexp_normal by lia. replace (54 + e1 - 53 - e1) with 1 by lia.
    cbn [shr shr_record_of_loc iter_pos]. rewrite shr_1_spec by lia.
    cbn [shr_m]. rewrite Hpm. change (2 ^ 53 / 2) with (Zpos (2 ^ 52)%positive).
    exists (2 ^ 52)%positive, (e1 + 1).
    replace (e1 + 1 <=? 1024 - 53) with true by (symmetry; apply Z.leb_le; lia).
    split; [reflexivity|]. split; [lia|].
    replace (e1 + 1 - e1) with 1 by lia. reflexivity.
Qed.

Lemma new_location_even_spec (M r : Z) :
  Z.even M = true ->
  new_location M r = if r =? 0 then loc_Exact else loc_Inexact (2 * r ?= M).
Proof. intros H. unfold new_location. rewrite H. reflexivity. Qed.

(** Rounding to nearest, ties to even, of [q + r/M] with [0 <= r < M]:
    what is needed of it. *)
Lemma nearest_0 (X M q r : Z) :
  0 < M -> Z.even M = true -> X = M * q + r -> 0 <= r < M -> 0 < q ->
  let m2 := round_nearest_even q (new_location M r) in
  q <= m2 <= q + 1
  /\ (forall N, N * M <= X -> N <= m2)
  /\ (forall N, 2 * X < (2 * N - 1) * M -> m2 <= N - 1).
Proof.
  intros HM Hev HX Hr Hq. rewrite (new_location_even_spec _ _ Hev).
  destruct (Z.eqb_spec r 0) as [->|Hr0]; cbn [round_nearest_even].
  - split; [lia|]. split; intros N HN; nia.
  - destruct (Z.compare_spec (2 * r) M) as [He|Hl|Hg]; cbn [round_nearest_even].
    + destruct (Z.even q); (split; [lia|]; split; intros N HN; nia).
    + split; [lia|]. split; intros N HN; nia.
    + split; [lia|]. split; intros N HN; nia.
Qed.

Lemma nearest_1 (X M q r : Z) :
  0 < M -> Z.even M = true -> X = M * q + r -> 0 <= r < M -> 0 < q ->
  let mrs := shr_1 (shr_record_of_loc q (new_location M r)) in
  let m2 := round_nearest_even (shr_m mrs) (loc_of_shr_record mrs) in
  q / 2 <= m2 <= q / 2 + 1
  /\ (forall N, N * (2 * M) <= X -> N <= m2)
  /\ (forall N, 2 * X < (2 * N - 1) * (2 * M) -> m2 <= N - 1).
Proof.
  intros HM Hev HX Hr Hq. rewrite (new_location_even_spec _ _ Hev).
  pose proof (Z.div_mod q 2 ltac:(lia)) as Hq2.
  pose proof (Z.mod_pos_bound q 2 ltac:(lia)) as Hb.
  rewrite Zmod_odd in Hq2, Hb.
  destruct (Z.eqb_spec r 0) as [->|Hr0].
  - cbn [shr_record_of_loc]. rewrite shr_1_spec by lia. cbn [shr_m loc_of_shr_record orb].
    destruct (Z.odd q); cbn [loc_of_shr_record round_nearest_even].
    + destruct (Z.even (q / 2)); (split; [lia|]; split; intros N HN; nia).
    + split; [lia|]. split; intros N HN; nia.
  - destruct (Z.compare_spec (2 * r) M) as [He|Hl|Hg]; cbn [shr_record_of_loc];
      rewrite shr_1_spec by lia; cbn [shr_m loc_of_shr_record orb];
      destruct (Z.odd q); cbn [loc_of_shr_record round_nearest_even];
      (split; [lia|]; split; intros N HN; nia).
Qed.

Lemma Zdigits2_unique (z k : Z) :
  2 ^ (k - 1) <= z < 2 ^ k -> 0 < z -> Zdigits2 z = k.
Proof.
  intros H Hz. destruct z as [|p|p]; try lia. cbn [Zdigits2].
  now apply digits2_pos_unique.
Qed.

(** The quotient [X / M] with 53 or 54 digits, rounded: the result is
    a number [m3 * 2^e3], the nearest to [X / M * 2^e] with a mantissa of
    53 digits. *)
Lemma div_round (s : bool) (X M e : Z) :
  0 < M -> Z.even M = true -> 2 ^ 52 * M <= X < 2 ^ 54 * M ->
  -1021 <= e + 53 -> e + 2 <= 971 ->
  exists (m3 : BinNums.positive) (e3 k m2 : Z),
    binary_round_aux 53 1024 s (X / M) e (new_location M (X mod M))
    = S754_finite s m3 e3
    /\ 0 <= k <= 1
    /\ (X < 2 ^ 53 * M -> k = 0)
    /\ e + k <= e3 <= e + k + 1
    /\ Zpos m3 * 2 ^ (e3 - (e + k)) = m2
    /\ (forall N, N * (2 ^ k * M) <= X -> N <= m2)
    /\ (forall N, 2 * X < (2 * N - 1) * (2 ^ k * M) -> m2 <= N - 1).
Proof.
  intros HM Hev HX He Hb.
  pose proof (Z.div_mod X M ltac:(lia)) as Hdm.
  pose proof (Z.mod_pos_bound X M HM) as Hr.
  assert (Hq : 2 ^ 52 <= X / M < 2 ^ 54).
  { split; [apply Z.div_le_lower_bound | apply Z.div_lt_upper_bound]; lia. }
  remember (X / M) as q eqn:Eq. remember (X mod M) as r eqn:Er.
  assert (Hqpos : 0 < q) by lia.
  unfold binary_round_aux.
  destruct (Z.ltb_spec q (2 ^ 53)) as [Hlt|Hge].
  - assert (Hs : shr_fexp 53 1024 q e (new_location M r)
                 = (shr_record_of_loc q (new_location M r), e)).
    { unfold shr_fexp.
      rewrite (Zdigits2_unique q 53) by (change (53 - 1) with 52; lia).
      rewrite fexp_normal by lia. replace (53 + e - 53 - e) with 0 by lia.
      reflexivity. }
    rewrite Hs. destruct (record_of_loc q (new_location M r)) as [-> ->].
    destruct (nearest_0 X M q r HM Hev Hdm Hr Hqpos) as (Hm2 & Hi & Hii).
    set (m2 := round_nearest_even q (new_location M r)) in *.
    destruct (round_finish s m2 e) as (m3 & e3 & Hfin & He3 & Hval); try lia.
    exists m3, e3, 0, m2. rewrite Hfin. change (2 ^ 0) with 1.
    rewrite Z.add_0_r, Z.mul_1_l.
    repeat split; try lia; assumption.
  - assert (Hs : shr_fexp 53 1024 q e (new_location M r)
                 = (shr_1 (shr_record_of_loc q (new_location M r)), e + 1)).
    { unfold shr_fexp.
      rewrite (Zdigits2_unique q 54) by (change (54 - 1) with 53; lia).
      rewrite fexp_normal by lia. replace (54 + e - 53 - e) with 1 by lia.
      reflexivity. }
    rewrite Hs.
    destruct (nearest_1 X M q r HM Hev Hdm Hr Hqpos) as (Hm2 & Hi & Hii).
    set (mrs := shr_1 (shr_record_of_loc q (new_location M r))) in *.
    set (m2 := round_nearest_even (shr_m mrs) (loc_of_shr_record mrs)) in *.
    assert (Hh : 2 ^ 52 <= q / 2 < 2 ^ 53).
    { split; [apply Z.div_le_lower_bound | apply Z.div_lt_upper_bound]; lia. }
    destruct (round_finish s m2 (e + 1)) as (m3 & e3 & Hfin & He3 & Hval); try lia.
    exists m3, e3, 1, m2. rewrite Hfin. change (2 ^ 1) with 2.
    assert (Hk : X < 2 ^ 53 * M -> 1 = 0).
    { intros HXl. exfalso.
      assert (q < 2 ^ 53) by (rewrite Eq; apply Z.div_lt_upper_bound; lia). lia. }
    repeat split; try lia; assumption.
Qed.

End Division.

Section Nearest.

Lemma shifted_start (X : Z) :
  0 <= X -> shifted X 0 (shr_record_of_loc X loc_Exact).
Proof.
  intros HX. unfold shifted. cbn [shr_record_of_loc shr_m shr_r shr_s].
  change (2 ^ 0) with 1. repeat split; try lia; intros; try discriminate; lia.
Qed.

Lemma shifted_shr_1 (X j : Z) (mrs : shr_record) :
  0 <= j -> shifted X j mrs -> shifted X (j + 1) (shr_1 mrs).
Proof.
  intros Hj (Hm & Hrem & Hr & Hs). destruct mrs as [m r s].
  cbn [shr_m shr_r shr_s] in *.
  rewrite shr_1_spec by assumption. unfold shifted. cbn [shr_m shr_r shr_s].
  rewrite Z.pow_add_r by lia. change (2 ^ 1) with 2.
  assert (Hp : 0 < 2 ^ j) by (apply Z.pow_pos_nonneg; lia).
  pose proof (Z.div_mod m 2 ltac:(lia)) as Hdm.
  pose proof (Z.mod_pos_bound m 2 ltac:(lia)) as Hb.
  rewrite Zmod_odd in Hdm, Hb.
  set (P := 2 ^ j) in *. set (h := m / 2) in *.
  assert (Hh : 0 <= h) by (unfold h; apply Z.div_pos; lia).
  destruct (Z.odd m).
  - assert (Em : m = 2 * h + 1) by lia.
    assert (Erem : X - h * (P * 2) = (X - m * P) + P) by (rewrite Em; ring).
    rewrite Erem. split; [assumption|]. split; [lia|]. split.
    + split; intros; [lia|reflexivity].
    + rewrite orb_true_iff, Hr, Hs. lia.
  - assert (Em : m = 2 * h) by lia.
    assert (Erem : X - h * (P * 2) = X - m * P) by (rewrite Em; ring).
    rewrite Erem. split; [assumption|]. split; [lia|]. split.
    + split; intros; [discriminate|lia].
    + rewrite orb_true_iff, Hr, Hs. lia.
Qed.

Lemma shifted_iter (X : Z) (k : BinNums.positive) :
  forall j mrs, 0 <= j -> shifted X j mrs ->
  shifted X (j + Zpos k) (iter_pos shr_1 k mrs).
Proof.
  induction k as [k IH|k IH|]; intros j mrs Hj H; cbn [iter_pos].
  - replace (j + Zpos k~1) with (j + 1 + Zpos k + Zpos k) by lia.
    apply IH; [lia|]. apply IH; [lia|]. now apply shifted_shr_1.
  - replace (j + Zpos k~0) with (j + Zpos k + Zpos k) by lia.
    apply IH; [lia|]. now apply IH.
  - now apply shifted_shr_1.
Qed.

(** Rounding a shifted record to the nearest mantissa, ties to even. *)
Lemma shifted_nearest (X k : Z) (mrs : shr_record) :
  0 < k -> shifted X k mrs ->
  let m2 := round_nearest_even (shr_m mrs) (loc_of_shr_record mrs) in
  0 <= m2
  /\ (forall N, N * 2 ^ k <= X -> N <= m2)
  /\ (forall N, 2 * X < (2 * N - 1) * 2 ^ k -> m2 <= N - 1).
Proof.
  intros Hk (Hm & Hrem & Hr & Hs). destruct mrs as [m r s].
  cbn [shr_m shr_r shr_s] in *.
  assert (Hp : 0 < 2 ^ (k - 1)) by (apply Z.pow_pos_nonneg; lia).
  assert (E : 2 ^ k = 2 * 2 ^ (k - 1)).
  { replace k with (1 + (k - 1)) at 1 by lia. rewrite Z.pow_add_r by lia. reflexivity. }
  rewrite E in *. set (P := 2 ^ (k - 1)) in *.
  destruct Hr as [Hr1 Hr2], Hs as [Hs1 Hs2].
  destruct r, s; cbn [loc_of_shr_record round_nearest_even shr_m].
  - specialize (Hr1 eq_refl). specialize (Hs1 eq_refl).
    split; [lia|]. split; intros N HN; nia.
  - specialize (Hr1 eq_refl).
    assert (X - m * (2 * P) = P).
    { destruct (Z.eq_dec (X - m * (2 * P)) P) as [|Hne]; [assumption|].
      assert (false = true); [|discriminate]. apply Hs2. lia. }
    destruct (Z.even m) eqn:Ev.
    + split; [lia|]. split; intros N HN; nia.
    + split; [lia|]. split; intros N HN; nia.
  - specialize (Hs1 eq_refl).
    assert (X - m * (2 * P) < P).
    { destruct (Z.ltb_spec (X - m * (2 * P)) P) as [|Hge]; [assumption|].
      assert (false = true); [|discriminate]. apply Hr2. lia. }
    split; [lia|]. split; intros N HN; nia.
  - assert (X - m * (2 * P) = 0).
    { destruct (Z.eq_dec (X - m * (2 * P)) 0) as [|Hne]; [assumption|].
      destruct (Z.ltb_spec (X - m * (2 * P)) P) as [Hlt|Hge].
      - assert (false = true); [|discriminate]. apply Hs2. lia.
      - assert (false = true); [|discriminate]. apply Hr2. lia. }
    split; [lia|]. split; intros N HN; nia.
Qed.

(** Rounding a product that has too many digits: the mantissa [m2] of the
    result is the nearest to [X / 2^k], and the mantissa [2^53] is written
    as [2^52] with the next exponent. *)
Lemma round_aux_nearest (s : bool) (X : BinNums.positive) (e k : Z) :
  0 < k -> fexp 53 1024 (Zpos (digits2_pos X) + e) = e + k -> e + k <= 971 ->
  exists m2 : Z,
    0 <= m2 <= 2 ^ 53
    /\ binary_round_aux 53 1024 s (Zpos X) e loc_Exact
       = match m2 with
         | Z0 => S754_zero s
         | Zpos p => if m2 <? 2 ^ 53 then S754_finite s p (e + k)
                     else if e + k + 1 <=? 971
                          then S754_finite s (2 ^ 52)%positive (e + k + 1)
                          else S754_infinity s
         | Zneg _ => S754_nan
         end
    /\ (forall N, N * 2 ^ k <= Zpos X -> N <= m2)
    /\ (forall N, 2 * Zpos X < (2 * N - 1) * 2 ^ k -> m2 <= N - 1).
Proof.
  intros Hk Hf Hb.
  destruct (digits2_pos_bounds X) as [Dl Du].
  set (d := Zpos (digits2_pos X)) in *.
  assert (Hmin : -1074 <= e + k) by (revert Hf; unfold fexp, emin; lia).
  assert (Hd : d <= 53 + k) by (revert Hf; unfold fexp, emin; lia).
  assert (HX : Zpos X < 2 ^ 53 * 2 ^ k).
  { rewrite <- Z.pow_add_r by lia.
    assert (2 ^ d <= 2 ^ (53 + k)) by (apply Z.pow_le_mono_r; lia). lia. }
  unfold binary_round_aux, shr_fexp. cbn [Zdigits2]. fold d. rewrite Hf.
  replace (e + k - e) with k by lia.
  destruct k as [|p|p]; try lia. cbn [shr].
  pose proof (shifted_iter (Zpos X) p 0 _ ltac:(lia) (shifted_start (Zpos X) ltac:(lia))) as Hsh.
  rewrite Z.add_0_l in Hsh.
  destruct (shifted_nearest _ _ _ Hk Hsh) as (H0 & Hi & Hii).
  set (mrs := iter_pos shr_1 p (shr_record_of_loc (Zpos X) loc_Exact)) in *.
  set (m2 := round_nearest_even (shr_m mrs) (loc_of_shr_record mrs)) in *.
  assert (Hup : m2 <= 2 ^ 53).
  { replace (2 ^ 53) with (2 ^ 53 + 1 - 1) by lia. apply Hii.
    assert (0 < 2 ^ Zpos p) by (apply Z.pow_pos_nonneg; lia). nia. }
  exists m2. split; [lia|]. split; [|split; assumption].
  destruct m2 as [|q|q] eqn:Em2; try lia.
  - cbn [Zdigits2].
    replace (fexp 53 1024 (0 + (e + Zpos p)) - (e + Zpos p)) with
      (Z.min 0 (fexp 53 1024 (0 + (e + Zpos p)) - (e + Zpos p)))
      by (unfold fexp, emin; lia).
    destruct (fexp 53 1024 (0 + (e + Zpos p)) - (e + Zpos p)) as [|t|t] eqn:Et;
      [reflexivity | exfalso; revert Et; unfold fexp, emin; lia | reflexivity].
  - cbn [Zdigits2].
    destruct (Z.ltb_spec (Zpos q) (2 ^ 53)) as [Hlt|Hge].
    + destruct (digits2_pos_bounds q) as [Ql Qu].
      set (dq := Zpos (digits2_pos q)) in *.
      assert (Hdq : dq <= 53).
      { destruct (Z.leb_spec dq 53) as [|Hgt]; [assumption|].
        assert (2 ^ 53 <= 2 ^ (dq - 1)) by (apply Z.pow_le_mono_r; lia). lia. }
      destruct (fexp 53 1024 (dq + (e + Zpos p)) - (e + Zpos p)) as [|t|t] eqn:Et;
        [ | exfalso; revert Et; unfold fexp, emin; lia | ];
        cbn [shr shr_record_of_loc shr_m];
        (replace (e + Zpos p <=? 1024 - 53) with true by (symmetry; apply Z.leb_le; lia));
        reflexivity.
    + assert (Hq : Zpos q = 2 ^ 53) by lia.
      rewrite (digits2_pos_unique q 54)
        by (change (54 - 1) with 53; rewrite Hq; change (2 ^ 54) with (2 * 2 ^ 53); lia).
      replace (fexp 53 1024 (54 + (e + Zpos p)) - (e + Zpos p)) with 1
        by (unfold fexp, emin; lia).
      cbn [shr shr_record_of_loc iter_pos]. rewrite shr_1_spec by lia.
      cbn [shr_m]. rewrite Hq. change (2 ^ 53 / 2) with (Zpos (2 ^ 52)%positive).
      reflexivity.
Qed.

Lemma canonical_digits (m : BinNums.positive) (e : Z) :
  canonical_mantissa 53 1024 m e = true ->
  Zpos m < 2 ^ 53 /\ -1074 <= e /\ (e = -1074 \/ 2 ^ 52 <= Zpos m).
Proof.
  unfold canonical_mantissa. intros H. apply Z.eqb_eq in H.
  destruct (digits2_pos_bounds m) as [Dl Du].
  set (d := Zpos (digits2_pos m)) in *.
  assert (Hd : d <= 53) by (revert H; unfold fexp, emin; lia).
  assert (2 ^ d <= 2 ^ 53) by (apply Z.pow_le_mono_r; lia).
  split; [lia|]. split; [revert H; unfold fexp, emin; lia|].
  destruct (Z.eq_dec e (-1074)) as [|Hne]; [now left|right].
  assert (d = 53) by (revert H; unfold fexp, emin; lia).
  subst d. rewrite H1 in Dl. exact Dl.
Qed.

End Nearest.

(* ================================================================== *)
(** ** Division by the literal 25.4 *)

Section Viewport25_4.

Lemma div_eucl_div_mod (a b : Z) : Z.div_eucl a b = (a / b, a mod b).
Proof. unfold Z.div, Z.modulo. now destruct (Z.div_eucl a b). Qed.

Lemma pow2_le_inv (a b : Z) : 0 <= b -> 2 ^ a <= 2 ^ b -> a <= b.
Proof.
  intros Hb H. destruct (Z.leb_spec a b) as [|Hlt]; [assumption|].
  assert (2 ^ b < 2 ^ a) by (apply Z.pow_lt_mono_r; lia). lia.
Qed.

(** [Math.floor] of a positive number with a negative exponent. *)
Lemma floor_between (m : BinNums.positive) (e n : Z) :
  e < 0 -> n * 2 ^ (- e) <= Zpos m < (n + 1) * 2 ^ (- e) ->
  JsNumber.floor (S754_finite false m e) = JsNumber.ofZ n.
Proof.
  intros He H. destruct e as [|p|p]; try lia.
  unfold JsNumber.floor. cbn [JsNumber.magnitude].
  change (- Zneg p) with (Zpos p) in H.
  rewrite Pos2Z.inj_pow. change (Zpos 2) with 2.
  assert (Hp : 0 < 2 ^ Zpos p) by (apply Z.pow_pos_nonneg; lia).
  replace (Zpos m / 2 ^ Zpos p) with n.
  - destruct n; reflexivity.
  - apply Z.div_unique with (Zpos m - n * 2 ^ Zpos p); lia.
Qed.

(** The quotient of a whole number by the literal [25.4], rounded down:
    [n], when the exact quotient by the binary64 value of the literal
    lies in [[n, n + 1 - 2^-8)] and [n] is below [2^46]. *)
Lemma floor_div_c25_4 (x : BinNums.positive) (n : Z) :
  0 <= n < 2 ^ 46 ->
  n * 7149464408450662 <= Zpos x * 2 ^ 48 ->
  Zpos x * 2 ^ 56 < (256 * (n + 1) - 1) * 7149464408450662 ->
  JsNumber.floor (JsNumber.div (JsNumber.ofZ (Zpos x)) c25_4) = JsNumber.ofZ n.
Proof.
  intros Hn Hlo Hhi.
  assert (E46 : 2 ^ 46 = 70368744177664) by reflexivity.
  assert (E48 : 2 ^ 48 = 281474976710656) by reflexivity.
  assert (E50 : 2 ^ 50 = 1125899906842624) by reflexivity.
  assert (E52 : 2 ^ 52 = 4503599627370496) by reflexivity.
  assert (E53 : 2 ^ 53 = 9007199254740992) by reflexivity.
  assert (E54 : 2 ^ 54 = 18014398509481984) by reflexivity.
  assert (E56 : 2 ^ 56 = 72057594037927936) by reflexivity.
  assert (Hx4 : 4 * Zpos x < 7149464408450662) by lia.
  assert (Hx : Zpos x < 2 ^ 53) by lia.
  destruct (ofZ_pos x Hx) as (mx & -> & Mx).
  destruct (padded_digits _ _ Hx Mx) as (Dx & Rmx & Dmx).
  destruct (digits2_pos_bounds x) as [Xl Xu].
  set (dx := Zpos (digits2_pos x)) in *.
  assert (Hdx : dx <= 51).
  { assert (E51 : 2 ^ 51 = 2251799813685248) by reflexivity.
    assert (2 ^ (dx - 1) <= 2 ^ 51) by lia.
    assert (dx - 1 <= 51) by (apply pow2_le_inv; lia).
    destruct (Z.eq_dec dx 52) as [Hd|]; [|lia].
    rewrite Hd in Xl. change (2 ^ (52 - 1)) with 2251799813685248 in Xl. lia. }
  change c25_4 with (S754_finite false 7149464408450662 (-48)).
  unfold JsNumber.div, SFdiv, SFdiv_core_binary. cbn [Zdigits2 xorb].
  rewrite Dmx. change (Zpos (digits2_pos 7149464408450662)) with 53.
  replace (Z.min (fexp JsNumber.prec JsNumber.emax (53 + (dx - 53) - (53 + -48)))
                 (dx - 53 - -48)) with (dx - 58)
    by (unfold fexp, emin, JsNumber.prec, JsNumber.emax; lia).
  replace (dx - 53 - -48 - (dx - 58)) with 53 by lia.
  rewrite Z.shiftl_mul_pow2 by lia. rewrite div_eucl_div_mod.
  destruct (div_round false (Zpos mx * 2 ^ 53) 7149464408450662 (dx - 58))
    as (m3 & e3 & k & m2 & Heq & Hk & Hk0 & He3 & Hval & Hi & Hii);
    try lia; [reflexivity|].
  unfold JsNumber.prec, JsNumber.emax. rewrite Heq.
  (* the scale of the mantissa *)
  assert (Hdk : dx + k <= 51).
  { destruct (Z.eq_dec k 0) as [->|Hk1]; [lia|].
    assert (HX : 2 ^ 53 * 7149464408450662 <= Zpos mx * 2 ^ 53)
      by (destruct (Z.leb_spec (2 ^ 53 * 7149464408450662) (Zpos mx * 2 ^ 53)); [assumption | lia]).
    assert (Hp : 4 < 2 ^ (53 - dx)) by nia.
    destruct (Z.leb_spec (53 - dx) 2) as [Hle|]; [|lia].
    assert (2 ^ (53 - dx) <= 2 ^ 2) by (apply Z.pow_le_mono_r; lia).
    change (2 ^ 2) with 4 in *. lia. }
  set (a := 58 - dx - k).
  set (j := e3 - (dx - 58 + k)) in *.
  assert (Ha : 7 <= a) by (unfold a; lia).
  assert (HA : 2 ^ 7 <= 2 ^ a) by (apply Z.pow_le_mono_r; lia).
  assert (Hpow : 2 ^ (53 - dx) * 2 ^ 53 = 2 ^ 48 * (2 ^ k * 2 ^ a)).
  { rewrite <- !Z.pow_add_r by lia. f_equal. unfold a. lia. }
  assert (Hsplit : 2 ^ a = 2 ^ (- e3) * 2 ^ j).
  { rewrite <- Z.pow_add_r by lia. f_equal. unfold a, j. lia. }
  assert (HK : 0 < 2 ^ k) by (apply Z.pow_pos_nonneg; lia).
  assert (HJ : 0 < 2 ^ j) by (apply Z.pow_pos_nonneg; lia).
  assert (HP : 0 < 2 ^ (- e3)) by (apply Z.pow_pos_nonneg; lia).
  apply floor_between; [lia|].
  assert (HX : Zpos mx * 2 ^ 53 = Zpos x * 2 ^ 48 * (2 ^ k * 2 ^ a)).
  { rewrite Mx.
    replace (Zpos x * 2 ^ (53 - dx) * 2 ^ 53)
      with (Zpos x * (2 ^ (53 - dx) * 2 ^ 53)) by ring.
    rewrite Hpow. ring. }
  assert (Hlow : n * 2 ^ a <= m2).
  { apply Hi. rewrite HX.
    replace (n * 2 ^ a * (2 ^ k * 7149464408450662)) with (n * 7149464408450662 * (2 ^ k * 2 ^ a)) by ring.
    apply Z.mul_le_mono_nonneg_r; [nia | exact Hlo]. }
  assert (Hupp : m2 <= (n + 1) * 2 ^ a - 1).
  { apply Hii. rewrite HX.
    assert (Hgap : 7149464408450662 < 256 * ((n + 1) * 7149464408450662 - Zpos x * 2 ^ 48)) by lia.
    assert (Hg : 0 < (n + 1) * 7149464408450662 - Zpos x * 2 ^ 48) by lia.
    assert (H2a : 256 <= 2 * 2 ^ a) by (change (2 ^ 7) with 128 in HA; lia).
    assert (7149464408450662 < 2 * 2 ^ a * ((n + 1) * 7149464408450662 - Zpos x * 2 ^ 48)) by nia.
    nia. }
  rewrite Hsplit in Hlow, Hupp. rewrite <- Hval in Hlow, Hupp.
  fold j in Hlow, Hupp.
  split; nia.
Qed.

End Viewport25_4.

(* ================================================================== *)
(** ** Millimetres that are not whole *)

Section ViewportFraction.

(** The product of a normal binary64 number and [96]: the mantissa [m2]
    of the result is the nearest to the exact product. *)
Lemma mul_c96_nearest (s : bool) (m : BinNums.positive) (e : Z) :
  bounded 53 1024 m e = true -> 2 ^ 52 <= Zpos m -> e <= 900 ->
  exists k m2 : Z,
    52 <= k <= 53
    /\ 2 ^ k * 2 ^ 52 <= Zpos m * 6755399441055744
    /\ 2 ^ 52 <= m2 <= 2 ^ 53
    /\ JsNumber.mul (S754_finite s m e) c96
       = (if m2 <? 2 ^ 53 then S754_finite s (Z.to_pos m2) (e - 46 + k)
          else S754_finite s (2 ^ 52)%positive (e - 46 + k + 1))
    /\ (forall N, N * 2 ^ k <= Zpos m * 6755399441055744 -> N <= m2)
    /\ (forall N, 2 * (Zpos m * 6755399441055744) < (2 * N - 1) * 2 ^ k -> m2 <= N - 1).
Proof.
  intros Hb Hn He. unfold bounded in Hb. apply andb_true_iff in Hb as [Hcan Hle].
  destruct (canonical_digits _ _ Hcan) as (Hm & Hmin & _).
  destruct (digits2_pos_bounds (m * 6755399441055744)) as [Dl Du].
  rewrite Pos2Z.inj_mul in Dl, Du.
  set (d := Zpos (digits2_pos (m * 6755399441055744))) in *.
  assert (E52 : 2 ^ 52 = 4503599627370496) by reflexivity.
  assert (E53 : 2 ^ 53 = 9007199254740992) by reflexivity.
  assert (Hd : 105 <= d <= 106).
  { split.
    - destruct (Z.leb_spec 105 d) as [|Hlt]; [assumption|].
      assert (2 ^ d <= 2 ^ 104) by (apply Z.pow_le_mono_r; lia).
      change (2 ^ 104) with (2 ^ 52 * 2 ^ 52) in *. nia.
    - destruct (Z.leb_spec d 106) as [|Hgt]; [assumption|].
      assert (2 ^ 106 <= 2 ^ (d - 1)) by (apply Z.pow_le_mono_r; lia).
      change (2 ^ 106) with (2 ^ 53 * 2 ^ 53) in *. nia. }
  destruct (round_aux_nearest s (m * 6755399441055744) (e - 46) (d - 53))
    as (m2 & Hm2 & Heq & Hi & Hii).
  - lia.
  - fold d. unfold fexp, emin. lia.
  - lia.
  - rewrite Pos2Z.inj_mul in Hi, Hii.
    assert (HkX : 2 ^ (d - 53) * 2 ^ 52 <= Zpos m * 6755399441055744).
    { rewrite <- Z.pow_add_r by lia. replace (d - 53 + 52) with (d - 1) by lia. exact Dl. }
    assert (Hlow : 2 ^ 52 <= m2).
    { apply Hi. rewrite Z.mul_comm. exact HkX. }
    exists (d - 53), m2. split; [lia|]. split; [exact HkX|]. split; [lia|].
    split; [|split; assumption].
    change (JsNumber.mul (S754_finite s m e) c96)
      with (binary_round_aux 53 1024 (xorb s false)
              (Zpos (m * 6755399441055744)) (e + -46) loc_Exact).
    rewrite xorb_false_r.
    replace (e + -46) with (e - 46) by lia. rewrite Heq.
    destruct m2 as [|q|q]; try lia.
    destruct (Z.ltb_spec (Zpos q) (2 ^ 53)) as [Hlt|Hge]; [reflexivity|].
    replace (e - 46 + (d - 53) + 1 <=? 971) with true
      by (symmetry; apply Z.leb_le; lia).
    reflexivity.
Qed.

(** The quotient of a normal binary64 number by the literal [25.4]. *)
Lemma div_c25_4_normal (s : bool) (mp : BinNums.positive) (ep : Z) :
  2 ^ 52 <= Zpos mp < 2 ^ 53 -> -1069 <= ep <= 960 ->
  exists (m3 : BinNums.positive) (e3 k m2 : Z),
    JsNumber.div (S754_finite s mp ep) c25_4 = S754_finite s m3 e3
    /\ 0 <= k <= 1
    /\ 2 ^ k * 2 ^ 52 * 7149464408450662 <= Zpos mp * 2 ^ 53
    /\ ep - 5 + k <= e3 <= ep - 5 + k + 1
    /\ Zpos m3 * 2 ^ (e3 - (ep - 5 + k)) = m2
    /\ (forall N, N * (2 ^ k * 7149464408450662) <= Zpos mp * 2 ^ 53 -> N <= m2)
    /\ (forall N, 2 * (Zpos mp * 2 ^ 53) < (2 * N - 1) * (2 ^ k * 7149464408450662)
                  -> m2 <= N - 1).
Proof.
  intros Hmp Hep.
  assert (E52 : 2 ^ 52 = 4503599627370496) by reflexivity.
  assert (E53 : 2 ^ 53 = 9007199254740992) by reflexivity.
  assert (E54 : 2 ^ 54 = 18014398509481984) by reflexivity.
  assert (Dmp : Zpos (digits2_pos mp) = 53)
    by (apply digits2_pos_unique; change (53 - 1) with 52; lia).
  change c25_4 with (S754_finite false 7149464408450662 (-48)).
  unfold JsNumber.div, SFdiv, SFdiv_core_binary. cbn [Zdigits2].
  rewrite xorb_false_r, Dmp. change (Zpos (digits2_pos 7149464408450662)) with 53.
  replace (Z.min (fexp JsNumber.prec JsNumber.emax (53 + ep - (53 + -48)))
                 (ep - -48)) with (ep - 5)
    by (unfold fexp, emin, JsNumber.prec, JsNumber.emax; lia).
  replace (ep - -48 - (ep - 5)) with 53 by lia.
  rewrite Z.shiftl_mul_pow2 by lia. rewrite div_eucl_div_mod.
  destruct (div_round s (Zpos mp * 2 ^ 53) 7149464408450662 (ep - 5))
    as (m3 & e3 & k & m2 & Heq & Hk & Hk0 & He3 & Hval & Hi & Hii);
    try lia; [reflexivity|].
  unfold JsNumber.prec, JsNumber.emax. rewrite Heq.
  exists m3, e3, k, m2. split; [reflexivity|]. split; [exact Hk|].
  split; [|repeat split; try lia; assumption].
  destruct (Z.eq_dec k 0) as [->|Hk1].
  - change (2 ^ 0) with 1. lia.
  - replace k with 1 in * by lia. change (2 ^ 1) with 2.
    destruct (Z.ltb_spec (Zpos mp * 2 ^ 53) (2 ^ 53 * 7149464408450662)) as [Hlt|Hge];
      [specialize (Hk0 Hlt); lia | lia].
Qed.

(** The binary64 quotient of a number of millimetres of either sign
    whose exact quotient stays clear of the whole numbers around it: it
    lies strictly between the same whole numbers. *)
Lemma viewport_quotient (s : bool) (m : BinNums.positive) (e n : Z) :
  bounded 53 1024 m e = true -> 0 <= n < 2 ^ 46 ->
  quotientClear (S754_finite false m e) n = true ->
  exists (m3 : BinNums.positive) (e3 : Z),
    JsNumber.div (JsNumber.mul (S754_finite s m e) c96) c25_4 = S754_finite s m3 e3
    /\ e3 < 0
    /\ n * 2 ^ (- e3) < Zpos m3 < (n + 1) * 2 ^ (- e3).
Proof.
  intros Hx Hn H.
  pose proof Hx as Hx'. unfold bounded in Hx'.
  apply andb_true_iff in Hx' as [Hcan _].
  destruct (canonical_digits _ _ Hcan) as (Hm & Hmin & _).
  assert (E46 : 2 ^ 46 = 70368744177664) by reflexivity.
  assert (E50 : 2 ^ 50 = 1125899906842624) by reflexivity.
  assert (E51 : 2 ^ 51 = 2251799813685248) by reflexivity.
  assert (E52 : 2 ^ 52 = 4503599627370496) by reflexivity.
  assert (E53 : 2 ^ 53 = 9007199254740992) by reflexivity.
  assert (E54 : 2 ^ 54 = 18014398509481984) by reflexivity.
  unfold quotientClear, JsNumber.magnitude in H.
  (* the number of millimetres is m / B with B = 2^pe, and pe is 8 or more *)
  destruct e as [|pe|pe].
  { exfalso. apply andb_true_iff in H as [H HU]. apply andb_true_iff in H as [HN _].
    apply Z.leb_le in HN, HU. change (2 ^ 0) with 1 in HU. nia. }
  { exfalso. apply andb_true_iff in H as [H HU]. apply andb_true_iff in H as [HN _].
    apply Z.leb_le in HN, HU.
    assert (0 < 2 ^ Zpos pe) by (apply Z.pow_pos_nonneg; lia). nia. }
  apply andb_true_iff in H as [H HU]. apply andb_true_iff in H as [HN HL].
  apply Z.leb_le in HN, HL, HU.
  rewrite Pos2Z.inj_pow in HL, HU. change (Zpos 2) with 2 in HL, HU.
  set (B := 2 ^ Zpos pe) in *.
  assert (HB : 0 < B) by (apply Z.pow_pos_nonneg; lia).
  assert (Hpe : 8 <= Zpos pe).
  { destruct (Z.leb_spec 8 (Zpos pe)) as [|Hlt]; [assumption|exfalso].
    assert (B <= 2 ^ 7) by (apply Z.pow_le_mono_r; lia).
    change (2 ^ 7) with 128 in *. nia. }
  (* the product *)
  destruct (mul_c96_nearest s m (Zneg pe) Hx HN ltac:(lia))
    as (k1 & m2p & Hk1 & HK & Hm2p & Hmul & Hi1 & Hii1).
  set (X1 := Zpos m * 6755399441055744) in *.
  set (K := 2 ^ k1) in *.
  assert (HKpos : 0 < K) by (apply Z.pow_pos_nonneg; lia).
  pose proof (Z.div_mod X1 K ltac:(lia)) as Hdm.
  pose proof (Z.mod_pos_bound X1 K HKpos) as Hr.
  set (N0 := X1 / K) in *. set (r := X1 mod K) in *.
  assert (Hp1 : N0 <= m2p) by (apply Hi1; lia).
  assert (Hp2 : m2p <= N0 + 1).
  { replace (N0 + 1) with (N0 + 2 - 1) by lia. apply Hii1. nia. }
  assert (Hp : exists (mp : BinNums.positive) (j : Z),
             0 <= j <= 1 /\ Zpos mp * 2 ^ j = m2p /\ 2 ^ 52 <= Zpos mp < 2 ^ 53
             /\ JsNumber.mul (S754_finite s m (Zneg pe)) c96
                = S754_finite s mp (Zneg pe - 46 + k1 + j)).
  { destruct (Z.ltb_spec m2p (2 ^ 53)) as [Hlt|Hge].
    - exists (Z.to_pos m2p), 0. rewrite Z2Pos.id by lia. change (2 ^ 0) with 1.
      rewrite Z.add_0_r. repeat split; try lia. exact Hmul.
    - exists (2 ^ 52)%positive, 1. change (Zpos (2 ^ 52)) with (2 ^ 52).
      change (2 ^ 1) with 2. repeat split; try lia. exact Hmul. }
  destruct Hp as (mp & j & Hj & Hmp & Rmp & Ep).
  rewrite Ep.
  set (ep := Zneg pe - 46 + k1 + j) in *.
  assert (Hep : -1069 <= ep <= 0) by (unfold ep; lia).
  (* the quotient *)
  destruct (div_c25_4_normal s mp ep Rmp ltac:(lia))
    as (m3 & e3 & k2 & m2q & Hdiv & Hk2 & HQ & He3 & Hval & Hi2 & Hii2).
  exists m3, e3. split; [exact Hdiv|]. split; [lia|].
  set (J := 2 ^ j) in *.
  assert (HJ : 1 <= J <= 2).
  { unfold J. destruct (Z.eq_dec j 0) as [->|]; [change (2 ^ 0) with 1; lia|].
    replace j with 1 by lia. change (2 ^ 1) with 2. lia. }
  set (T := 2 ^ (5 - ep)).
  assert (HT : 0 < T) by (apply Z.pow_pos_nonneg; lia).
  assert (HTJK : T * (J * K) = 2 ^ 51 * B).
  { unfold T, J, K, B. rewrite <- !Z.pow_add_r by lia. f_equal. unfold ep. lia. }
  set (a2 := 5 - ep - k2).
  assert (Ha2 : 4 <= a2) by (unfold a2; lia).
  assert (HA : 0 < 2 ^ a2) by (apply Z.pow_pos_nonneg; lia).
  assert (HK2 : 1 <= 2 ^ k2 <= 2).
  { destruct (Z.eq_dec k2 0) as [->|]; [change (2 ^ 0) with 1; lia|].
    replace k2 with 1 by lia. change (2 ^ 1) with 2. lia. }
  assert (HTa : 2 ^ a2 * 2 ^ k2 = T).
  { unfold T. rewrite <- Z.pow_add_r by lia. f_equal. unfold a2. lia. }
  set (M := 7149464408450662) in *.
  (* the exact bounds, in terms of the product *)
  assert (S1 : n * B * (M * 2 ^ 51) <= (X1 - K) * (2 ^ 53 - 2)).
  { unfold X1, M. rewrite E50 in HL, HU. rewrite E51, E52, E53 in *. nia. }
  assert (S2 : (X1 + K) * (2 ^ 54 + 2) < 2 * ((n + 1) * B) * (M * 2 ^ 51)).
  { unfold X1, M. rewrite E50 in HL, HU. rewrite E51, E52, E54 in *. nia. }
  assert (HQ' : 2 ^ k2 * M <= 2 * Zpos mp) by (rewrite E52, E53 in HQ; nia).
  assert (Hlow : n * 2 ^ a2 + 1 <= m2q).
  { apply Hi2.
    replace ((n * 2 ^ a2 + 1) * (2 ^ k2 * M))
      with (n * M * (2 ^ a2 * 2 ^ k2) + 2 ^ k2 * M) by ring.
    rewrite HTa.
    assert (n * M * T <= Zpos mp * (2 ^ 53 - 2)); [|lia].
    apply (Zmult_le_reg_r _ _ (J * K)); [nia|].
    replace (n * M * T * (J * K)) with (n * M * (T * (J * K))) by ring.
    rewrite HTJK.
    replace (Zpos mp * (2 ^ 53 - 2) * (J * K))
      with (Zpos mp * J * K * (2 ^ 53 - 2)) by ring.
    rewrite Hmp.
    assert ((X1 - K) * (2 ^ 53 - 2) <= m2p * K * (2 ^ 53 - 2)) by nia.
    replace (n * M * (2 ^ 51 * B)) with (n * B * (M * 2 ^ 51)) by ring. lia. }
  assert (Hupp : m2q <= (n + 1) * 2 ^ a2 - 1).
  { apply Hii2.
    replace ((2 * ((n + 1) * 2 ^ a2) - 1) * (2 ^ k2 * M))
      with (2 * (n + 1) * M * (2 ^ a2 * 2 ^ k2) - 2 ^ k2 * M) by ring.
    rewrite HTa.
    assert (Zpos mp * (2 ^ 54 + 2) < 2 * (n + 1) * M * T); [|lia].
    apply (Zmult_lt_reg_r _ _ (J * K)); [nia|].
    replace (Zpos mp * (2 ^ 54 + 2) * (J * K))
      with (Zpos mp * J * K * (2 ^ 54 + 2)) by ring.
    rewrite Hmp.
    replace (2 * (n + 1) * M * T * (J * K))
      with (2 * (n + 1) * M * (T * (J * K))) by ring.
    rewrite HTJK.
    assert (m2p * K * (2 ^ 54 + 2) <= (X1 + K) * (2 ^ 54 + 2)) by nia.
    replace (2 * (n + 1) * M * (2 ^ 51 * B))
      with (2 * ((n + 1) * B) * (M * 2 ^ 51)) by ring. lia. }
  (* the floor *)
  set (j3 := e3 - (ep - 5 + k2)) in *.
  assert (Hsplit : 2 ^ a2 = 2 ^ (- e3) * 2 ^ j3).
  { rewrite <- Z.pow_add_r by lia. f_equal. unfold a2, j3. lia. }
  assert (HJ3 : 0 < 2 ^ j3) by (apply Z.pow_pos_nonneg; lia).
  assert (HP3 : 0 < 2 ^ (- e3)) by (apply Z.pow_pos_nonneg; lia).
  rewrite Hsplit in Hlow, Hupp. rewrite <- Hval in Hlow, Hupp.
  fold j3 in Hlow, Hupp.
  assert (Hj3 : 1 <= 2 ^ j3 <= 2).
  { destruct (Z.eq_dec j3 0) as [->|]; [change (2 ^ 0) with 1; lia|].
    replace j3 with 1 by lia. change (2 ^ 1) with 2. lia. }
  generalize dependent (2 ^ j3). generalize dependent (2 ^ (- e3)).
  clear. intros P HP Q3 Hlow Hupp HQ3 Hj3. split; nia.
Qed.

(** [Math.floor] of a negative number with a negative exponent. *)
Lemma floor_between_neg (m : BinNums.positive) (e n : Z) :
  e < 0 -> (n - 1) * 2 ^ (- e) < Zpos m <= n * 2 ^ (- e) ->
  JsNumber.floor (S754_finite true m e) = JsNumber.ofZ (- n).
Proof.
  intros He H. destruct e as [|p|p]; try lia.
  unfold JsNumber.floor. cbn [JsNumber.magnitude].
  change (- Zneg p) with (Zpos p) in H.
  rewrite Pos2Z.inj_pow. change (Zpos 2) with 2.
  assert (Hp : 0 < 2 ^ Zpos p) by (apply Z.pow_pos_nonneg; lia).
  replace ((Zpos m + 2 ^ Zpos p - 1) / 2 ^ Zpos p) with n.
  - assert (0 < n) by nia. destruct n; try lia. reflexivity.
  - apply Z.div_unique with (Zpos m + 2 ^ Zpos p - 1 - n * 2 ^ Zpos p); lia.
Qed.

(** A number of millimetres that need not be whole: the pixel count is
    the floor of the exact quotient, as long as the quotient stays clear
    of the whole numbers around it. *)
Lemma viewport_fraction (x : JsNumber.number) (n : Z) :
  valid_binary 53 1024 x = true -> 0 <= n < 2 ^ 46 ->
  quotientClear x n = true ->
  mmToPixels x = JsNumber.ofZ n.
Proof.
  intros Hx Hn H.
  destruct x as [| | |[|] m e]; try discriminate H.
  destruct (viewport_quotient false m e n Hx Hn H) as (m3 & e3 & Hq & He3 & Hm3).
  unfold mmToPixels. rewrite Hq. apply floor_between; [exact He3 | lia].
Qed.

(** The same number of millimetres, negated: the pixel count is the
    floor of the exact quotient, which is now negative. *)
Lemma viewport_fraction_neg (m : BinNums.positive) (e n : Z) :
  bounded 53 1024 m e = true -> 0 <= n < 2 ^ 46 ->
  quotientClear (S754_finite false m e) n = true ->
  mmToPixels (S754_finite true m e) = JsNumber.ofZ (- (n + 1)).
Proof.
  intros Hx Hn H.
  destruct (viewport_quotient true m e n Hx Hn H) as (m3 & e3 & Hq & He3 & Hm3).
  unfold mmToPixels. rewrite Hq. apply floor_between_neg; [exact He3|].
  replace (n + 1 - 1) with n by lia. lia.
Qed.

End ViewportFraction.

(* ================================================================== *)
(** ** Viewport size *)

Section Viewport.

Lemma same_eq (x y : JsNumber.number) : JsNumber.same x y = true -> x = y.
Proof.
  destruct x as [a|a| |a m e], y as [b|b| |b m' e']; simpl; try discriminate;
    try reflexivity.
  - intros H. apply Bool.eqb_prop in H. now subst.
  - intros H. apply Bool.eqb_prop in H. now subst.
  - intros H. apply andb_true_iff in H as [H He].
    apply andb_true_iff in H as [Hs Hm].
    apply Bool.eqb_prop in Hs. apply Pos.eqb_eq in Hm. apply Z.eqb_eq in He.
    now subst.
Qed.

Lemma allFrom_spec (count : nat) (z0 : Z) (f : Z -> bool) :
  allFrom count z0 f = true ->
  forall z, z0 <= z < z0 + Z.of_nat count -> f z = true.
Proof.
  revert z0; induction count as [|k IH]; intros z0 H z Hz; [lia|].
  cbn [allFrom] in H. apply andb_true_iff in H as [Hn Hk].
  destruct (Z.eq_dec z z0) as [->|Hne]; [exact Hn|].
  apply (IH (z0 + 1)); [exact Hk | lia].
Qed.

(** Whole millimetres whose pixel count is below [2^46]. *)
Lemma viewport_whole (mm : Z) :
  1 <= mm <= 18618396897006 ->
  mmToPixels (JsNumber.ofZ mm) = JsNumber.ofZ (mmToPixels_spec mm).
Proof.
  intros Hmm. destruct mm as [|a|a]; try lia.
  unfold mmToPixels. change c96 with (JsNumber.ofZ 96).
  assert (E53 : 2 ^ 53 = 9007199254740992) by reflexivity.
  rewrite (mul_ofZ a 96) by lia.
  unfold mmToPixels_spec.
  pose proof (Z.div_mod (Zpos a * 96 * 10) 254 ltac:(lia)) as Hdm.
  pose proof (Z.mod_pos_bound (Zpos a * 96 * 10) 254 ltac:(lia)) as Hr.
  set (n := Zpos a * 96 * 10 / 254) in *.
  set (r := (Zpos a * 96 * 10) mod 254) in *.
  assert (Hr2 : r <= 252).
  { assert (Z.even r = true); [|destruct (Z.eq_dec r 253) as [->|]; [discriminate|lia]].
    replace r with (Zpos a * 96 * 10 - 254 * n) by lia.
    replace (Zpos a * 96 * 10 - 254 * n) with (2 * (Zpos a * 480 - 127 * n)) by ring.
    apply Z.even_mul. }
  assert (E46 : 2 ^ 46 = 70368744177664) by reflexivity.
  assert (E48 : 2 ^ 48 = 281474976710656) by reflexivity.
  assert (E56 : 2 ^ 56 = 72057594037927936) by reflexivity.
  change (Zpos a * 96) with (Zpos (a * 96)).
  apply floor_div_c25_4; rewrite ?Pos2Z.inj_mul; lia.
Qed.

Lemma viewport_top : allFrom 42 18618396897007 viewportAgrees = true.
Proof. vm_compute. reflexivity. Qed.

Lemma viewport_bottom : allFrom 2159 (-2158) viewportAgrees = true.
Proof. vm_compute. reflexivity. Qed.

Lemma viewport_all (mm : Z) :
  -2159 < mm < 18618396897049 ->
  mmToPixels (JsNumber.ofZ mm) = JsNumber.ofZ (mmToPixels_spec mm).
Proof.
  intros Hmm.
  destruct (Z.leb_spec mm 0) as [Hneg|Hpos].
  - apply same_eq. apply (allFrom_spec _ _ _ viewport_bottom). lia.
  - destruct (Z.leb_spec mm 18618396897006) as [Hlow|Hhigh].
    + apply viewport_whole. lia.
    + apply same_eq. apply (allFrom_spec _ _ _ viewport_top). lia.
Qed.

End Viewport.


(* ================================================================== *)
(** ** The viewport and the output path: the properties *)

(** C8 (as amended).  The viewport pixel count [mmToPixels], computed in
    binary64 arithmetic, is the floor of the exact quotient
    [mm * 96 / 25.4] for every whole number of millimetres above -2159
    and below 18618396897049, and for every normal binary64 number of
    millimetres, of either sign, whose exact quotient stays clear of the
    whole numbers around it: in absolute value it lies between
    [n * (1 + 2^-50)] and [(n + 1) * (1 - 2^-50)] for a whole [n] below
    [2^46].  The A4 sides 210 and 297 give 793 and 1122 pixels. *)
Theorem C8_viewport_pixels :
  (forall mm : Z, -2159 < mm < 18618396897049 ->
     mmToPixels (JsNumber.ofZ mm) = JsNumber.ofZ (mmToPixels_spec mm))
  /\ mmToPixels c210 = JsNumber.ofZ 793
  /\ mmToPixels c297 = JsNumber.ofZ 1122
  /\ (forall (x : JsNumber.number) (n : Z),
        valid_binary JsNumber.prec JsNumber.emax x = true ->
        0 <= n < 2 ^ 46 -> quotientClear x n = true ->
        mmToPixels x = JsNumber.ofZ n)
  /\ (forall (m : BinNums.positive) (e n : Z),
        bounded JsNumber.prec JsNumber.emax m e = true ->
        0 <= n < 2 ^ 46 -> quotientClear (S754_finite false m e) n = true ->
        mmToPixels (S754_finite true m e) = JsNumber.ofZ (- (n + 1))).
Proof.
  split; [exact viewport_all|]. split; [reflexivity|]. split; [reflexivity|].
  split; [exact viewport_fraction | exact viewport_fraction_neg].
Qed.

Lemma C8_viewport_pixels_witness :
  mmToPixels (JsNumber.ofZ 210) = JsNumber.ofZ (mmToPixels_spec 210)
  /\ mmToPixels (JsNumber.ofZ 18618396897048) = JsNumber.ofZ 70368744177819
  /\ mmToPixels (JsNumber.parseFloat "0.5") = JsNumber.ofZ 1
  /\ mmToPixels (JsNumber.parseFloat "-0.5") = JsNumber.ofZ (- (1 + 1)).
Proof.
  destruct C8_viewport_pixels as (Hwhole & _ & _ & Hpos & Hneg).
  split; [apply (Hwhole 210); lia|].
  split; [apply (Hwhole 18618396897048); lia|].
  split.
  - apply Hpos; [vm_compute; reflexivity | lia | vm_compute; reflexivity].
  - apply (Hneg 4503599627370496%positive (-53) 1);
      [vm_compute; reflexivity | lia | vm_compute; reflexivity].
Defined.

(** C8 fails as stated: for 18618396897049 millimetres the pixel count
    is one above the floor of the exact quotient, for -2159 millimetres
    one below it, and for 1.3229166666666665 millimetres, whose exact
    quotient is below 5, it is 5. *)
Lemma C8_counterexample :
  mmToPixels (JsNumber.ofZ 18618396897049) = JsNumber.ofZ 70368744177823
  /\ mmToPixels_spec 18618396897049 = 70368744177822
  /\ mmToPixels (JsNumber.ofZ (-2159)) = JsNumber.ofZ (-8161)
  /\ mmToPixels_spec (-2159) = -8160
  /\ hasValue (JsNumber.parseFloat "1.3229166666666665")
       2978943503521109 2251799813685248 = true
  /\ mmToPixels (JsNumber.parseFloat "1.3229166666666665") = JsNumber.ofZ 5
  /\ mmToPixels_exact 2978943503521109 2251799813685248 = 4.
Proof.
  repeat split; vm_compute; reflexivity.
Qed.

(** C9.  The output path is a function of the input path alone: an
    input path [stem.md] gives [stem.pdf], the output path has the
    directory of the input path, and a conversion that ends normally has
    asked for the PDF at that path. *)
Theorem C9_output_path (E : env) (inputPath : string) (o : Main.options) :
  (forall stem, inputPath = stem ++ ".md" -> outputPath inputPath = stem ++ ".pdf")
  /\ Path.dirname (outputPath inputPath) = Path.dirname inputPath
  /\ (fst (Main.convertMarkdownToPdf E inputPath o) = Done tt ->
      In (Browser (pdfCall (outputPath inputPath) (Main.optMargins o)))
         (snd (Main.convertMarkdownToPdf E inputPath o))).
Proof.
  split; [|split].
  - intros stem ->. apply outputPath_md.
  - unfold outputPath.
    destruct (JsString.stripSuffix inputPath ".md") as [stem|] eqn:H;
      [|reflexivity].
    apply stripSuffix_sound in H. subst inputPath. apply dirname_md_pdf.
  - apply main_done_writes.
Qed.

Lemma C9_output_path_witness :
  let o := Main.parseOptions (Sample.invocation None None None "docs/doc.md") in
  outputPath "docs/doc.md" = "docs/doc.pdf"
  /\ Path.dirname (outputPath "docs/doc.md") = "docs"
  /\ In (Browser (Pdf "docs/doc.pdf" "25.4mm" "25.4mm" "25.4mm" "25.4mm"))
        (snd (Main.convertMarkdownToPdf (Sample.machine Sample.heading)
                "docs/doc.md" o)).
Proof.
  intros o.
  destruct (C9_output_path (Sample.machine Sample.heading) "docs/doc.md" o)
    as (Hstem & Hdir & Hpdf).
  split; [|split].
  - apply (Hstem "docs/doc"). reflexivity.
  - rewrite Hdir. reflexivity.
  - apply Hpdf. vm_compute. reflexivity.
Defined.

(** C10.  An input path that does not end in [.md] is its own output
    path, so that a conversion that ends normally has asked for the PDF
    at the path of the input file, in [src/index.js] and in the legacy
    script alike; the output path differs from the input path exactly
    when the input path ends in [.md]. *)
Theorem C10_other_extension_overwrites (E : env) (inputPath : string)
    (o : Main.options) (scale fontSize : JsNumber.number) (m : margins) :
  (JsString.endsWith inputPath ".md" = false ->
     outputPath inputPath = inputPath
     /\ (fst (Main.convertMarkdownToPdf E inputPath o) = Done tt ->
         In (Browser (pdfCall inputPath (Main.optMargins o)))
            (snd (Main.convertMarkdownToPdf E inputPath o)))
     /\ (fst (Legacy.convertMarkdownToPdf E inputPath scale fontSize m) = Done tt ->
         In (Browser (pdfCall inputPath m))
            (snd (Legacy.convertMarkdownToPdf E inputPath scale fontSize m))))
  /\ (JsString.endsWith inputPath ".md" = true -> outputPath inputPath <> inputPath).
Proof.
  split.
  - intros H. pose proof (outputPath_other _ H) as Hout. split; [exact Hout|].
    split; intros Hd.
    + rewrite <- Hout at 1. now apply main_done_writes.
    + rewrite <- Hout at 1. now apply legacy_done_writes.
  - apply outputPath_changes.
Qed.

Lemma C10_other_extension_overwrites_witness :
  let o := Main.parseOptions (Sample.invocation None None None "notes.txt") in
  JsString.endsWith "notes.txt" ".md" = false
  /\ outputPath "notes.txt" = "notes.txt"
  /\ In (Browser (Pdf "notes.txt" "25.4mm" "25.4mm" "25.4mm" "25.4mm"))
        (snd (Main.convertMarkdownToPdf (Sample.machine Sample.heading)
                "notes.txt" o)).
Proof.
  intros o.
  destruct (C10_other_extension_overwrites (Sample.machine Sample.heading)
              "notes.txt" o c1 c16 (Main.uniform c25_4)) as [Hother _].
  destruct (Hother eq_refl) as (Hout & Hmain & _).
  split; [reflexivity|]. split; [exact Hout|].
  apply Hmain. vm_compute. reflexivity.
Defined.

(* ================================================================== *)
(** ** Multiples of the font size *)

Section Multiples.

(** Multiplying by a constant whose binary64 value is the fraction
    [num / den] itself gives the exact multiple, whenever that multiple
    is a binary64 number. *)
Lemma times_exact (num den : Z) (mb : BinNums.positive) (eb : Z)
    (F G : JsNumber.number) :
  0 < den -> 0 < num -> eb <= 0 -> 2 ^ 52 <= Zpos mb ->
  den * Zpos mb = num * 2 ^ (- eb) ->
  timesExactly num den F G = true ->
  JsNumber.mul F (S754_finite false mb eb) = G.
Proof.
  intros Hden Hnum Heb Hmb Hc H.
  destruct F as [| | |[|] m e]; try discriminate H.
  destruct G as [| | |[|] m' e']; try discriminate H.
  cbn [timesExactly] in H. apply andb_true_iff in H as [Hb Hv].
  apply Z.eqb_eq in Hv. unfold bounded in Hb.
  apply andb_true_iff in Hb as [Hcan Hle]. apply Z.leb_le in Hle.
  unfold JsNumber.prec, JsNumber.emax in *.
  destruct (canonical_digits _ _ Hcan) as (Hm' & _ & _).
  assert (Hpb : 0 < 2 ^ (- eb)) by (apply Z.pow_pos_nonneg; lia).
  assert (He : e + eb <= e').
  { destruct (Z.leb_spec (e + eb) e') as [|Hlt]; [assumption|exfalso].
    rewrite Z.min_r in Hv by lia. rewrite Z.sub_diag in Hv.
    change (2 ^ 0) with 1 in Hv. rewrite Z.mul_1_r in Hv.
    replace (e - e') with (- eb + (e - e' + eb)) in Hv by lia.
    rewrite Z.pow_add_r in Hv by lia.
    assert (Ht : 2 ^ 1 <= 2 ^ (e - e' + eb)) by (apply Z.pow_le_mono_r; lia).
    change (2 ^ 1) with 2 in Ht.
    set (T := 2 ^ (e - e' + eb)) in *. set (B := 2 ^ (- eb)) in *.
    assert (den * Zpos m' = den * (Zpos mb * Zpos m * T)) by nia.
    assert (Zpos m' = Zpos mb * Zpos m * T) by nia.
    assert (E53 : 2 ^ 53 = 2 * 2 ^ 52) by reflexivity.
    nia. }
  apply mul_exact; try assumption.
  apply (Z.mul_reg_l _ _ den); [lia|].
  destruct (Z.leb_spec e e') as [Hee|Hee].
  - rewrite Z.min_l in Hv by lia. rewrite Z.sub_diag in Hv.
    change (2 ^ 0) with 1 in Hv. rewrite Z.mul_1_r in Hv.
    replace (e' - e - eb) with ((e' - e) + - eb) by lia.
    rewrite Z.pow_add_r by lia.
    set (T := 2 ^ (e' - e)) in *. set (B := 2 ^ (- eb)) in *.
    replace (den * (Zpos m * Zpos mb)) with (Zpos m * (den * Zpos mb)) by ring.
    rewrite Hc.
    replace (den * (Zpos m' * (T * B))) with (den * (Zpos m' * T) * B) by ring.
    rewrite Hv. ring.
  - rewrite Z.min_r in Hv by lia. rewrite Z.sub_diag in Hv.
    change (2 ^ 0) with 1 in Hv. rewrite Z.mul_1_r in Hv.
    assert (EB : 2 ^ (- eb) = 2 ^ (e' - e - eb) * 2 ^ (e - e')).
    { rewrite <- Z.pow_add_r by lia. f_equal. lia. }
    set (T := 2 ^ (e - e')) in *. set (B := 2 ^ (- eb)) in *.
    set (U := 2 ^ (e' - e - eb)) in *.
    replace (den * (Zpos m * Zpos mb)) with (Zpos m * (den * Zpos mb)) by ring.
    rewrite Hc, EB.
    replace (den * (Zpos m' * U)) with (den * Zpos m' * U) by ring.
    rewrite Hv. ring.
Qed.

Lemma times_2 (F G : JsNumber.number) :
  timesExactly 2 1 F G = true -> JsNumber.mul F c2 = G.
Proof. apply times_exact; try lia; reflexivity. Qed.

Lemma times_1_5 (F G : JsNumber.number) :
  timesExactly 3 2 F G = true -> JsNumber.mul F c1_5 = G.
Proof. apply times_exact; try lia; reflexivity. Qed.

Lemma times_1_25 (F G : JsNumber.number) :
  timesExactly 5 4 F G = true -> JsNumber.mul F c1_25 = G.
Proof. apply times_exact; try lia; reflexivity. Qed.

(** The product of a binary64 number and the literal [0.9]: the mantissa
    [m2] of the result is the nearest to the exact product. *)
Lemma mul_c0_9_nearest (m : BinNums.positive) (e : Z) :
  bounded 53 1024 m e = true ->
  exists k m2 : Z,
    0 < k
    /\ e - 53 + k = fexp 53 1024 (Zpos (digits2_pos (m * 8106479329266893)) + (e - 53))
    /\ 0 <= m2 <= 2 ^ 53
    /\ JsNumber.mul (S754_finite false m e) c0_9
       = match m2 with
         | Z0 => S754_zero false
         | Zpos p => if m2 <? 2 ^ 53 then S754_finite false p (e - 53 + k)
                     else if e - 53 + k + 1 <=? 971
                          then S754_finite false (2 ^ 52)%positive (e - 53 + k + 1)
                          else S754_infinity false
         | Zneg _ => S754_nan
         end
    /\ (forall N, N * 2 ^ k <= Zpos m * 8106479329266893 -> N <= m2)
    /\ (forall N, 2 * (Zpos m * 8106479329266893) < (2 * N - 1) * 2 ^ k -> m2 <= N - 1).
Proof.
  intros Hb. unfold bounded in Hb. apply andb_true_iff in Hb as [Hcan Hle].
  apply Z.leb_le in Hle. destruct (canonical_digits _ _ Hcan) as (Hm & Hmin & Hnorm).
  destruct (digits2_pos_bounds (m * 8106479329266893)) as [Dl Du].
  rewrite Pos2Z.inj_mul in Dl, Du.
  set (d := Zpos (digits2_pos (m * 8106479329266893))) in *.
  assert (E52 : 2 ^ 52 = 4503599627370496) by reflexivity.
  assert (E53 : 2 ^ 53 = 9007199254740992) by reflexivity.
  assert (Hd106 : d <= 106).
  { destruct (Z.leb_spec d 106) as [|Hgt]; [assumption|].
    assert (2 ^ 106 <= 2 ^ (d - 1)) by (apply Z.pow_le_mono_r; lia).
    change (2 ^ 106) with (2 ^ 53 * 2 ^ 53) in *. nia. }
  assert (Hk : 0 < fexp 53 1024 (d + (e - 53)) - (e - 53)).
  { destruct Hnorm as [->|Hn]; [unfold fexp, emin; lia|].
    assert (105 <= d); [|unfold fexp, emin; lia].
    destruct (Z.leb_spec 105 d) as [|Hlt]; [assumption|].
    assert (2 ^ d <= 2 ^ 104) by (apply Z.pow_le_mono_r; lia).
    change (2 ^ 104) with (2 ^ 52 * 2 ^ 52) in *. nia. }
  set (k := fexp 53 1024 (d + (e - 53)) - (e - 53)) in *.
  destruct (round_aux_nearest false (m * 8106479329266893) (e - 53) k)
    as (m2 & Hm2 & Heq & Hi & Hii).
  - exact Hk.
  - fold d. unfold k. lia.
  - unfold k. unfold fexp, emin. lia.
  - exists k, m2. rewrite Pos2Z.inj_mul in Hi, Hii.
    split; [exact Hk|]. split; [unfold k; lia|]. split; [exact Hm2|].
    split; [|split; assumption].
    exact Heq.
Qed.

(** The size of [h6]: exactly nine tenths of the font size, whenever
    nine tenths of it are a binary64 number. *)
Lemma times_0_9 (F G : JsNumber.number) :
  valid_binary 53 1024 F = true ->
  timesExactly 9 10 F G = true -> JsNumber.mul F c0_9 = G.
Proof.
  intros HF H.
  destruct F as [| | |[|] m e]; try discriminate H.
  destruct G as [| | |[|] m' e']; try discriminate H.
  cbn [timesExactly] in H. apply andb_true_iff in H as [Hb Hv].
  apply Z.eqb_eq in Hv. cbn [valid_binary] in HF.
  pose proof HF as HF'. unfold bounded in HF', Hb.
  apply andb_true_iff in HF' as [Hcan _].
  apply andb_true_iff in Hb as [Hcan' Hle']. apply Z.leb_le in Hle'.
  unfold JsNumber.prec, JsNumber.emax in *.
  destruct (canonical_digits _ _ Hcan) as (Hm & Hmin & Hnorm).
  destruct (canonical_digits _ _ Hcan') as (Hm' & Hmin' & Hnorm').
  assert (E52 : 2 ^ 52 = 4503599627370496) by reflexivity.
  assert (E53 : 2 ^ 53 = 9007199254740992) by reflexivity.
  assert (Hup : e' <= e).
  { destruct (Z.leb_spec e' e) as [|Hgt]; [assumption|exfalso].
    rewrite Z.min_l in Hv by lia. rewrite Z.sub_diag in Hv.
    change (2 ^ 0) with 1 in Hv.
    assert (2 ^ 1 <= 2 ^ (e' - e)) by (apply Z.pow_le_mono_r; lia).
    change (2 ^ 1) with 2 in *. destruct Hnorm' as [|Hn]; [lia|]. nia. }
  assert (Hlow : e - 1 <= e').
  { destruct (Z.leb_spec (e - 1) e') as [|Hlt]; [assumption|exfalso].
    rewrite Z.min_r in Hv by lia. rewrite Z.sub_diag in Hv.
    change (2 ^ 0) with 1 in Hv.
    assert (2 ^ 2 <= 2 ^ (e - e')) by (apply Z.pow_le_mono_r; lia).
    change (2 ^ 2) with 4 in *. destruct Hnorm as [|Hn]; [lia|]. nia. }
  destruct (mul_c0_9_nearest m e HF) as (k & m2 & Hk & He1 & Hm2 & Heq & Hi & Hii).
  set (X := Zpos m * 8106479329266893) in *.
  set (k' := e' - e + 53).
  assert (Hk' : 52 <= k' <= 53) by (unfold k'; lia).
  assert (Hp : 0 < 2 ^ k') by (apply Z.pow_pos_nonneg; lia).
  assert (HX : Zpos m' * 2 ^ k' <= X /\ 20 * X < (20 * Zpos m' + 10) * 2 ^ k').
  { destruct (Z.eq_dec e' e) as [Ee|Ne].
    - rewrite Ee, Z.min_id, Z.sub_diag in Hv. change (2 ^ 0) with 1 in Hv.
      replace k' with 53 in * by (unfold k'; lia). rewrite E53. unfold X. lia.
    - assert (Ee : e' = e - 1) by lia.
      rewrite Z.min_r in Hv by lia. rewrite Z.sub_diag in Hv.
      replace (e - e') with 1 in Hv by lia. change (2 ^ 0) with 1 in Hv.
      change (2 ^ 1) with 2 in Hv.
      replace k' with 52 in * by (unfold k'; lia). rewrite E52. unfold X. lia. }
  destruct HX as [HX1 HX2].
  assert (Hdig : Zpos (digits2_pos (m * 8106479329266893))
                 = Zpos (digits2_pos m') + k').
  { apply digits2_pos_unique. rewrite Pos2Z.inj_mul. fold X.
    destruct (digits2_pos_bounds m') as [Ql Qu].
    set (d' := Zpos (digits2_pos m')) in *.
    replace (d' + k' - 1) with (d' - 1 + k') by lia.
    rewrite !Z.pow_add_r by (unfold d'; lia). nia. }
  assert (Ek : k = k').
  { rewrite Hdig in He1.
    replace (Zpos (digits2_pos m') + k' + (e - 53))
      with (Zpos (digits2_pos m') + e') in He1 by (unfold k'; lia).
    unfold canonical_mantissa in Hcan'. apply Z.eqb_eq in Hcan'.
    rewrite Hcan' in He1. unfold k'. lia. }
  subst k.
  assert (Em2 : m2 = Zpos m').
  { apply Z.le_antisymm.
    - replace (Zpos m') with (Zpos m' + 1 - 1) by lia. apply Hii. lia.
    - apply Hi. exact HX1. }
  rewrite Heq, Em2.
  replace (Zpos m' <? 2 ^ 53) with true by (symmetry; apply Z.ltb_lt; lia).
  f_equal. unfold k'. lia.
Qed.

(** The code size: the floor of nine tenths of the font size, as long
    as these lie between a whole number below [2^50] and that number
    and nine tenths. *)
Lemma floor_times_0_9 (F : JsNumber.number) (n : Z) :
  valid_binary 53 1024 F = true -> 0 <= n < 2 ^ 50 ->
  nineTenthsIn F n = true ->
  JsNumber.floor (JsNumber.mul F c0_9) = JsNumber.ofZ n.
Proof.
  intros HF Hn H.
  destruct F as [| | |[|] m e]; try discriminate H.
  cbn [valid_binary] in HF. pose proof HF as HF'. unfold bounded in HF'.
  apply andb_true_iff in HF' as [Hcan _].
  destruct (canonical_digits _ _ Hcan) as (Hm & Hmin & Hnorm).
  assert (E50 : 2 ^ 50 = 1125899906842624) by reflexivity.
  assert (E52 : 2 ^ 52 = 4503599627370496) by reflexivity.
  assert (E53 : 2 ^ 53 = 9007199254740992) by reflexivity.
  unfold nineTenthsIn, JsNumber.magnitude in H.
  destruct e as [|p|p].
  - exfalso. apply andb_true_iff in H as [_ H2]. apply Z.leb_le in H2.
    change (2 ^ 0) with 1 in H2. destruct Hnorm as [|Hq]; [lia|]. lia.
  - exfalso. apply andb_true_iff in H as [_ H2]. apply Z.leb_le in H2.
    assert (0 < 2 ^ Zpos p) by (apply Z.pow_pos_nonneg; lia).
    destruct Hnorm as [|Hq]; [lia|]. nia.
  - apply andb_true_iff in H as [H1 H2]. apply Z.leb_le in H1, H2.
    rewrite Pos2Z.inj_pow in H1, H2. change (Zpos 2) with 2 in H1, H2.
    assert (HB : 2 <= 2 ^ Zpos p).
    { change 2 with (2 ^ 1) at 1. apply Z.pow_le_mono_r; lia. }
    destruct (mul_c0_9_nearest m (Zneg p) HF)
      as (k & m2 & Hk & He1 & Hm2 & Heq & Hi & Hii).
    destruct (digits2_pos_bounds (m * 8106479329266893)) as [Dl Du].
    rewrite Pos2Z.inj_mul in Dl, Du.
    set (d := Zpos (digits2_pos (m * 8106479329266893))) in *.
    set (X := Zpos m * 8106479329266893) in *.
    set (B := 2 ^ Zpos p) in *.
    assert (HXB : 10 * X < 10 * (2 ^ 50 * 2 ^ 53 * B)) by (unfold X; nia).
    assert (Hd : d <= 103 + Zpos p).
    { destruct (Z.leb_spec d (103 + Zpos p)) as [|Hgt]; [assumption|].
      assert (2 ^ (103 + Zpos p) <= 2 ^ (d - 1)) by (apply Z.pow_le_mono_r; lia).
      rewrite Z.pow_add_r in H by lia.
      change (2 ^ 103) with (2 ^ 50 * 2 ^ 53) in H. fold B in H. lia. }
    set (a := - (Zneg p - 53 + k)).
    assert (Ha : 3 <= a) by (unfold a; revert He1; unfold fexp, emin; lia).
    assert (HA : 2 ^ 3 <= 2 ^ a) by (apply Z.pow_le_mono_r; lia).
    change (2 ^ 3) with 8 in HA.
    assert (Hak : 2 ^ a * 2 ^ k = 2 ^ 53 * B).
    { unfold B. rewrite <- !Z.pow_add_r by lia. f_equal. unfold a. lia. }
    assert (HK : 0 < 2 ^ k) by (apply Z.pow_pos_nonneg; lia).
    assert (Hlow : n * 2 ^ a <= m2).
    { apply Hi. replace (n * 2 ^ a * 2 ^ k) with (n * (2 ^ a * 2 ^ k)) by ring.
      rewrite Hak. unfold X. nia. }
    assert (Hupp : m2 <= (n + 1) * 2 ^ a - 1).
    { apply Hii.
      replace ((2 * ((n + 1) * 2 ^ a) - 1) * 2 ^ k)
        with (2 * (n + 1) * (2 ^ a * 2 ^ k) - 2 ^ k) by ring.
      rewrite Hak.
      assert (8 * 2 ^ k <= 2 ^ 53 * B) by nia.
      unfold X. nia. }
    rewrite Heq. destruct m2 as [|q|q]; try lia.
    + assert (n = 0) by nia. subst n. reflexivity.
    + destruct (Z.ltb_spec (Zpos q) (2 ^ 53)) as [Hlt|Hge].
      * apply floor_between; [unfold a in Ha; lia|].
        replace (- (Zneg p - 53 + k)) with a by reflexivity. lia.
      * assert (Hq : Zpos q = 2 ^ 53) by lia.
        replace (Zneg p - 53 + k + 1 <=? 971) with true
          by (symmetry; apply Z.leb_le; unfold a in Ha; lia).
        apply floor_between; [unfold a in Ha; lia|].
        replace (- (Zneg p - 53 + k + 1)) with (a - 1) by (unfold a; lia).
        assert (E2 : 2 ^ a = 2 * 2 ^ (a - 1)).
        { replace a with (1 + (a - 1)) at 1 by lia.
          rewrite Z.pow_add_r by lia. reflexivity. }
        rewrite Hq in Hlow, Hupp.
        change (Zpos (2 ^ 52)) with (2 ^ 52). lia.
Qed.

(** The code size again: the floor of nine tenths of the font size,
    unless these come within the fraction [2^-52] of themselves below
    the next whole number. *)
Lemma floor_times_0_9_clear (F : JsNumber.number) (n : Z) :
  valid_binary 53 1024 F = true -> 0 <= n < 2 ^ 52 ->
  nineTenthsClear F n = true ->
  JsNumber.floor (JsNumber.mul F c0_9) = JsNumber.ofZ n.
Proof.
  intros HF Hn H.
  destruct F as [| | |[|] m e]; try discriminate H.
  cbn [valid_binary] in HF. pose proof HF as HF'. unfold bounded in HF'.
  apply andb_true_iff in HF' as [Hcan _].
  destruct (canonical_digits _ _ Hcan) as (Hm & Hmin & Hnorm).
  assert (E52 : 2 ^ 52 = 4503599627370496) by reflexivity.
  assert (E53 : 2 ^ 53 = 9007199254740992) by reflexivity.
  unfold nineTenthsClear in H.
  (* the value of F as the fraction m / B with B = 2^(-e) *)
  assert (He : e <= 0).
  { destruct e as [|p|p]; try lia. exfalso.
    unfold JsNumber.magnitude in H.
    apply andb_true_iff in H as [_ H2]. apply Z.leb_le in H2.
    assert (2 ^ 1 <= 2 ^ Zpos p) by (apply Z.pow_le_mono_r; lia).
    change (2 ^ 1) with 2 in *.
    destruct Hnorm as [|Hq]; [lia|]. nia. }
  assert (HB : exists B, 0 < B /\ B = 2 ^ (- e)
                         /\ 10 * n * B <= 9 * Zpos m
                         /\ 9 * Zpos m * (2 ^ 52 + 1) <= 10 * (n + 1) * B * 2 ^ 52).
  { destruct e as [|p|p]; try lia; unfold JsNumber.magnitude in H;
      apply andb_true_iff in H as [H1 H2]; apply Z.leb_le in H1, H2.
    - exists 1. change (2 ^ 0) with 1 in *. repeat split; lia.
    - exists (2 ^ Zpos p). rewrite Pos2Z.inj_pow in H1, H2.
      change (Zpos 2) with 2 in H1, H2.
      assert (0 < 2 ^ Zpos p) by (apply Z.pow_pos_nonneg; lia).
      repeat split; try assumption. }
  clear H. destruct HB as (B & HBpos & EB & H1 & H2).
  destruct (mul_c0_9_nearest m e HF)
    as (k & m2 & Hk & He1 & Hm2 & Heq & Hi & Hii).
  destruct (digits2_pos_bounds (m * 8106479329266893)) as [Dl Du].
  rewrite Pos2Z.inj_mul in Dl, Du.
  set (d := Zpos (digits2_pos (m * 8106479329266893))) in *.
  set (X := Zpos m * 8106479329266893) in *.
  (* the exact product is below n + 1 *)
  assert (HXB : 10 * X + 16 * Zpos m <= 10 * ((n + 1) * (2 ^ 53 * B))).
  { unfold X. nia. }
  assert (Hd : d <= 105 - e).
  { destruct (Z.leb_spec d (105 - e)) as [|Hgt]; [assumption|].
    assert (2 ^ (105 - e) <= 2 ^ (d - 1)) by (apply Z.pow_le_mono_r; lia).
    replace (105 - e) with (52 + 53 + - e) in H by lia.
    rewrite !Z.pow_add_r in H by lia. rewrite <- EB in H. nia. }
  set (a := - (e - 53 + k)).
  assert (Ha : 1 <= a) by (unfold a; revert He1; unfold fexp, emin; lia).
  assert (Hak : 2 ^ a * 2 ^ k = 2 ^ 53 * B).
  { rewrite EB. rewrite <- !Z.pow_add_r by lia. f_equal. unfold a. lia. }
  assert (HK : 0 < 2 ^ k) by (apply Z.pow_pos_nonneg; lia).
  assert (HA : 2 ^ 1 <= 2 ^ a) by (apply Z.pow_le_mono_r; lia).
  change (2 ^ 1) with 2 in HA.
  assert (Hlow : n * 2 ^ a <= m2).
  { apply Hi. replace (n * 2 ^ a * 2 ^ k) with (n * (2 ^ a * 2 ^ k)) by ring.
    rewrite Hak. unfold X. nia. }
  assert (Hupp : m2 <= (n + 1) * 2 ^ a - 1).
  { destruct (Z.eq_dec (e - 53 + k) (-1074)) as [Esub|Enorm].
    - (* a subnormal product *)
      assert (Ea : a = 1074) by (unfold a; lia).
      assert (2 ^ 54 <= 2 ^ a) by (apply Z.pow_le_mono_r; lia).
      change (2 ^ 54) with (2 * 2 ^ 53) in *. nia.
    - assert (Ek : k = d - 53) by (revert He1; fold d; unfold fexp, emin; lia).
      assert (HkX : 2 ^ k * 2 ^ 52 <= X).
      { rewrite <- Z.pow_add_r by lia. replace (k + 52) with (d - 1) by lia. exact Dl. }
      apply Hii.
      replace ((2 * ((n + 1) * 2 ^ a) - 1) * 2 ^ k)
        with (2 * (n + 1) * (2 ^ a * 2 ^ k) - 2 ^ k) by ring.
      rewrite Hak. unfold X in *. nia. }
  rewrite Heq. destruct m2 as [|q|q]; try lia.
  - assert (n = 0) by nia. subst n. reflexivity.
  - destruct (Z.ltb_spec (Zpos q) (2 ^ 53)) as [Hlt|Hge].
    + apply floor_between; [unfold a in Ha; lia|].
      replace (- (e - 53 + k)) with a by reflexivity. lia.
    + assert (Hq : Zpos q = 2 ^ 53) by lia.
      assert (Ha2 : 2 <= a).
      { destruct (Z.eq_dec a 1) as [E1|]; [|lia]. rewrite E1 in Hupp.
        change (2 ^ 1) with 2 in Hupp. lia. }
      replace (e - 53 + k + 1 <=? 971) with true
        by (symmetry; apply Z.leb_le; unfold a in Ha; lia).
      apply floor_between; [unfold a in Ha2; lia|].
      replace (- (e - 53 + k + 1)) with (a - 1) by (unfold a; lia).
      assert (E2 : 2 ^ a = 2 * 2 ^ (a - 1)).
      { replace a with (1 + (a - 1)) at 1 by lia.
        rewrite Z.pow_add_r by lia. reflexivity. }
      rewrite Hq in Hlow, Hupp.
      change (Zpos (2 ^ 52)) with (2 ^ 52). lia.
Qed.

(** Whole font sizes whose code size is below [2^50]. *)
Lemma code_whole (f : Z) :
  1 <= f <= 1250999896491804 ->
  JsNumber.floor (JsNumber.mul (JsNumber.ofZ f) c0_9) = JsNumber.ofZ (9 * f / 10).
Proof.
  intros Hf. destruct f as [|x|x]; try lia.
  assert (E50 : 2 ^ 50 = 1125899906842624) by reflexivity.
  assert (E51 : 2 ^ 51 = 2251799813685248) by reflexivity.
  assert (E53 : 2 ^ 53 = 9007199254740992) by reflexivity.
  assert (Hx : Zpos x < 2 ^ 53) by lia.
  destruct (ofZ_pos x Hx) as (m & -> & Mx).
  destruct (padded_digits _ _ Hx Mx) as (Dx & Rm & Dm).
  destruct (digits2_pos_bounds x) as [Xl Xu].
  set (d := Zpos (digits2_pos x)) in *.
  assert (Hd : d <= 51).
  { destruct (Z.leb_spec d 51) as [|Hgt]; [assumption|].
    assert (2 ^ 51 <= 2 ^ (d - 1)) by (apply Z.pow_le_mono_r; lia). lia. }
  pose proof (Z.div_mod (9 * Zpos x) 10 ltac:(lia)) as Hdm.
  pose proof (Z.mod_pos_bound (9 * Zpos x) 10 ltac:(lia)) as Hr.
  set (n := 9 * Zpos x / 10) in *.
  set (r := (9 * Zpos x) mod 10) in *.
  apply floor_times_0_9.
  - cbn [valid_binary]. unfold bounded, canonical_mantissa. rewrite Dm.
    apply andb_true_iff. split; [apply Z.eqb_eq | apply Z.leb_le];
      unfold fexp, emin; lia.
  - lia.
  - unfold nineTenthsIn, JsNumber.magnitude.
    destruct (d - 53) as [|p|p] eqn:Ed; try lia.
    rewrite Pos2Z.inj_pow. change (Zpos 2) with 2.
    replace (53 - d) with (Zpos p) in Mx by lia. rewrite Mx.
    assert (0 < 2 ^ Zpos p) by (apply Z.pow_pos_nonneg; lia).
    apply andb_true_iff. split; apply Z.leb_le; nia.
Qed.

Lemma code_top : allFrom 6 1250999896491805 codeAgrees = true.
Proof. vm_compute. reflexivity. Qed.

Lemma code_all (f : Z) :
  1 <= f < 1250999896491811 ->
  JsNumber.floor (JsNumber.mul (JsNumber.ofZ f) c0_9) = JsNumber.ofZ (9 * f / 10).
Proof.
  intros Hf. destruct (Z.leb_spec f 1250999896491804) as [Hlow|Hhigh].
  - apply code_whole. lia.
  - apply same_eq. apply (allFrom_spec _ _ codeAgrees code_top). lia.
Qed.

End Multiples.

(* ================================================================== *)
(** ** Font sizes in the assembled documents *)

Section FontSizes.

Lemma cut_cons (c : ascii) (s pre R : string) :
  s = pre ++ R -> String c s = String c pre ++ R.
Proof. intros ->. reflexivity. Qed.

Lemma cut_append (x s pre R : string) :
  s = pre ++ R -> x ++ s = (x ++ pre) ++ R.
Proof. intros ->. now rewrite append_assoc. Qed.

Lemma cut_here (s R : string) : s = R -> s = EmptyString ++ R.
Proof. intros ->. reflexivity. Qed.

Lemma includes_cut (s p : string) :
  (exists pre post, s = pre ++ p ++ post) -> JsString.includes s p = true.
Proof. intros (pre & post & ->). apply includes_append. Qed.

(** Finds the place of a rule in a template: the goal is
    [template = ?pre ++ rule ++ ?post]. *)
Ltac cut_at_rule :=
  repeat first
    [ match goal with
      | |- String "." _ = _ =>
          solve [ apply cut_here; rewrite ?append_assoc; cbn [append]; reflexivity ]
      end
    | apply cut_cons
    | apply cut_append ].

Lemma main_document_cut (githubCss highlightCss customCss html : string) :
  exists pre post, forall fontSize,
    Main.document githubCss highlightCss customCss fontSize html
    = pre ++ baseRule fontSize ++ post.
Proof.
  eexists. eexists. intros fontSize.
  unfold Main.document, baseRule, dq. cbn [append].
  cut_at_rule.
Qed.

Ltac legacy_rule :=
  apply includes_cut; eexists; eexists;
  unfold Legacy.fullHtml, legacyRule, legacyBlock, preAndCode, newline, dq;
  cbn [append];
  cut_at_rule.

Lemma legacy_rules (customCss html : string) (F : JsNumber.number) :
  let doc := Legacy.fullHtml customCss F html in
  JsString.includes doc (legacyBlock ".markdown-body" F) = true
  /\ JsString.includes doc
       (legacyBlock preAndCode (JsNumber.floor (JsNumber.mul F c0_9))) = true
  /\ JsString.includes doc (legacyRule "h1" (JsNumber.mul F c2)) = true
  /\ JsString.includes doc (legacyRule "h2" (JsNumber.mul F c1_5)) = true
  /\ JsString.includes doc (legacyRule "h3" (JsNumber.mul F c1_25)) = true
  /\ JsString.includes doc (legacyRule "h4" (JsNumber.mul F c1_1)) = true
  /\ JsString.includes doc (legacyRule "h5" F) = true
  /\ JsString.includes doc (legacyRule "h6" (JsNumber.mul F c0_9)) = true.
Proof.
  intros doc. subst doc. repeat split; legacy_rule.
Qed.

End FontSizes.

(** C1 (as amended).  Whatever the font size [F], the document assembled
    by [src/index.js] depends on it through the single rule
    [.markdown-body { font-size: Fpx; }]: no heading or code size is
    computed there.  The legacy script emits the base rule with [F], the
    rule for [pre] and [code] with [floor(F * 0.9)], and the rules for
    [h1] to [h6] with [F * 2], [F * 1.5], [F * 1.25], [F * 1.1], [F] and
    [F * 0.9], all in binary64 arithmetic.  For a positive binary64
    number [F] the sizes of [h1], [h2], [h3] and [h6] are exactly [2F],
    [1.5F], [1.25F] and [0.9F] whenever that multiple is a binary64
    number.  The code size is the floor of [0.9F] for every whole [F]
    from 1 to 1250999896491810, and for every [F] with [0.9F] below
    [2^52] unless [0.9F] comes within the fraction [2^-52] of itself
    below the next whole number. *)
Theorem C1_font_size_rules (githubCss highlightCss customCss html : string)
    (F : JsNumber.number) :
  (exists pre post, forall fontSize,
      Main.document githubCss highlightCss customCss fontSize html
      = pre ++ baseRule fontSize ++ post)
  /\ (let doc := Legacy.fullHtml customCss F html in
      JsString.includes doc (legacyBlock ".markdown-body" F) = true
      /\ JsString.includes doc
           (legacyBlock preAndCode (JsNumber.floor (JsNumber.mul F c0_9))) = true
      /\ JsString.includes doc (legacyRule "h1" (JsNumber.mul F c2)) = true
      /\ JsString.includes doc (legacyRule "h2" (JsNumber.mul F c1_5)) = true
      /\ JsString.includes doc (legacyRule "h3" (JsNumber.mul F c1_25)) = true
      /\ JsString.includes doc (legacyRule "h4" (JsNumber.mul F c1_1)) = true
      /\ JsString.includes doc (legacyRule "h5" F) = true
      /\ JsString.includes doc (legacyRule "h6" (JsNumber.mul F c0_9)) = true)
  /\ (forall G, timesExactly 2 1 F G = true -> JsNumber.mul F c2 = G)
  /\ (forall G, timesExactly 3 2 F G = true -> JsNumber.mul F c1_5 = G)
  /\ (forall G, timesExactly 5 4 F G = true -> JsNumber.mul F c1_25 = G)
  /\ (forall G, valid_binary JsNumber.prec JsNumber.emax F = true ->
                timesExactly 9 10 F G = true -> JsNumber.mul F c0_9 = G)
  /\ (forall n, valid_binary JsNumber.prec JsNumber.emax F = true ->
                0 <= n < 2 ^ 52 -> nineTenthsClear F n = true ->
                JsNumber.floor (JsNumber.mul F c0_9) = JsNumber.ofZ n)
  /\ (forall f, 1 <= f < 1250999896491811 ->
                JsNumber.floor (JsNumber.mul (JsNumber.ofZ f) c0_9)
                = JsNumber.ofZ (9 * f / 10)).
Proof.
  split; [apply main_document_cut|]. split; [apply legacy_rules|].
  split; [exact (times_2 F)|]. split; [exact (times_1_5 F)|].
  split; [exact (times_1_25 F)|]. split; [exact (times_0_9 F)|].
  split; [exact (floor_times_0_9_clear F) | exact code_all].
Qed.

Lemma C1_font_size_rules_witness :
  let F := JsNumber.parseFloat "12.5" in
  JsString.includes (Legacy.fullHtml "" F Sample.heading)
    (legacyRule "h1" (JsNumber.mul F c2)) = true
  /\ JsNumber.mul F c2 = JsNumber.parseFloat "25"
  /\ JsNumber.mul F c1_5 = JsNumber.parseFloat "18.75"
  /\ JsNumber.mul F c1_25 = JsNumber.parseFloat "15.625"
  /\ JsNumber.mul F c0_9 = JsNumber.parseFloat "11.25"
  /\ JsNumber.floor (JsNumber.mul F c0_9) = JsNumber.ofZ 11
  /\ JsNumber.floor (JsNumber.mul (JsNumber.ofZ 16) c0_9) = JsNumber.ofZ (9 * 16 / 10).
Proof.
  intros F.
  destruct (C1_font_size_rules "" "" "" Sample.heading F)
    as (_ & Hrules & H2 & H15 & H125 & H09 & Hcode & Hwhole).
  split; [apply Hrules|].
  split; [apply H2; vm_compute; reflexivity|].
  split; [apply H15; vm_compute; reflexivity|].
  split; [apply H125; vm_compute; reflexivity|].
  split; [apply H09; vm_compute; reflexivity|].
  split; [apply Hcode; [vm_compute; reflexivity | lia | vm_compute; reflexivity]|].
  apply Hwhole. lia.
Defined.

(** C1 fails as stated: with the font size 16 the document assembled by
    [src/index.js] holds the base rule and none of the sizes 32, 24, 20,
    17.6, 14.4 or 14 pixels.  In the legacy script the size of [h4] for
    the font size 3 is not 3.3, and for the font size 25 it is not 27.5,
    a binary64 number; the size of [h2] for the font size 0.1 is not one
    and a half times that number, and the size of [h1] for the largest
    binary64 number is infinite; the code size for the font size
    1250999896491811 is one above the floor of nine tenths of it, and so
    is the code size for 3.333333333333333, nine tenths of which are
    below 3. *)
Lemma C1_counterexample :
  exists doc,
    Main.generateHTML (Sample.machine Sample.heading) Sample.heading
      (Main.parseOptions (Sample.invocation None (Some "16") None "docs/doc.md"))
    = (Done doc,
       [FsReadFile "/opt/md2pdf/src/styles.css";
        FsReadFile "/opt/md2pdf/node_modules/github-markdown-css/github-markdown.css";
        FsReadFile "/opt/md2pdf/node_modules/highlight.js/styles/github.css"])
    /\ JsString.includes doc ".markdown-body { font-size: 16px; }" = true
    /\ JsString.includes doc "32px" = false
    /\ JsString.includes doc "24px" = false
    /\ JsString.includes doc "20px" = false
    /\ JsString.includes doc "17.6px" = false
    /\ JsString.includes doc "14.4px" = false
    /\ JsString.includes doc "14px" = false
    /\ JsNumber.toString (JsNumber.mul (JsNumber.parseFloat "3") c1_1)
       = "3.3000000000000003"
    /\ JsNumber.toString (JsNumber.mul (JsNumber.parseFloat "25") c1_1)
       = "27.500000000000004"
    /\ timesExactly 11 10 (JsNumber.parseFloat "25") (JsNumber.parseFloat "27.5") = true
    /\ JsNumber.floor (JsNumber.mul (JsNumber.ofZ 1250999896491811) c0_9)
       = JsNumber.ofZ 1125899906842630
    /\ 9 * 1250999896491811 / 10 = 1125899906842629
    /\ JsNumber.floor (JsNumber.mul (JsNumber.parseFloat "3.333333333333333") c0_9)
       = JsNumber.ofZ 3
    /\ hasValue (JsNumber.parseFloat "3.333333333333333")
         3752999689475413 1125899906842624 = true
    /\ 9 * 3752999689475413 / (10 * 1125899906842624) = 2
    /\ hasValue (JsNumber.parseFloat "0.1") 3602879701896397 36028797018963968 = true
    /\ hasValue (JsNumber.mul (JsNumber.parseFloat "0.1") c1_5)
         (3 * 3602879701896397) (2 * 36028797018963968) = false
    /\ JsNumber.toString (JsNumber.mul (JsNumber.parseFloat "0.1") c1_5)
       = "0.15000000000000002"
    /\ JsNumber.toString
         (JsNumber.mul (JsNumber.parseFloat "1.7976931348623157e308") c2)
       = "Infinity".
Proof.
  eexists. split; [vm_compute; reflexivity|].
  repeat split; vm_compute; reflexivity.
Qed.

(* ================================================================== *)
(** ** Validation of the options *)

Section Validation.

Lemma bind_ret {A B} (a : A) (f : A -> M B) : bind (ret a) f = f a.
Proof. unfold bind, ret. destruct (f a). reflexivity. Qed.

Lemma bind_keeps {A B} (m : M A) (f : A -> M B) (e : event) :
  In e (snd m) -> In e (snd (bind m f)).
Proof.
  destruct m as [[a|msg|code] t]; simpl; auto.
  destruct (f a); simpl. intros H. apply in_or_app. now left.
Qed.

Lemma tryCatch_keeps {A} (m : M A) (h : string -> M A) (e : event) :
  In e (snd m) -> In e (snd (tryCatch m h)).
Proof.
  destruct m as [[a|msg|code] t]; simpl; auto.
  destruct (h msg); simpl. intros H. apply in_or_app. now left.
Qed.

Lemma readFile_emits (E : env) (path : string) :
  In (FsReadFile path) (snd (readFile E path)).
Proof. unfold readFile. apply bind_keeps. simpl. auto. Qed.

(** [src/index.js] reads the input file whatever the options are. *)
Lemma main_reads_input (E : env) (i : Main.invocation) :
  In (FsReadFile (Main.inputArg i)) (snd (Main.action E i)).
Proof.
  unfold Main.action. cbv zeta.
  unfold bind at 1, emit at 1.
  destruct (Main.convertMarkdownToPdf E (Main.inputArg i) (Main.parseOptions i))
    as [o t] eqn:Hc.
  simpl. right.
  change t with (snd (o, t)). rewrite <- Hc.
  unfold Main.convertMarkdownToPdf. apply tryCatch_keeps. cbv zeta.
  apply bind_keeps, readFile_emits.
Qed.

Lemma not_positive (x : JsNumber.number) :
  isPositive x = false -> (JsNumber.isNaN x || JsNumber.leb x c0)%bool = true.
Proof. destruct x as [s|s| |s m e]; try destruct s; simpl; intros H; try reflexivity; discriminate. Qed.

Lemma positive (x : JsNumber.number) :
  isPositive x = true -> (JsNumber.isNaN x || JsNumber.leb x c0)%bool = false.
Proof. destruct x as [s|s| |s m e]; try destruct s; simpl; intros H; try reflexivity; discriminate. Qed.

Lemma negative (x : JsNumber.number) :
  isNonNegative x = false -> (JsNumber.isNaN x || JsNumber.ltb x c0)%bool = true.
Proof. destruct x as [s|s| |s m e]; try destruct s; simpl; intros H; try reflexivity; discriminate. Qed.

Lemma non_negative (x : JsNumber.number) :
  isNonNegative x = true -> (JsNumber.isNaN x || JsNumber.ltb x c0)%bool = false.
Proof. destruct x as [s|s| |s m e]; try destruct s; simpl; intros H; try reflexivity; discriminate. Qed.

Lemma validateMargins_offending (entries : list (string * JsNumber.number))
    (side : string) (v : JsNumber.number) :
  List.find offending entries = Some (side, v) ->
  Legacy.validateMargins entries
  = (Exited 1, [ConsoleError (Legacy.marginError side); ProcessExit 1]).
Proof.
  induction entries as [|[s0 v0] rest IH]; [discriminate|].
  cbn [List.find Legacy.validateMargins]. unfold offending at 1. cbn [snd].
  destruct (isNonNegative v0) eqn:Hv; cbn [negb].
  - intros H. rewrite (non_negative _ Hv), bind_ret. now apply IH.
  - intros [= <- <-]. rewrite (negative _ Hv). reflexivity.
Qed.

Lemma validateMargins_pass (entries : list (string * JsNumber.number)) :
  List.find offending entries = None -> Legacy.validateMargins entries = ret tt.
Proof.
  induction entries as [|[s0 v0] rest IH]; [reflexivity|].
  cbn [List.find Legacy.validateMargins]. unfold offending at 1. cbn [snd].
  destruct (isNonNegative v0) eqn:Hv; cbn [negb]; [|discriminate].
  intros H. rewrite (non_negative _ Hv), bind_ret. now apply IH.
Qed.

End Validation.

(** C2 (as amended).  In the legacy script, an invocation whose scale is
    not a positive number (it is NaN, zero or negative), or else whose
    font size is not a positive number, or else one of whose margins is
    NaN or negative, prints the diagnostic of that option (for the
    margins, of the first offending side among top, right, bottom and
    left) and exits with status 1 before any file or browser operation;
    an invocation that passes these tests, positive infinity included,
    starts the conversion.  [src/index.js] tests none of the options: it
    reads the input file in every case. *)
Theorem C2_option_validation (E : env) (inputPath : string) (rest : list string)
    (i : Main.invocation) :
  let args := inputPath :: rest in
  let scale := Legacy.getArgValue args "--scale" c1 in
  let fontSize := Legacy.getArgValue args "--font-size" Legacy.DEFAULT_FONT_SIZE in
  let m := Legacy.parseMargins args in
  let logged := [ConsoleLog "Received arguments:"; ConsoleLog "Parsed values:"] in
  let refused (text : string) : M unit :=
    (Exited 1, logged ++ [ConsoleError text; ProcessExit 1])%list in
  (isPositive scale = false -> Legacy.main E args = refused Legacy.scaleError)
  /\ (isPositive scale = true -> isPositive fontSize = false ->
      Legacy.main E args = refused Legacy.fontSizeError)
  /\ (isPositive scale = true -> isPositive fontSize = true ->
      forall side v, List.find offending (Legacy.entries m) = Some (side, v) ->
      Legacy.main E args = refused (Legacy.marginError side))
  /\ (isPositive scale = true -> isPositive fontSize = true ->
      List.find offending (Legacy.entries m) = None ->
      Legacy.main E args
      = (fst (Legacy.convertMarkdownToPdf E inputPath scale fontSize m),
         logged ++ snd (Legacy.convertMarkdownToPdf E inputPath scale fontSize m))%list)
  /\ In (FsReadFile (Main.inputArg i)) (snd (Main.action E i)).
Proof.
  intros args scale fontSize m logged refused. subst args.
  unfold Legacy.main. cbv iota. fold scale. fold fontSize. fold m.
  repeat split.
  - intros Hs. rewrite (not_positive _ Hs). reflexivity.
  - intros Hs Hf. rewrite (positive _ Hs), (not_positive _ Hf). reflexivity.
  - intros Hs Hf side v Hm.
    rewrite (positive _ Hs), (positive _ Hf), (validateMargins_offending _ _ _ Hm).
    reflexivity.
  - intros Hs Hf Hm.
    rewrite (positive _ Hs), (positive _ Hf), (validateMargins_pass _ Hm).
    cbv iota. rewrite !bind_ret.
    destruct (Legacy.convertMarkdownToPdf E inputPath scale fontSize m) as [o t].
    reflexivity.
  - apply main_reads_input.
Qed.

Lemma C2_option_validation_witness :
  Legacy.main (Sample.machine Sample.heading) ["docs/doc.md"; "--scale"; "0"]
  = (Exited 1, [ConsoleLog "Received arguments:"; ConsoleLog "Parsed values:";
                ConsoleError "Error: Scale factor must be a positive number";
                ProcessExit 1])
  /\ Legacy.main (Sample.machine Sample.heading) ["docs/doc.md"; "--margin-top"; "-5"]
     = (Exited 1, [ConsoleLog "Received arguments:"; ConsoleLog "Parsed values:";
                   ConsoleError "Error: top margin must be a non-negative number";
                   ProcessExit 1]).
Proof.
  pose (i := Sample.invocation None None None "docs/doc.md").
  split.
  - destruct (C2_option_validation (Sample.machine Sample.heading) "docs/doc.md"
                ["--scale"; "0"] i) as (Hscale & _).
    apply Hscale. vm_compute. reflexivity.
  - destruct (C2_option_validation (Sample.machine Sample.heading) "docs/doc.md"
                ["--margin-top"; "-5"] i) as (_ & _ & Hmargin & _).
    apply (Hmargin eq_refl eq_refl "top" (JsNumber.parseFloat "-5")).
    vm_compute. reflexivity.
Defined.

(** C2 fails as stated.  [src/index.js] run with the scale 0 and the
    margin -5 reads the input file, asks for the PDF and ends normally;
    the legacy script run with the scale Infinity does the same. *)
Lemma C2_counterexample :
  (let run := Main.action (Sample.machine Sample.heading)
                (Sample.invocation (Some "0") None (Some "-5") "docs/doc.md") in
   fst run = Done tt
   /\ In (FsReadFile "docs/doc.md") (snd run)
   /\ In (Browser (ApplyScale (JsNumber.parseFloat "0"))) (snd run)
   /\ In (Browser (Pdf "docs/doc.pdf" "-5mm" "-5mm" "-5mm" "-5mm")) (snd run)
   /\ ~ In (ProcessExit 1) (snd run))
  /\ (let run := Legacy.main (Sample.machine Sample.heading)
                   ["docs/doc.md"; "--scale"; "Infinity"] in
      fst run = Done tt
      /\ In (Browser (ApplyScale JsNumber.Infinity)) (snd run)
      /\ In (Browser (Pdf "docs/doc.pdf" "25.4mm" "25.4mm" "25.4mm" "25.4mm")) (snd run)
      /\ ~ In (ProcessExit 1) (snd run)).
Proof.
  split; cbv zeta.
  - match goal with |- context [Main.action ?E ?i] =>
      remember (Main.action E i) as run eqn:Hrun end.
    vm_compute in Hrun. subst run. cbn [fst snd].
    repeat split; try (simpl; tauto).
    simpl. intros H. repeat (destruct H as [H|H]; [discriminate|]). exact H.
  - match goal with |- context [Legacy.main ?E ?a] =>
      remember (Legacy.main E a) as run eqn:Hrun end.
    vm_compute in Hrun. subst run. cbn [fst snd].
    repeat split; try (simpl; tauto).
    simpl. intros H. repeat (destruct H as [H|H]; [discriminate|]). exact H.
Qed.

(* ================================================================== *)
(** ** The inliner, case by case *)

Section InlinerFacts.

Variable E : env.

Ltac run := unfold readFile, tryCatch, bind, emit, ret, throw; cbn.

Lemma processSVG_valid (p text : string) :
  file E p = inl text -> JsString.includes text "<svg" = true ->
  Inliner.processSVG E p = (Done (Some text), [FsReadFile p]).
Proof.
  intros Hf Hi. unfold Inliner.processSVG, readFile. rewrite Hf. run.
  rewrite Hi. reflexivity.
Qed.

Lemma processSVG_invalid (p text : string) :
  file E p = inl text -> JsString.includes text "<svg" = false ->
  Inliner.processSVG E p
  = (Done None, [FsReadFile p; svgWarning p "Not a valid SVG file"]).
Proof.
  intros Hf Hi. unfold Inliner.processSVG, readFile. rewrite Hf. run.
  rewrite Hi. reflexivity.
Qed.

Lemma processSVG_unreadable (p message : string) :
  file E p = inr message ->
  Inliner.processSVG E p = (Done None, [FsReadFile p; svgWarning p message]).
Proof.
  intros Hf. unfold Inliner.processSVG, readFile. rewrite Hf. reflexivity.
Qed.

Lemma imageToDataURL_svg (p text : string) :
  isSvg p = true -> file E p = inl text -> JsString.includes text "<svg" = true ->
  Inliner.imageToDataURL E p = (Done (Some (Inliner.svgDataURL text)), [FsReadFile p]).
Proof.
  intros Hs Hf Hi. unfold Inliner.imageToDataURL. fold (isSvg p). rewrite Hs.
  rewrite (processSVG_valid _ _ Hf Hi).
  destruct text; [discriminate | reflexivity].
Qed.

Lemma imageToDataURL_svg_invalid (p text : string) :
  isSvg p = true -> file E p = inl text -> JsString.includes text "<svg" = false ->
  Inliner.imageToDataURL E p
  = (Done None, [FsReadFile p; svgWarning p "Not a valid SVG file"]).
Proof.
  intros Hs Hf Hi. unfold Inliner.imageToDataURL. fold (isSvg p). rewrite Hs.
  now rewrite (processSVG_invalid _ _ Hf Hi).
Qed.

Lemma imageToDataURL_svg_unreadable (p message : string) :
  isSvg p = true -> file E p = inr message ->
  Inliner.imageToDataURL E p = (Done None, [FsReadFile p; svgWarning p message]).
Proof.
  intros Hs Hf. unfold Inliner.imageToDataURL. fold (isSvg p). rewrite Hs.
  now rewrite (processSVG_unreadable _ _ Hf).
Qed.

Lemma imageToDataURL_raster (p bytes : string) :
  isSvg p = false -> file E p = inl bytes ->
  Inliner.imageToDataURL E p
  = (Done (Some (Inliner.rasterDataURL E p bytes)), [FsReadFile p]).
Proof.
  intros Hs Hf. unfold Inliner.imageToDataURL. fold (isSvg p). rewrite Hs.
  unfold readFile. rewrite Hf. reflexivity.
Qed.

Lemma imageToDataURL_raster_unreadable (p message : string) :
  isSvg p = false -> file E p = inr message ->
  Inliner.imageToDataURL E p = (Done (Some p), [FsReadFile p; loadWarning p message]).
Proof.
  intros Hs Hf. unfold Inliner.imageToDataURL. fold (isSvg p). rewrite Hs.
  unfold readFile. rewrite Hf. reflexivity.
Qed.

(** [imageToDataURL] catches what it throws. *)
Lemma imageToDataURL_returns (p : string) :
  exists r t, Inliner.imageToDataURL E p = (Done r, t).
Proof.
  destruct (isSvg p) eqn:Hs; destruct (file E p) as [text|message] eqn:Hf.
  - destruct (JsString.includes text "<svg") eqn:Hi.
    + rewrite (imageToDataURL_svg _ _ Hs Hf Hi). eauto.
    + rewrite (imageToDataURL_svg_invalid _ _ Hs Hf Hi). eauto.
  - rewrite (imageToDataURL_svg_unreadable _ _ Hs Hf). eauto.
  - rewrite (imageToDataURL_raster _ _ Hs Hf). eauto.
  - rewrite (imageToDataURL_raster_unreadable _ _ Hs Hf). eauto.
Qed.

(** The loop body in terms of what [imageToDataURL] returned. *)
Lemma processImage_local (basePath html fullMatch src : string)
    (r : option string) (t : list event) :
  Inliner.isLocal src = true ->
  Inliner.imageToDataURL E (Path.resolve (cwd E) basePath src) = (Done r, t) ->
  Inliner.processImage E basePath html (fullMatch, src)
  = (Done (match r with
           | Some (String c url) => JsString.replace html src (String c url)
           | _ => html
           end), t).
Proof.
  intros Hl Hr. unfold Inliner.processImage. rewrite Hl. cbv zeta. rewrite Hr.
  destruct r as [[|c url]|]; run; now rewrite app_nil_r.
Qed.

Lemma processImage_remote (basePath html fullMatch src : string) :
  Inliner.isLocal src = false ->
  Inliner.processImage E basePath html (fullMatch, src) = (Done html, []).
Proof. intros Hl. unfold Inliner.processImage. now rewrite Hl. Qed.

Lemma processImage_returns (basePath html : string) (m : string * string) :
  exists html' t, Inliner.processImage E basePath html m = (Done html', t).
Proof.
  destruct m as [fullMatch src]. destruct (Inliner.isLocal src) eqn:Hl.
  - destruct (imageToDataURL_returns (Path.resolve (cwd E) basePath src))
      as (r & t & Hr).
    rewrite (processImage_local _ _ _ _ _ _ Hl Hr). eauto.
  - rewrite (processImage_remote _ _ _ _ Hl). eauto.
Qed.

Lemma processImages_step (basePath html html1 : string) (m : string * string)
    (rest : list (string * string)) (t1 : list event) :
  Inliner.processImage E basePath html m = (Done html1, t1) ->
  Inliner.processImages E basePath (m :: rest) html
  = (fst (Inliner.processImages E basePath rest html1),
     (t1 ++ snd (Inliner.processImages E basePath rest html1))%list).
Proof.
  intros H. cbn [Inliner.processImages]. rewrite H. unfold bind.
  destruct (Inliner.processImages E basePath rest html1). reflexivity.
Qed.

Lemma processImages_returns (basePath : string) (images : list (string * string))
    (html : string) :
  exists html', fst (Inliner.processImages E basePath images html) = Done html'.
Proof.
  revert html; induction images as [|m rest IH]; intros html.
  - exists html. reflexivity.
  - destruct (processImage_returns basePath html m) as (html1 & t1 & H1).
    rewrite (processImages_step _ _ _ _ _ _ H1). cbn [fst]. apply IH.
Qed.

(** Remote images and data URLs alone leave the fragment as it is. *)
Lemma processImages_remote (basePath : string) (images : list (string * string))
    (html : string) :
  List.forallb (fun m => negb (Inliner.isLocal (snd m))) images = true ->
  Inliner.processImages E basePath images html = (Done html, []).
Proof.
  induction images as [|[fullMatch src] rest IH]; [reflexivity|].
  cbn [List.forallb snd]. intros H. apply andb_true_iff in H as [Hm Hrest].
  apply negb_true_iff in Hm.
  rewrite (processImages_step _ _ _ _ _ _ (processImage_remote _ _ _ _ Hm)).
  now rewrite (IH Hrest).
Qed.

End InlinerFacts.

(* ================================================================== *)
(** ** The inliner: the properties *)

(** C3 (the code on its failure paths).  The inliner always returns a
    fragment: no image makes it throw or exit.  A local SVG that cannot
    be read, or that holds no [<svg], costs one warning, leaves the
    fragment as it is, and the loop goes on with the remaining images.
    A local image of another extension that cannot be read costs one
    warning and the loop goes on, but its src is not kept: where the src
    is the first occurrence of that text in the fragment and the resolved
    path holds no dollar sign, the src becomes the resolved absolute
    path.  So the src [missing.png] of an absent file in [docs] becomes
    [/home/u/docs/missing.png]. *)
Theorem C3_failed_image_is_not_fatal (E : env)
    (basePath html fullMatch src : string) (rest : list (string * string)) :
  let p := Path.resolve (cwd E) basePath src in
  (exists html', fst (Inliner.processLocalImages E html basePath) = Done html')
  /\ (Inliner.isLocal src = true -> isSvg p = true ->
      forall reason,
        (file E p = inr reason
         \/ (reason = "Not a valid SVG file"
             /\ exists text, file E p = inl text
                             /\ JsString.includes text "<svg" = false)) ->
        Inliner.processImages E basePath ((fullMatch, src) :: rest) html
        = (fst (Inliner.processImages E basePath rest html),
           [FsReadFile p; svgWarning p reason]
           ++ snd (Inliner.processImages E basePath rest html))%list)
  /\ (Inliner.isLocal src = true -> isSvg p = false ->
      forall message before after,
        file E p = inr message ->
        JsString.splitFirst html src = Some (before, after) ->
        JsString.includes p "$" = false ->
        Inliner.processImages E basePath ((fullMatch, src) :: rest) html
        = (fst (Inliner.processImages E basePath rest (before ++ p ++ after)),
           [FsReadFile p; loadWarning p message]
           ++ snd (Inliner.processImages E basePath rest (before ++ p ++ after)))%list)
  /\ (Inliner.processLocalImages (Sample.machine (Sample.img "missing.png"))
        (Sample.img "missing.png") "docs"
      = (Done (Sample.img "/home/u/docs/missing.png"),
         [FsReadFile "/home/u/docs/missing.png";
          loadWarning "/home/u/docs/missing.png"
            (Sample.enoent "/home/u/docs/missing.png")])
      /\ Sample.img "/home/u/docs/missing.png" <> Sample.img "missing.png").
Proof.
  intros p. split; [apply processImages_returns|].
  split; [|split; [|split; [vm_compute; reflexivity | discriminate]]].
  - intros Hl Hs reason Hfail. apply processImages_step.
    assert (Hr : Inliner.imageToDataURL E p
                 = (Done None, [FsReadFile p; svgWarning p reason])).
    { destruct Hfail as [Hf | (-> & text & Hf & Hi)].
      - now apply imageToDataURL_svg_unreadable.
      - now apply imageToDataURL_svg_invalid with (text := text). }
    now rewrite (processImage_local _ _ _ _ _ _ _ Hl Hr).
  - intros Hl Hs message before after Hf Hsplit Hd. apply processImages_step.
    rewrite (processImage_local _ _ _ _ _ _ _ Hl
               (imageToDataURL_raster_unreadable _ _ _ Hs Hf)).
    fold p. assert (Hp : exists c q, p = String c q) by (unfold p, Path.resolve; simpl; eauto).
    destruct Hp as (c & q & Hp).
    replace (match Some p with
             | Some (String c0 url) => JsString.replace html src (String c0 url)
             | _ => html
             end) with (JsString.replace html src p) by (rewrite Hp; reflexivity).
    now rewrite (replace_first _ _ _ _ _ Hsplit Hd).
Qed.

Lemma C3_failed_image_is_not_fatal_witness :
  (let html := Sample.img "bad.svg" ++ Sample.img "a.png" in
   Inliner.processImages (Sample.machine html) "docs"
     [(Sample.img "bad.svg", "bad.svg"); (Sample.img "a.png", "a.png")] html
   = (Done (Sample.img "bad.svg" ++ Sample.img "data:image/png;base64,UE5H"),
      [FsReadFile "/home/u/docs/bad.svg";
       svgWarning "/home/u/docs/bad.svg" "Not a valid SVG file";
       FsReadFile "/home/u/docs/a.png"]))
  /\ (let html := Sample.img "missing.png" ++ Sample.img "a.png" in
      Inliner.processImages (Sample.machine html) "docs"
        [(Sample.img "missing.png", "missing.png"); (Sample.img "a.png", "a.png")] html
      = (Done (Sample.img "/home/u/docs/missing.png"
               ++ Sample.img "data:image/png;base64,UE5H"),
         [FsReadFile "/home/u/docs/missing.png";
          loadWarning "/home/u/docs/missing.png"
            (Sample.enoent "/home/u/docs/missing.png");
          FsReadFile "/home/u/docs/a.png"])).
Proof.
  split; intros html.
  - destruct (C3_failed_image_is_not_fatal (Sample.machine html) "docs" html
                (Sample.img "bad.svg") "bad.svg" [(Sample.img "a.png", "a.png")])
      as (_ & Hsvg & _).
    rewrite (Hsvg eq_refl eq_refl "Not a valid SVG file").
    + vm_compute. reflexivity.
    + right. split; [reflexivity|]. exists "<html></html>". split; reflexivity.
  - destruct (C3_failed_image_is_not_fatal (Sample.machine html) "docs" html
                (Sample.img "missing.png") "missing.png"
                [(Sample.img "a.png", "a.png")])
      as (_ & _ & Hraster & _).
    rewrite (Hraster eq_refl eq_refl (Sample.enoent "/home/u/docs/missing.png")
               ("<img src=" ++ dq)
               (dq ++ " alt=" ++ dq ++ "x" ++ dq ++ ">" ++ Sample.img "a.png")
               eq_refl eq_refl eq_refl).
    vm_compute. reflexivity.
Defined.




(** What holds for a local SVG whose src is the first occurrence of its
    text: the src becomes the percent-encoded text of the file, and
    percent-decoding gives that text back. *)
Lemma svg_first_occurrence (E : env)
    (basePath html fullMatch src text before after : string) :
  let p := Path.resolve (cwd E) basePath src in
  Inliner.isLocal src = true ->
  isSvg p = true ->
  file E p = inl text ->
  JsString.includes text "<svg" = true ->
  JsString.splitFirst html src = Some (before, after) ->
  Inliner.processImage E basePath html (fullMatch, src)
  = (Done (before ++ ("data:image/svg+xml;utf8," ++ Encoding.encodeURIComponent text)
           ++ after), [FsReadFile p])
  /\ Encoding.percentDecode (Encoding.encodeURIComponent text) = Some text.
Proof.
  intros p Hl Hs Hf Hi Hsplit. split; [|apply percentDecode_encodeURIComponent].
  rewrite (processImage_local _ _ _ _ _ _ _ Hl (imageToDataURL_svg _ _ _ Hs Hf Hi)).
  unfold Inliner.svgDataURL. cbn [append].
  rewrite (replace_first _ _ _ _ _ Hsplit); [reflexivity|].
  change (JsString.includes
            ("data:image/svg+xml;utf8," ++ Encoding.encodeURIComponent text) "$" = false).
  apply includes_dollar_append; [reflexivity | apply encodeURIComponent_no_dollar].
Qed.

(** C5 (the data URL, and the code at the failing input).  A local
    SVG that can be read and holds [<svg] gets the data URL
    [data:image/svg+xml;utf8,] followed by the percent-encoded text of
    the file, which percent-decoding gives back; where the src is the
    first occurrence of its text in the fragment, the src becomes that
    URL.  It is not always so: in a paragraph that names [a.svg] before
    it shows it, the data URL replaces the name in the text and the src
    of the image stays [a.svg]. *)
Theorem C5_svg_data_url (E : env)
    (basePath html fullMatch src text before after : string) :
  (let p := Path.resolve (cwd E) basePath src in
   Inliner.isLocal src = true ->
   isSvg p = true ->
   file E p = inl text ->
   JsString.includes text "<svg" = true ->
   Inliner.imageToDataURL E p
   = (Done (Some ("data:image/svg+xml;utf8," ++ Encoding.encodeURIComponent text)),
      [FsReadFile p])
   /\ Encoding.percentDecode (Encoding.encodeURIComponent text) = Some text
   /\ (JsString.splitFirst html src = Some (before, after) ->
       Inliner.processImage E basePath html (fullMatch, src)
       = (Done (before
                ++ ("data:image/svg+xml;utf8," ++ Encoding.encodeURIComponent text)
                ++ after), [FsReadFile p])))
  /\ (Inliner.processLocalImages (Sample.machine Sample.mention) Sample.mention "docs"
      = (Done ("<p>See data:image/svg+xml;utf8,%3Csvg%3E%3C%2Fsvg%3E: "
               ++ Sample.img "a.svg" ++ "</p>"),
         [FsReadFile "/home/u/docs/a.svg"])
      /\ ImgRegex.matchAll Sample.mention = [(Sample.img "a.svg", "a.svg")]
      /\ Encoding.percentDecode "%3Csvg%3E%3C%2Fsvg%3E" = Some "<svg></svg>").
Proof.
  split; [|repeat split; vm_compute; reflexivity].
  intros p Hl Hs Hf Hi. split; [|split].
  - apply (imageToDataURL_svg _ _ _ Hs Hf Hi).
  - apply percentDecode_encodeURIComponent.
  - intros Hsplit.
    apply (svg_first_occurrence E basePath html fullMatch src text before after);
      assumption.
Qed.

Lemma C5_svg_data_url_witness :
  Inliner.processImage (Sample.machine (Sample.img "a.svg")) "docs"
    (Sample.img "a.svg") (Sample.img "a.svg", "a.svg")
  = (Done (Sample.img "data:image/svg+xml;utf8,%3Csvg%3E%3C%2Fsvg%3E"),
     [FsReadFile "/home/u/docs/a.svg"])
  /\ Encoding.percentDecode (Encoding.encodeURIComponent "<svg></svg>")
     = Some "<svg></svg>".
Proof.
  destruct (C5_svg_data_url (Sample.machine (Sample.img "a.svg")) "docs"
              (Sample.img "a.svg") (Sample.img "a.svg") "a.svg" "<svg></svg>"
              ("<img src=" ++ dq) (dq ++ " alt=" ++ dq ++ "x" ++ dq ++ ">"))
    as [Hgeneral _].
  destruct (Hgeneral eq_refl eq_refl eq_refl eq_refl) as (_ & Hdecode & Hstep).
  split; [exact (Hstep eq_refl) | exact Hdecode].
Defined.

(** C7 (the guard, and the code at the failing input).  A fragment all
    of whose images have a src that starts with [http://], [https://] or
    [data:] comes back unchanged, without any file read.  With a local
    image beside them it is not always so: when a remote picture is
    followed by a local one of the same file name, the data URL of the
    local picture lands inside the remote URL, and the local src is left
    as it was. *)
Theorem C7_remote_url_rewritten (E : env) (html basePath : string) :
  (List.forallb (fun m => negb (Inliner.isLocal (snd m))) (ImgRegex.matchAll html)
   = true ->
   Inliner.processLocalImages E html basePath = (Done html, []))
  /\ (Inliner.processLocalImages (Sample.machine Sample.remoteThenLocal)
        Sample.remoteThenLocal "docs"
      = (Done ("<p>" ++ Sample.img "https://example.com/data:image/png;base64,UE5H"
               ++ Sample.img "a.png" ++ "</p>"),
         [FsReadFile "/home/u/docs/a.png"])
      /\ ImgRegex.matchAll Sample.remoteThenLocal
         = [(Sample.img "https://example.com/a.png", "https://example.com/a.png");
            (Sample.img "a.png", "a.png")]
      /\ Inliner.isLocal "https://example.com/a.png" = false).
Proof.
  split; [|repeat split; vm_compute; reflexivity].
  intros H. unfold Inliner.processLocalImages. now apply processImages_remote.
Qed.

Lemma C7_remote_url_rewritten_witness :
  let html := "<p>" ++ Sample.img "https://example.com/a.png"
              ++ Sample.img "data:image/png;base64,UE5H" ++ "</p>" in
  Inliner.processLocalImages (Sample.machine html) html "docs" = (Done html, []).
Proof.
  intros html.
  apply (proj1 (C7_remote_url_rewritten (Sample.machine html) html "docs")).
  vm_compute. reflexivity.
Defined.

(* ================================================================== *)
(** ** The browser on the failure path *)

Section BrowserRelease.

Variable E : env.

Lemma unclosed_app (t u : list event) : unclosed t -> unclosed u -> unclosed (t ++ u).
Proof. unfold unclosed. intros Ht Hu H. apply in_app_or in H. tauto. Qed.

Lemma unclosed_bind {A B} (m : M A) (f : A -> M B) :
  unclosed (snd m) -> (forall a, unclosed (snd (f a))) -> unclosed (snd (bind m f)).
Proof.
  destruct m as [[a|msg|code] t]; simpl; auto.
  intros Ht Hf. specialize (Hf a). destruct (f a). now apply unclosed_app.
Qed.

Lemma unclosed_tryCatch {A} (m : M A) (h : string -> M A) :
  unclosed (snd m) -> (forall message, unclosed (snd (h message))) ->
  unclosed (snd (tryCatch m h)).
Proof.
  destruct m as [[a|msg|code] t]; simpl; auto.
  intros Ht Hh. specialize (Hh msg). destruct (h msg). now apply unclosed_app.
Qed.

(** While the run has not ended normally, what follows a step is only
    looked at when the step returned. *)
Lemma unclosed_step {A B} (m : M A) (f : A -> M B) :
  unclosed (snd m) ->
  (forall a, (forall b, fst (f a) <> Done b) -> unclosed (snd (f a))) ->
  (forall b, fst (bind m f) <> Done b) -> unclosed (snd (bind m f)).
Proof.
  destruct m as [[a|msg|code] t]; simpl; auto.
  intros Ht Hf. specialize (Hf a). destruct (f a) as [o u]. simpl in *.
  intros Hn. apply unclosed_app; auto.
Qed.

Lemma unclosed_readFile (path : string) : unclosed (snd (readFile E path)).
Proof.
  unfold readFile, unclosed, bind, emit. destruct (file E path); simpl;
    intros [H|[]]; discriminate.
Qed.

Lemma unclosed_browser (call : browserCall) :
  call <> Close -> unclosed (snd (browser E call)).
Proof.
  intros Hc. unfold browser, unclosed, bind, emit. destruct (rejects E call); simpl;
    intros [H|[]]; congruence.
Qed.

Lemma unclosed_imageToDataURL (p : string) :
  unclosed (snd (Inliner.imageToDataURL E p)).
Proof.
  unfold unclosed.
  destruct (isSvg p) eqn:Hs; destruct (file E p) as [text|message] eqn:Hf.
  - destruct (JsString.includes text "<svg") eqn:Hi.
    + rewrite (imageToDataURL_svg _ _ _ Hs Hf Hi). simpl. intros [H|[]]; discriminate.
    + rewrite (imageToDataURL_svg_invalid _ _ _ Hs Hf Hi). simpl.
      intros [H|[H|[]]]; discriminate.
  - rewrite (imageToDataURL_svg_unreadable _ _ _ Hs Hf). simpl.
    intros [H|[H|[]]]; discriminate.
  - rewrite (imageToDataURL_raster _ _ _ Hs Hf). simpl. intros [H|[]]; discriminate.
  - rewrite (imageToDataURL_raster_unreadable _ _ _ Hs Hf). simpl.
    intros [H|[H|[]]]; discriminate.
Qed.

Lemma unclosed_processImages (basePath : string) (images : list (string * string))
    (html : string) :
  unclosed (snd (Inliner.processImages E basePath images html)).
Proof.
  revert html; induction images as [|[fullMatch src] rest IH]; intros html.
  - intros [].
  - cbn [Inliner.processImages]. apply unclosed_bind; [|intros a; apply IH].
    destruct (Inliner.isLocal src) eqn:Hl.
    + destruct (imageToDataURL_returns E (Path.resolve (cwd E) basePath src))
        as (r & t & Hr).
      rewrite (processImage_local _ _ _ _ _ _ _ Hl Hr). cbn [snd].
      change t with (snd (Done r, t)). rewrite <- Hr. apply unclosed_imageToDataURL.
    + rewrite (processImage_remote _ _ _ _ _ Hl). intros [].
Qed.

Lemma unclosed_generateHTML (html : string) (o : Main.options) :
  unclosed (snd (Main.generateHTML E html o)).
Proof.
  unfold Main.generateHTML.
  repeat (apply unclosed_bind;
          [ first [ apply unclosed_readFile
                  | unfold resolve; destruct (requireResolve E _); intros [] ]
          | intros ? ]).
  intros [].
Qed.

Ltac step :=
  cbv zeta; cbv beta;
  apply unclosed_step;
  [ first [ apply unclosed_readFile
          | apply unclosed_processImages
          | apply unclosed_generateHTML
          | apply unclosed_browser; discriminate
          | intros [H|[]]; discriminate
          | intros [] ]
  | intros ? ].

(** A conversion that does not end normally has not called
    [browser.close()], unless it is that very call that failed. *)
Lemma failure_leaves_browser (inputPath : string) (o : Main.options) :
  rejects E Close = None ->
  fst (Main.convertMarkdownToPdf E inputPath o) <> Done tt ->
  unclosed (snd (Main.convertMarkdownToPdf E inputPath o)).
Proof.
  intros Hclose Hrun. unfold Main.convertMarkdownToPdf in *.
  match type of Hrun with fst (tryCatch ?b0 ?h0) <> _ =>
    set (body := b0) in *; set (handler := h0) in * end.
  assert (Hbody : forall b, fst body <> Done b).
  { intros [] Hb. apply Hrun. destruct body as [[[]|msg|code] t]; simpl in *;
      congruence. }
  apply unclosed_tryCatch.
  2:{ intros message. subst handler. unfold Main.debugLog.
      intros [H|[H|[]]]; discriminate. }
  clear Hrun handler. revert Hbody. subst body. unfold Main.debugLog.
  repeat step.
  cbv zeta. apply unclosed_step.
  - destruct (negb (JsNumber.eqb (Main.scale o) c1)).
    + apply unclosed_browser. discriminate.
    + intros [].
  - intros ?. step.
    intros Hn. exfalso. unfold browser in Hn. rewrite Hclose in Hn.
    apply (Hn tt). reflexivity.
Qed.

End BrowserRelease.

(** C4 (the code on its failure path).  A conversion that does not end
    normally has not called [browser.close()], unless that very call
    failed; in particular, when loading the page times out, the
    conversion has launched the browser, reports the error and exits
    with status 1 without closing it, whereas the run that succeeds
    closes it. *)
Theorem C4_browser_not_closed_on_failure :
  (forall (E : env) (inputPath : string) (o : Main.options),
      rejects E Close = None ->
      fst (Main.convertMarkdownToPdf E inputPath o) <> Done tt ->
      ~ In (Browser Close) (snd (Main.convertMarkdownToPdf E inputPath o)))
  /\ (let run := Main.action (Sample.stalled Sample.heading)
                   (Sample.invocation None None None "docs/doc.md") in
      fst run = Exited 1
      /\ In (Browser Launch) (snd run)
      /\ ~ In (Browser Close) (snd run)
      /\ In (ConsoleError "Error: Navigation timeout of 30000 ms exceeded") (snd run)
      /\ In (ProcessExit 1) (snd run))
  /\ (let run := Main.action (Sample.machine Sample.heading)
                   (Sample.invocation None None None "docs/doc.md") in
      fst run = Done tt
      /\ In (Browser Launch) (snd run)
      /\ In (Browser Close) (snd run)).
Proof.
  split; [exact failure_leaves_browser|].
  split; cbv zeta;
    match goal with |- context [Main.action ?E ?i] =>
      remember (Main.action E i) as run eqn:Hrun end;
    vm_compute in Hrun; subst run; cbn [fst snd];
    repeat split; try (simpl; tauto).
  simpl. intros H. repeat (destruct H as [H|H]; [discriminate|]). exact H.
Qed.

Lemma C4_browser_not_closed_on_failure_witness :
  let E := Sample.stalled Sample.heading in
  let o := Main.parseOptions (Sample.invocation None None None "docs/doc.md") in
  fst (Main.convertMarkdownToPdf E "docs/doc.md" o) = Exited 1
  /\ ~ In (Browser Close) (snd (Main.convertMarkdownToPdf E "docs/doc.md" o)).
Proof.
  intros E o. split; [vm_compute; reflexivity|].
  apply (proj1 C4_browser_not_closed_on_failure E "docs/doc.md" o).
  - reflexivity.
  - vm_compute. discriminate.
Defined.

(* ================================================================== *)
(** ** Further properties: the arguments of the legacy script *)

Section LegacyArguments.

Variable flag : string.
Variable defaultValue : JsNumber.number.

Lemma startsWith_longer (s : string) (c : ascii) (t : string) :
  JsString.startsWith s (s ++ String c t) = false.
Proof.
  induction s as [|x s IH]; [reflexivity|].
  simpl. now rewrite Ascii.eqb_refl, IH.
Qed.

Lemma getArgValue_skip (arg : string) (rest : list string) :
  mentions flag arg = false ->
  Legacy.getArgValue (arg :: rest) flag defaultValue
  = Legacy.getArgValue rest flag defaultValue.
Proof.
  unfold mentions. intros H. apply orb_false_iff in H as [Hp He].
  cbn [Legacy.getArgValue]. rewrite Hp, He. now destruct rest.
Qed.

Lemma getArgValue_skip_all (pre rest : list string) :
  List.forallb (fun a => negb (mentions flag a)) pre = true ->
  Legacy.getArgValue (pre ++ rest) flag defaultValue
  = Legacy.getArgValue rest flag defaultValue.
Proof.
  induction pre as [|a pre IH]; [reflexivity|].
  cbn [List.forallb]. intros H. apply andb_true_iff in H as [Ha Hpre].
  apply negb_true_iff in Ha. cbn [app].
  rewrite (getArgValue_skip _ _ Ha). now apply IH.
Qed.

Lemma splitFirst_equals (v : string) :
  JsString.includes flag "=" = false ->
  JsString.splitFirst (flag ++ "=" ++ v) "=" = Some (flag, v).
Proof.
  induction flag as [|c f IH]; [reflexivity|].
  intros H. change (JsString.includes (String c f) "=")
    with (JsString.startsWith (String c f) "=" || JsString.includes f "=") in H.
  apply orb_false_iff in H as [Hc Hf].
  cbn [JsString.startsWith] in Hc. rewrite andb_true_r in Hc.
  cbn [append JsString.splitFirst JsString.startsWith]. rewrite Hc.
  cbn [andb]. cbn [append] in IH. rewrite (IH Hf). reflexivity.
Qed.

Lemma span_all (f : ascii -> bool) (v : string) :
  allChars f v = true -> JsString.span f v = (v, EmptyString).
Proof.
  induction v as [|c v IH]; [reflexivity|].
  cbn [allChars JsString.span]. intros H. apply andb_true_iff in H as [Hc Hv].
  now rewrite Hc, (IH Hv).
Qed.

End LegacyArguments.

(** X1.  [getArgValue] gives the default value when no argument is
    [flag=...] or [flag]; a final [flag], with no value after it, also
    gives the default. *)
Theorem X1_getArgValue_default (flag : string) (defaultValue : JsNumber.number)
    (args : list string) :
  List.forallb (fun a => negb (mentions flag a)) args = true ->
  Legacy.getArgValue args flag defaultValue = defaultValue
  /\ Legacy.getArgValue (args ++ [flag]) flag defaultValue = defaultValue.
Proof.
  intros H. split.
  - rewrite <- (app_nil_r args). now rewrite getArgValue_skip_all.
  - rewrite getArgValue_skip_all by exact H.
    cbn [Legacy.getArgValue]. destruct flag as [|c f]; [reflexivity|].
    now rewrite (startsWith_longer (String c f) "=" EmptyString).
Qed.

Lemma X1_getArgValue_default_witness :
  Legacy.getArgValue ["doc.md"; "--font-size"; "14"] "--scale" c1 = c1
  /\ Legacy.getArgValue ["doc.md"; "--font-size"; "14"; "--scale"] "--scale" c1 = c1.
Proof.
  apply (X1_getArgValue_default "--scale" c1 ["doc.md"; "--font-size"; "14"]).
  reflexivity.
Defined.

(** X2.  The first argument that mentions the flag decides, whatever
    follows it: [flag=value] gives [parseFloat(value)] (for a value
    without an equals sign), and [flag] followed by an argument gives
    [parseFloat] of that argument. *)
Theorem X2_getArgValue_first (flag value : string) (defaultValue : JsNumber.number)
    (pre post : list string) :
  List.forallb (fun a => negb (mentions flag a)) pre = true ->
  (JsString.includes flag "=" = false -> allChars notEquals value = true ->
   Legacy.getArgValue (pre ++ (flag ++ "=" ++ value) :: post) flag defaultValue
   = JsNumber.parseFloat value)
  /\ (flag <> EmptyString ->
      Legacy.getArgValue (pre ++ flag :: value :: post) flag defaultValue
      = JsNumber.parseFloat value).
Proof.
  intros Hpre. split.
  - intros Hflag Hvalue. rewrite getArgValue_skip_all by exact Hpre.
    cbn [Legacy.getArgValue].
    replace (JsString.startsWith (flag ++ "=" ++ value) (flag ++ "=")) with true.
    2:{ symmetry. rewrite <- append_assoc. apply startsWith_append. }
    unfold Legacy.afterEquals. rewrite (splitFirst_equals _ _ Hflag).
    fold notEquals. now rewrite (span_all _ _ Hvalue).
  - intros Hne. rewrite getArgValue_skip_all by exact Hpre.
    cbn [Legacy.getArgValue]. destruct flag as [|c f]; [congruence|].
    rewrite (startsWith_longer (String c f) "=" EmptyString).
    now rewrite String.eqb_refl.
Qed.

Lemma X2_getArgValue_first_witness :
  Legacy.getArgValue ["doc.md"; "--scale=0.8"; "--scale"; "2"] "--scale" c1
  = JsNumber.parseFloat "0.8"
  /\ Legacy.getArgValue ["doc.md"; "--scale"; "0.8"; "--scale=2"] "--scale" c1
     = JsNumber.parseFloat "0.8".
Proof.
  destruct (X2_getArgValue_first "--scale" "0.8" c1 ["doc.md"] ["--scale"; "2"] eq_refl)
    as [Hequals _].
  destruct (X2_getArgValue_first "--scale" "0.8" c1 ["doc.md"] ["--scale=2"] eq_refl)
    as [_ Hspace].
  split.
  - apply Hequals; reflexivity.
  - apply Hspace. discriminate.
Defined.

(* ================================================================== *)
(** ** Further properties: the options of [src/index.js] *)

(** X3.  Whatever is given on the command line, the font size handed to
    the conversion is neither NaN nor zero, and the four margins are one
    and the same number, which is neither NaN nor zero: an unparsable or
    zero font size becomes 16, an unparsable or zero margin becomes
    25.4. *)
Theorem X3_options_fall_back (i : Main.invocation) :
  let o := Main.parseOptions i in
  JsNumber.truthy (Main.fontSize o) = true
  /\ (exists x, Main.optMargins o = Main.uniform x /\ JsNumber.truthy x = true)
  /\ (forall v, Main.fontSizeArg i = Some v ->
      JsNumber.truthy (JsNumber.parseInt10 v) = false -> Main.fontSize o = c16)
  /\ (forall v, Main.marginArg i = Some v ->
      JsNumber.truthy (JsNumber.parseFloat v) = false ->
      Main.optMargins o = Main.uniform c25_4).
Proof.
  destruct i as [sa fa ma ia]. unfold Main.parseOptions. cbn.
  split; [|split; [|split]].
  - destruct fa as [v|]; [|reflexivity].
    destruct (JsNumber.truthy (JsNumber.parseInt10 v)) eqn:H; [exact H | reflexivity].
  - destruct ma as [v|]; [|now exists c25_4].
    cbn. destruct (JsNumber.truthy (JsNumber.parseFloat v)) eqn:H.
    + now exists (JsNumber.parseFloat v).
    + now exists c25_4.
  - intros v [= ->] H. now rewrite H.
  - intros v [= ->] H. cbn. now rewrite H.
Qed.

Lemma X3_options_fall_back_witness :
  let o := Main.parseOptions (Sample.invocation None (Some "0") (Some "0") "docs/doc.md") in
  Main.fontSize o = c16 /\ Main.optMargins o = Main.uniform c25_4.
Proof.
  intros o.
  destruct (X3_options_fall_back
              (Sample.invocation None (Some "0") (Some "0") "docs/doc.md"))
    as (_ & _ & Hfont & Hmargin).
  split.
  - apply (Hfont "0"); reflexivity.
  - apply (Hmargin "0"); reflexivity.
Defined.

(* ================================================================== *)
(** ** Further properties: the output path *)

Lemma pdf_is_not_md (a b : string) : a ++ ".pdf" <> b ++ ".md".
Proof.
  revert b; induction a as [|x a IH]; intros b H.
  - destruct b as [|c [|d b]]; cbn in H.
    + congruence.
    + apply (f_equal (JsString.drop 1)) in H. cbn in H. congruence.
    + apply (f_equal String.length) in H.
      cbn in H. rewrite length_append in H. cbn in H. lia.
  - destruct b as [|y b].
    + apply (f_equal String.length) in H. cbn in H.
      rewrite length_append in H. cbn in H. lia.
    + apply (f_equal (JsString.drop 1)) in H. cbn in H. now apply (IH b).
Qed.

(** X4.  The output path never ends in [.md]: the conversion does not
    write to a path with that ending, and computing the output path of
    an output path changes nothing. *)
Theorem X4_output_path_not_md (inputPath : string) :
  (JsString.endsWith inputPath ".md" = true ->
   JsString.endsWith (outputPath inputPath) ".md" = false)
  /\ outputPath (outputPath inputPath) = outputPath inputPath.
Proof.
  assert (Hmd : forall stem, JsString.endsWith (stem ++ ".pdf") ".md" = false).
  { intros stem. destruct (JsString.endsWith (stem ++ ".pdf") ".md") eqn:H;
      [|reflexivity].
    apply endsWith_true in H as [b H]. now apply pdf_is_not_md in H. }
  split.
  - intros H. apply endsWith_true in H as [stem ->].
    rewrite outputPath_md. apply Hmd.
  - destruct (JsString.endsWith inputPath ".md") eqn:H.
    + apply endsWith_true in H as [stem ->]. rewrite outputPath_md.
      apply outputPath_other, Hmd.
    + rewrite (outputPath_other _ H). now apply outputPath_other.
Qed.

Lemma X4_output_path_not_md_witness :
  JsString.endsWith (outputPath "notes.md.md") ".md" = false
  /\ outputPath "notes.md.md" = "notes.md.pdf".
Proof.
  split; [|reflexivity].
  apply (proj1 (X4_output_path_not_md "notes.md.md")). reflexivity.
Defined.

(* ================================================================== *)
(** ** Further properties: traces and outcomes *)

Section TraceFacts.

Variable E : env.

Lemma only_app (P : event -> bool) (t u : list event) :
  only P t -> only P u -> only P (t ++ u).
Proof. unfold only. intros Ht Hu. rewrite forallb_app, Ht, Hu. reflexivity. Qed.

Lemma only_weaken (P Q : event -> bool) (t : list event) :
  (forall e, P e = true -> Q e = true) -> only P t -> only Q t.
Proof.
  unfold only. intros H Ht. rewrite forallb_forall in *. auto.
Qed.

Lemma only_bind {A B} (P : event -> bool) (m : M A) (f : A -> M B) :
  only P (snd m) -> (forall a, only P (snd (f a))) -> only P (snd (bind m f)).
Proof.
  destruct m as [[a|msg|code] t]; simpl; auto.
  intros Ht Hf. specialize (Hf a). destruct (f a). now apply only_app.
Qed.

Lemma only_tryCatch {A} (P : event -> bool) (m : M A) (h : string -> M A) :
  only P (snd m) -> (forall message, only P (snd (h message))) ->
  only P (snd (tryCatch m h)).
Proof.
  destruct m as [[a|msg|code] t]; simpl; auto.
  intros Ht Hh. specialize (Hh msg). destruct (h msg). now apply only_app.
Qed.

Lemma only_readFile (P : event -> bool) (path : string) :
  P (FsReadFile path) = true -> only P (snd (readFile E path)).
Proof.
  intros H. unfold readFile, only, bind, emit.
  destruct (file E path); simpl; now rewrite H.
Qed.

Lemma only_access (P : event -> bool) (path : string) :
  P (FsAccess path) = true -> only P (snd (access E path)).
Proof.
  intros H. unfold access, only, bind, emit.
  destruct (file E path); [| destruct (present E path)]; simpl; now rewrite H.
Qed.

Lemma only_browser (P : event -> bool) (call : browserCall) :
  P (Browser call) = true -> only P (snd (browser E call)).
Proof.
  intros H. unfold browser, only, bind, emit.
  destruct (rejects E call); simpl; now rewrite H.
Qed.

Lemma countEvents_app (P : event -> bool) (t u : list event) :
  countEvents P (t ++ u) = (countEvents P t + countEvents P u)%nat.
Proof. unfold countEvents. now rewrite filter_app, length_app. Qed.

(** One call of [imageToDataURL]: one read, at most one warning, and
    nothing else. *)
Lemma imageToDataURL_trace (p : string) :
  let t := snd (Inliner.imageToDataURL E p) in
  only isReadOrWarning t
  /\ countEvents isRead t = 1%nat
  /\ (countEvents isWarning t <= 1)%nat.
Proof.
  destruct (isSvg p) eqn:Hs; destruct (file E p) as [text|message] eqn:Hf.
  - destruct (JsString.includes text "<svg") eqn:Hi.
    + rewrite (imageToDataURL_svg _ _ _ Hs Hf Hi). unfold only, countEvents, svgWarning, loadWarning; cbn; auto.
    + rewrite (imageToDataURL_svg_invalid _ _ _ Hs Hf Hi). unfold only, countEvents, svgWarning, loadWarning; cbn; auto.
  - rewrite (imageToDataURL_svg_unreadable _ _ _ Hs Hf). unfold only, countEvents, svgWarning, loadWarning; cbn; auto.
  - rewrite (imageToDataURL_raster _ _ _ Hs Hf). unfold only, countEvents, svgWarning, loadWarning; cbn; auto.
  - rewrite (imageToDataURL_raster_unreadable _ _ _ Hs Hf). unfold only, countEvents, svgWarning, loadWarning; cbn; auto.
Qed.

Lemma processImages_trace (basePath : string) (images : list (string * string))
    (html : string) :
  let t := snd (Inliner.processImages E basePath images html) in
  let locals := List.length (List.filter (fun m => Inliner.isLocal (snd m)) images) in
  only isReadOrWarning t
  /\ countEvents isRead t = locals
  /\ (countEvents isWarning t <= locals)%nat.
Proof.
  revert html; induction images as [|[fullMatch src] rest IH]; intros html.
  - unfold only, countEvents; cbn; auto.
  - cbv zeta. cbn [List.filter snd].
    destruct (Inliner.isLocal src) eqn:Hl.
    + destruct (imageToDataURL_returns E (Path.resolve (cwd E) basePath src))
        as (r & t & Hr).
      pose proof (imageToDataURL_trace (Path.resolve (cwd E) basePath src)) as Ht.
      rewrite Hr in Ht. cbn [snd] in Ht. destruct Ht as (Ho & Hc & Hw).
      rewrite (processImages_step _ _ _ _ _ _ _ (processImage_local _ _ _ _ _ _ _ Hl Hr)).
      cbn [snd List.length]. rewrite !countEvents_app, Hc.
      destruct (IH (match r with
                    | Some (String c url) => JsString.replace html src (String c url)
                    | _ => html
                    end)) as (Io & Ic & Iw).
      split; [now apply only_app|]. split; [now rewrite Ic | lia].
    + rewrite (processImages_step _ _ _ _ _ _ _ (processImage_remote _ _ _ _ _ Hl)).
      cbn [snd app]. apply IH.
Qed.

Lemma generateHTML_only (P : event -> bool) (html : string) (o : Main.options) :
  (forall path, P (FsReadFile path) = true) ->
  only P (snd (Main.generateHTML E html o)).
Proof.
  intros H. unfold Main.generateHTML.
  repeat (apply only_bind;
          [ first [ apply only_readFile, H
                  | unfold resolve; destruct (requireResolve E _); reflexivity ]
          | intros ? ]).
  reflexivity.
Qed.

Lemma processLocalImages_only (P : event -> bool) (html basePath : string) :
  (forall e, isReadOrWarning e = true -> P e = true) ->
  only P (snd (Inliner.processLocalImages E html basePath)).
Proof.
  intros H. apply (only_weaken isReadOrWarning); [exact H|].
  apply processImages_trace.
Qed.

End TraceFacts.

(** X5.  The inliner only reads and warns: every event of
    [processLocalImages] is a file read or a warning, it reads exactly
    one file for each match of the image pattern whose src is local
    (also when two matches have the same src), and it warns at most once
    for each of them. *)
Theorem X5_inliner_reads_once_per_image (E : env) (html basePath : string) :
  let t := snd (Inliner.processLocalImages E html basePath) in
  only isReadOrWarning t
  /\ countEvents isRead t = List.length (localImages html)
  /\ (countEvents isWarning t <= List.length (localImages html))%nat.
Proof. apply processImages_trace. Qed.

(* ================================================================== *)
(** ** Further properties: how the programs end *)

Section Outcomes.

Variable E : env.

Lemma noThrow_tryCatch {A} (m : M A) (h : string -> M A) :
  (forall message, noThrow (h message)) -> noThrow (tryCatch m h).
Proof.
  intros Hh msg. destruct m as [[a|msg0|code] t]; cbn; try discriminate.
  specialize (Hh msg0 msg). destruct (h msg0). exact Hh.
Qed.

Lemma noThrow_bind {A B} (m : M A) (f : A -> M B) :
  noThrow m -> (forall a, noThrow (f a)) -> noThrow (bind m f).
Proof.
  intros Hm Hf msg. destruct m as [[a|msg0|code] t]; cbn; try discriminate.
  - specialize (Hf a msg). destruct (f a). exact Hf.
  - intros _. exact (Hm msg0 eq_refl).
Qed.

Lemma exitsWith1_bind {A B} (m : M A) (f : A -> M B) :
  exitsWith1 m -> (forall a, exitsWith1 (f a)) -> exitsWith1 (bind m f).
Proof.
  intros Hm Hf code. destruct m as [[a|msg0|c] t]; cbn; try discriminate.
  - specialize (Hf a code). destruct (f a). exact Hf.
  - intros H. inversion H; subst. exact (Hm code eq_refl).
Qed.

Lemma exitsWith1_tryCatch {A} (m : M A) (h : string -> M A) :
  exitsWith1 m -> (forall message, exitsWith1 (h message)) ->
  exitsWith1 (tryCatch m h).
Proof.
  intros Hm Hh code. destruct m as [[a|msg0|c] t]; cbn; try discriminate.
  - specialize (Hh msg0 code). destruct (h msg0). exact Hh.
  - exact (Hm code).
Qed.

Lemma exitsWith1_readFile (path : string) : exitsWith1 (readFile E path).
Proof. intros code. unfold readFile. destruct (file E path); discriminate. Qed.

Lemma exitsWith1_access (path : string) : exitsWith1 (access E path).
Proof.
  intros code. unfold access.
  destruct (file E path); [| destruct (present E path)]; discriminate.
Qed.

Lemma exitsWith1_browser (call : browserCall) : exitsWith1 (browser E call).
Proof. intros code. unfold browser. destruct (rejects E call); discriminate. Qed.

Lemma exitsWith1_processLocalImages (html basePath : string) :
  exitsWith1 (Inliner.processLocalImages E html basePath).
Proof.
  intros code. unfold Inliner.processLocalImages.
  destruct (processImages_returns E basePath (ImgRegex.matchAll html) html) as [h ->].
  discriminate.
Qed.

Lemma exitsWith1_generateHTML (html : string) (o : Main.options) :
  exitsWith1 (Main.generateHTML E html o).
Proof.
  unfold Main.generateHTML.
  repeat (apply exitsWith1_bind;
          [ first [ apply exitsWith1_readFile
                  | unfold resolve; destruct (requireResolve E _); discriminate ]
          | intros ? ]).
  discriminate.
Qed.

Lemma settled_of {m : M unit} : noThrow m -> exitsWith1 m -> settled (fst m).
Proof.
  intros Hn He. unfold settled. destruct m as [[[]|msg|code] t]; cbn.
  - now left.
  - destruct (Hn msg eq_refl).
  - right. now rewrite (He code eq_refl).
Qed.

Lemma validateMargins_settles (l : list (string * JsNumber.number)) :
  noThrow (Legacy.validateMargins l) /\ exitsWith1 (Legacy.validateMargins l).
Proof.
  induction l as [|[side value] rest [In Ie]]; [split; discriminate|].
  cbn [Legacy.validateMargins].
  destruct (JsNumber.isNaN value || JsNumber.ltb value c0)%bool.
  - split; [discriminate | intros code H; now inversion H].
  - split; [apply noThrow_bind | apply exitsWith1_bind];
      try discriminate; intros ?; assumption.
Qed.

Lemma errorLines_done (l : list string) : fst (Legacy.errorLines l) = Done tt.
Proof.
  induction l as [|x rest IH]; [reflexivity|].
  cbn [Legacy.errorLines]. unfold bind, emit.
  destruct (Legacy.errorLines rest). cbn in *. exact IH.
Qed.

End Outcomes.

Ltac exits :=
  repeat (cbv zeta; cbv beta;
          first [ apply exitsWith1_readFile
                | apply exitsWith1_access
                | apply exitsWith1_browser
                | apply exitsWith1_processLocalImages
                | apply exitsWith1_generateHTML
                | apply exitsWith1_bind; [|intros ?]
                | discriminate
                | match goal with
                  | |- exitsWith1 (if ?b then _ else _) => destruct b
                  | |- exitsWith1 (match ?x with inl _ => _ | inr _ => _ end) =>
                      destruct x
                  end ]).

Lemma main_convert_settles (E : env) (inputPath : string) (o : Main.options) :
  noThrow (Main.convertMarkdownToPdf E inputPath o)
  /\ exitsWith1 (Main.convertMarkdownToPdf E inputPath o).
Proof.
  unfold Main.convertMarkdownToPdf. split.
  - apply noThrow_tryCatch. intros message. discriminate.
  - apply exitsWith1_tryCatch; [| intros message code H; now inversion H].
    unfold Main.debugLog. exits.
Qed.

Lemma legacy_convert_settles (E : env) (inputPath : string)
    (scale fontSize : JsNumber.number) (m : margins) :
  noThrow (Legacy.convertMarkdownToPdf E inputPath scale fontSize m)
  /\ exitsWith1 (Legacy.convertMarkdownToPdf E inputPath scale fontSize m).
Proof.
  unfold Legacy.convertMarkdownToPdf. split.
  - apply noThrow_tryCatch. intros message. discriminate.
  - apply exitsWith1_tryCatch; [| intros message code H; now inversion H].
    apply exitsWith1_bind.
    + apply exitsWith1_tryCatch; [| intros message code H; now inversion H].
      exits.
    + intros _. exits.
Qed.

(** X6.  Neither program lets an exception escape, and neither exits
    with a status other than 1: whatever the files, the arguments and
    the failures of the browser, a run of the command of [src/index.js]
    or of the legacy script ends normally or with [process.exit(1)]. *)
Theorem X6_programs_settle (E : env) (i : Main.invocation) (args : list string) :
  settled (fst (Main.action E i)) /\ settled (fst (Legacy.main E args)).
Proof.
  split.
  - destruct (main_convert_settles E (Main.inputArg i) (Main.parseOptions i)) as [Hn He].
    apply settled_of; unfold Main.action.
    + apply noThrow_bind; [discriminate | intros _; exact Hn].
    + apply exitsWith1_bind; [discriminate | intros _; exact He].
  - apply settled_of; unfold Legacy.main.
    + apply noThrow_bind; [discriminate | intros _].
      destruct args as [|inputPath rest].
      * apply noThrow_bind; [| intros _; discriminate].
        intros message. now rewrite errorLines_done.
      * cbv zeta.
        repeat (apply noThrow_bind;
                [ first [ discriminate
                        | apply validateMargins_settles
                        | match goal with |- noThrow (if ?b then _ else _) =>
                            destruct b; discriminate end ]
                | intros _ ]).
        apply legacy_convert_settles.
    + apply exitsWith1_bind; [discriminate | intros _].
      destruct args as [|inputPath rest].
      * apply exitsWith1_bind; [| intros _ code H; now inversion H].
        intros code. now rewrite errorLines_done.
      * cbv zeta.
        repeat (apply exitsWith1_bind;
                [ first [ discriminate
                        | apply validateMargins_settles
                        | match goal with |- exitsWith1 (if ?b then _ else _) =>
                            destruct b;
                            [ intros code H; now inversion H | discriminate ] end ]
                | intros _ ]).
        apply legacy_convert_settles.
Qed.

(* ================================================================== *)
(** ** Further properties: the files a conversion needs *)

Section Files.

Variable E : env.

Lemma readFile_ok (path content : string) :
  file E path = inl content -> readFile E path = (Done content, [FsReadFile path]).
Proof. intros H. unfold readFile. now rewrite H. Qed.

Lemma readFile_fail (path message : string) :
  file E path = inr message -> readFile E path = (Thrown message, [FsReadFile path]).
Proof. intros H. unfold readFile. now rewrite H. Qed.

Lemma readable_inl (path : string) :
  readable E path = true -> exists content, file E path = inl content.
Proof. unfold readable. destruct (file E path); [eauto | discriminate]. Qed.

Lemma readable_inr (path : string) :
  readable E path = false -> exists message, file E path = inr message.
Proof. unfold readable. destruct (file E path); [discriminate | eauto]. Qed.

Lemma browser_ok (call : browserCall) :
  rejects E call = None -> browser E call = (Done tt, [Browser call]).
Proof. intros H. unfold browser. now rewrite H. Qed.

Lemma bind_done {A B} (m : M A) (f : A -> M B) (a : A) :
  fst m = Done a ->
  bind m f = (fst (f a), (snd m ++ snd (f a))%list).
Proof. destruct m as [[x|msg|code] t]; cbn; intros H; inversion H; subst. now destruct (f a). Qed.

Lemma bind_thrown {A B} (m : M A) (f : A -> M B) (message : string) :
  fst m = Thrown message -> bind m f = (Thrown message, snd m).
Proof. destruct m as [[x|msg|code] t]; cbn; intros H; inversion H; subst. reflexivity. Qed.

Lemma tryCatch_thrown {A} (m : M A) (h : string -> M A) (message : string) :
  fst m = Thrown message ->
  tryCatch m h = (fst (h message), (snd m ++ snd (h message))%list).
Proof. destruct m as [[x|msg|code] t]; cbn; intros H; inversion H; subst. now destruct (h message). Qed.

Lemma tryCatch_done {A} (m : M A) (h : string -> M A) (a : A) :
  fst m = Done a -> tryCatch m h = m.
Proof. destruct m as [[x|msg|code] t]; cbn; intros H; inversion H; subst. reflexivity. Qed.

Lemma bind_in {A B} (m : M A) (f : A -> M B) (e : event) :
  In e (snd m) -> In e (snd (bind m f)).
Proof.
  destruct m as [[a|msg|code] t]; cbn; auto.
  intros H. destruct (f a). apply in_or_app. now left.
Qed.

Lemma bind_in_later {A B} (m : M A) (f : A -> M B) (a : A) (e : event) :
  fst m = Done a -> In e (snd (f a)) -> In e (snd (bind m f)).
Proof. intros H Hf. rewrite (bind_done _ _ _ H). apply in_or_app. now right. Qed.

Lemma tryCatch_in {A} (m : M A) (h : string -> M A) (e : event) :
  In e (snd m) -> In e (snd (tryCatch m h)).
Proof.
  destruct m as [[a|msg|code] t]; cbn; auto.
  intros H. destruct (h msg). apply in_or_app. now left.
Qed.

(** A computation that throws, all of whose events are of class [P]. *)
Lemma throws_bind_first {A B} (P : event -> bool) (m : M A) (f : A -> M B) :
  (exists message, fst m = Thrown message /\ only P (snd m)) ->
  exists message, fst (bind m f) = Thrown message /\ only P (snd (bind m f)).
Proof. intros (msg & H & Ho). exists msg. now rewrite (bind_thrown _ _ _ H). Qed.

Lemma throws_bind_later {A B} (P : event -> bool) (m : M A) (f : A -> M B) (a : A) :
  fst m = Done a -> only P (snd m) ->
  (exists message, fst (f a) = Thrown message /\ only P (snd (f a))) ->
  exists message, fst (bind m f) = Thrown message /\ only P (snd (bind m f)).
Proof.
  intros H Ho (msg & Hf & Hof). exists msg. rewrite (bind_done _ _ _ H).
  split; [assumption | now apply only_app].
Qed.

Lemma throws_readFile (P : event -> bool) (path : string) :
  (forall p, P (FsReadFile p) = true) -> readable E path = false ->
  exists message, fst (readFile E path) = Thrown message
                  /\ only P (snd (readFile E path)).
Proof.
  intros HP H. destruct (readable_inr _ H) as [msg Hf].
  exists msg. rewrite (readFile_fail _ _ Hf). unfold only. cbn. now rewrite HP.
Qed.

Lemma processLocalImages_done (html basePath : string) :
  exists html', fst (Inliner.processLocalImages E html basePath) = Done html'.
Proof. apply processImages_returns. Qed.

Lemma readableModule_inl (name : string) :
  readableModule E name = true ->
  exists path content, requireResolve E name = inl path /\ file E path = inl content.
Proof.
  unfold readableModule. destruct (requireResolve E name) as [path|]; [|discriminate].
  intros H. destruct (readable_inl _ H) as [content F]. eauto.
Qed.

Lemma resolve_ok (name path : string) :
  requireResolve E name = inl path -> resolve E name = ret path.
Proof. intros H. unfold resolve. now rewrite H. Qed.

(** A module style sheet that is not found or cannot be read makes the
    rest of [generateHTML] throw, after reads only. *)
Lemma throws_module {B} (P : event -> bool) (name : string) (k : string -> M B) :
  (forall p, P (FsReadFile p) = true) ->
  readableModule E name = false ->
  exists message,
    fst (path <- resolve E name ;; css <- readFile E path ;; k css) = Thrown message
    /\ only P (snd (path <- resolve E name ;; css <- readFile E path ;; k css)).
Proof.
  intros HP. unfold readableModule, resolve.
  destruct (requireResolve E name) as [path|message]; intros H.
  - rewrite bind_ret. now apply throws_bind_first, throws_readFile.
  - exists message. split; reflexivity.
Qed.

Lemma generateHTML_ok (html : string) (o : Main.options) :
  readable E (customCssPath E) = true ->
  readableModule E "github-markdown-css/github-markdown.css" = true ->
  readableModule E "highlight.js/styles/github.css" = true ->
  exists doc, fst (Main.generateHTML E html o) = Done doc.
Proof.
  intros H1 H2 H3.
  destruct (readable_inl _ H1) as [c1' F1].
  destruct (readableModule_inl _ H2) as (p2 & c2' & R2 & F2).
  destruct (readableModule_inl _ H3) as (p3 & c3' & R3 & F3).
  unfold customCssPath in *.
  unfold Main.generateHTML, resolve. rewrite R2, R3.
  rewrite (bind_done _ _ c1') by now rewrite (readFile_ok _ _ F1).
  cbn [fst]. rewrite bind_ret.
  rewrite (bind_done _ _ c2') by now rewrite (readFile_ok _ _ F2).
  cbn [fst]. rewrite bind_ret.
  rewrite (bind_done _ _ c3') by now rewrite (readFile_ok _ _ F3).
  eexists. reflexivity.
Qed.

Lemma generateHTML_throws (P : event -> bool) (html : string) (o : Main.options) :
  (forall p, P (FsReadFile p) = true) ->
  readable E (customCssPath E)
  && readableModule E "github-markdown-css/github-markdown.css"
  && readableModule E "highlight.js/styles/github.css" = false ->
  exists message, fst (Main.generateHTML E html o) = Thrown message
                  /\ only P (snd (Main.generateHTML E html o)).
Proof.
  intros HP H. unfold Main.generateHTML.
  fold (customCssPath E).
  destruct (readable E (customCssPath E)) eqn:H1;
    [| apply throws_bind_first, throws_readFile; assumption ].
  destruct (readable_inl _ H1) as [c1' F1].
  apply (throws_bind_later _ _ _ c1');
    [now rewrite (readFile_ok _ _ F1) | now apply only_readFile |].
  destruct (readableModule E "github-markdown-css/github-markdown.css") eqn:H2;
    [| now apply throws_module ].
  destruct (readableModule_inl _ H2) as (p2 & c2' & R2 & F2).
  rewrite (resolve_ok _ _ R2), bind_ret.
  apply (throws_bind_later _ _ _ c2');
    [now rewrite (readFile_ok _ _ F2) | now apply only_readFile |].
  cbn in H. now apply throws_module.
Qed.

(** The part of [convertMarkdownToPdf] before the browser is launched
    throws when a file is missing, and has called no browser. *)
Lemma main_unreadable (inputPath : string) (o : Main.options) :
  allReadable E inputPath = false ->
  fst (Main.convertMarkdownToPdf E inputPath o) = Exited 1
  /\ only (fun e => negb (isBrowserEvent e)) (snd (Main.convertMarkdownToPdf E inputPath o)).
Proof.
  intros H. unfold Main.convertMarkdownToPdf.
  set (P := fun e => negb (isBrowserEvent e)).
  match goal with |- fst (tryCatch ?body ?h) = _ /\ _ =>
    assert (exists message, fst body = Thrown message /\ only P (snd body))
      as (msg & Hb & Ho)
  end.
  { cbv zeta. unfold Main.debugLog.
    unfold allReadable in H.
    destruct (readable E inputPath) eqn:H0;
      [| apply throws_bind_first, throws_readFile; [reflexivity | assumption] ].
    destruct (readable_inl _ H0) as [md F0].
    apply (throws_bind_later _ _ _ md);
      [now rewrite (readFile_ok _ _ F0) | now apply only_readFile |].
    apply (throws_bind_later _ _ _ tt); [reflexivity | reflexivity |].
    apply (throws_bind_later _ _ _ tt); [reflexivity | reflexivity |].
    destruct (processLocalImages_done (marked E md) (Path.dirname inputPath))
      as [html' Hi].
    apply (throws_bind_later _ _ _ html');
      [exact Hi | apply processLocalImages_only; now intros [] |].
    apply (throws_bind_later _ _ _ tt); [reflexivity | reflexivity |].
    apply throws_bind_first, generateHTML_throws; [reflexivity|].
    cbn [andb] in H. rewrite <- !andb_assoc in H. cbn [andb] in H.
    now rewrite <- !andb_assoc. }
  rewrite (tryCatch_thrown _ _ _ Hb). cbn [fst snd]. split; [reflexivity|].
  apply only_app; [assumption | reflexivity].
Qed.

Lemma access_readable (path content : string) :
  file E path = inl content -> access E path = (Done tt, [FsAccess path]).
Proof. intros H. unfold access. now rewrite H. Qed.

Lemma access_present (path message : string) :
  file E path = inr message -> present E path = true ->
  access E path = (Done tt, [FsAccess path]).
Proof. intros H Hp. unfold access. now rewrite H, Hp. Qed.

Lemma access_absent (path message : string) :
  file E path = inr message -> present E path = false ->
  access E path = (Thrown message, [FsAccess path]).
Proof. intros H Hp. unfold access. now rewrite H, Hp. Qed.

Lemma legacy_missing_input (inputPath message : string)
    (scale fontSize : JsNumber.number) (m : margins) :
  file E inputPath = inr message -> present E inputPath = false ->
  Legacy.convertMarkdownToPdf E inputPath scale fontSize m
  = (Exited 1,
     [FsAccess inputPath;
      ConsoleError ("Error: Input file " ++ dq ++ inputPath ++ dq ++ " does not exist");
      ProcessExit 1]).
Proof.
  intros H Hp. unfold Legacy.convertMarkdownToPdf.
  rewrite (access_absent _ _ H Hp). reflexivity.
Qed.

Lemma legacy_unreadable_input (inputPath message : string)
    (scale fontSize : JsNumber.number) (m : margins) :
  file E inputPath = inr message -> present E inputPath = true ->
  Legacy.convertMarkdownToPdf E inputPath scale fontSize m
  = (Exited 1,
     [FsAccess inputPath; FsReadFile inputPath;
      ConsoleError ("Error: " ++ message); ProcessExit 1]).
Proof.
  intros H Hp. unfold Legacy.convertMarkdownToPdf.
  rewrite (access_present _ _ H Hp), (readFile_fail _ _ H). reflexivity.
Qed.

Lemma legacy_unreadable (inputPath : string)
    (scale fontSize : JsNumber.number) (m : margins) :
  legacyReadable E inputPath = false ->
  fst (Legacy.convertMarkdownToPdf E inputPath scale fontSize m) = Exited 1
  /\ only (fun e => negb (isBrowserEvent e))
          (snd (Legacy.convertMarkdownToPdf E inputPath scale fontSize m)).
Proof.
  intros H. unfold legacyReadable in H.
  destruct (readable E inputPath) eqn:H0.
  2:{ destruct (readable_inr _ H0) as [msg F0].
      destruct (present E inputPath) eqn:Hp.
      - rewrite (legacy_unreadable_input _ _ _ _ _ F0 Hp). split; reflexivity.
      - rewrite (legacy_missing_input _ _ _ _ _ F0 Hp). split; reflexivity. }
  destruct (readable_inl _ H0) as [md F0]. cbn [andb] in H.
  unfold Legacy.convertMarkdownToPdf. rewrite (access_readable _ _ F0).
  set (P := fun e => negb (isBrowserEvent e)).
  match goal with |- fst (tryCatch ?body ?h) = _ /\ _ =>
    assert (exists message, fst body = Thrown message /\ only P (snd body))
      as (msg & Hb & Ho)
  end.
  { cbv zeta.
    apply (throws_bind_later _ _ _ tt); [reflexivity | reflexivity |].
    apply (throws_bind_later _ _ _ md);
      [now rewrite (readFile_ok _ _ F0) | now apply only_readFile |].
    destruct (processLocalImages_done (marked E md) (Path.dirname inputPath))
      as [html' Hi].
    apply (throws_bind_later _ _ _ html');
      [exact Hi | apply processLocalImages_only; now intros [] |].
    apply throws_bind_first, throws_readFile; [reflexivity | assumption]. }
  rewrite (tryCatch_thrown _ _ _ Hb). cbn [fst snd]. split; [reflexivity|].
  apply only_app; [assumption | reflexivity].
Qed.

End Files.

(** X7.  When the input file cannot be read, both programs exit with
    status 1 after one call of [console.error] and without a browser
    call.  The command of [src/index.js] fails in [fs.readFile].  The
    legacy script asks [fs.access] first: when the path does not exist
    it prints a message of its own that names the path and reads
    nothing; when the path exists but cannot be read (a directory), the
    check passes and the script fails in [fs.readFile], as
    [src/index.js] does. *)
Theorem X7_missing_input (E : env) (inputPath message : string) (o : Main.options)
    (scale fontSize : JsNumber.number) (m : margins) :
  file E inputPath = inr message ->
  (exists text,
      Main.convertMarkdownToPdf E inputPath o
      = (Exited 1, [FsReadFile inputPath; ConsoleError text; ProcessExit 1]))
  /\ (present E inputPath = false ->
      Legacy.convertMarkdownToPdf E inputPath scale fontSize m
      = (Exited 1,
         [FsAccess inputPath;
          ConsoleError ("Error: Input file " ++ dq ++ inputPath ++ dq
                        ++ " does not exist");
          ProcessExit 1]))
  /\ (present E inputPath = true ->
      exists text,
        Legacy.convertMarkdownToPdf E inputPath scale fontSize m
        = (Exited 1,
           [FsAccess inputPath; FsReadFile inputPath; ConsoleError text;
            ProcessExit 1])).
Proof.
  intros H. split; [| split].
  - unfold Main.convertMarkdownToPdf. cbv zeta.
    rewrite (readFile_fail _ _ _ H). eexists. reflexivity.
  - intros Hp. exact (legacy_missing_input E _ _ _ _ _ H Hp).
  - intros Hp. eexists. exact (legacy_unreadable_input E _ _ _ _ _ H Hp).
Qed.

Lemma X7_missing_input_witness :
  let E := Sample.machine Sample.heading in
  let o := Main.parseOptions (Sample.invocation None None None "docs/none.md") in
  (exists text,
      Main.convertMarkdownToPdf E "docs/none.md" o
      = (Exited 1, [FsReadFile "docs/none.md"; ConsoleError text; ProcessExit 1]))
  /\ Legacy.convertMarkdownToPdf E "docs/none.md" c1 c16 (Main.uniform c25_4)
     = (Exited 1,
        [FsAccess "docs/none.md";
         ConsoleError ("Error: Input file " ++ dq ++ "docs/none.md" ++ dq
                       ++ " does not exist");
         ProcessExit 1])
  /\ (exists text,
        Legacy.convertMarkdownToPdf E "docs" c1 c16 (Main.uniform c25_4)
        = (Exited 1,
           [FsAccess "docs"; FsReadFile "docs"; ConsoleError text; ProcessExit 1])).
Proof.
  intros E o.
  destruct (X7_missing_input E "docs/none.md" (Sample.enoent "docs/none.md") o
              c1 c16 (Main.uniform c25_4) eq_refl) as (Hmain & Habsent & _).
  destruct (X7_missing_input E "docs" Sample.eisdir o
              c1 c16 (Main.uniform c25_4) eq_refl) as (_ & _ & Hpresent).
  split; [exact Hmain|]. split; [exact (Habsent eq_refl) | exact (Hpresent eq_refl)].
Defined.

Lemma main_launches (E : env) (inputPath : string) (o : Main.options) :
  allReadable E inputPath = true ->
  In (Browser Launch) (snd (Main.convertMarkdownToPdf E inputPath o)).
Proof.
  unfold allReadable. intros H.
  apply andb_true_iff in H as [H H3]. apply andb_true_iff in H as [H H2].
  apply andb_true_iff in H as [H0 H1].
  destruct (readable_inl _ _ H0) as [md F0].
  unfold Main.convertMarkdownToPdf, Main.debugLog. cbv zeta.
  apply tryCatch_in.
  apply (bind_in_later _ _ md); [now rewrite (readFile_ok _ _ _ F0)|].
  apply (bind_in_later _ _ tt); [reflexivity|].
  apply (bind_in_later _ _ tt); [reflexivity|].
  destruct (processLocalImages_done E (marked E md) (Path.dirname inputPath))
    as [html' Hi].
  apply (bind_in_later _ _ html'); [exact Hi|].
  apply (bind_in_later _ _ tt); [reflexivity|].
  destruct (generateHTML_ok E html' o H1 H2 H3) as [doc Hd].
  apply (bind_in_later _ _ doc); [exact Hd|].
  apply (bind_in_later _ _ tt); [reflexivity|].
  apply bind_in, browser_emits.
Qed.

Lemma legacy_launches (E : env) (inputPath : string)
    (scale fontSize : JsNumber.number) (m : margins) :
  legacyReadable E inputPath = true ->
  In (Browser Launch) (snd (Legacy.convertMarkdownToPdf E inputPath scale fontSize m)).
Proof.
  unfold legacyReadable. intros H. apply andb_true_iff in H as [H0 H1].
  destruct (readable_inl _ _ H0) as [md F0].
  destruct (readable_inl _ _ H1) as [css F1]. unfold customCssPath in F1.
  unfold Legacy.convertMarkdownToPdf. cbv zeta. rewrite (access_readable _ _ _ F0).
  apply tryCatch_in.
  apply (bind_in_later _ _ tt); [reflexivity|].
  apply (bind_in_later _ _ md); [now rewrite (readFile_ok _ _ _ F0)|].
  destruct (processLocalImages_done E (marked E md) (Path.dirname inputPath))
    as [html' Hi].
  apply (bind_in_later _ _ html'); [exact Hi|].
  apply (bind_in_later _ _ css); [now rewrite (readFile_ok _ _ _ F1)|].
  apply bind_in, browser_emits.
Qed.

(** X8.  The browser is launched exactly when the input file and the
    style sheets can be read: the three of [generateHTML] for
    [src/index.js], [styles.css] for the legacy script.  When one of
    them cannot, the run exits with status 1 without a single browser
    call; images that cannot be read do not matter. *)
Theorem X8_browser_needs_the_files (E : env) (inputPath : string) (o : Main.options)
    (scale fontSize : JsNumber.number) (m : margins) :
  let main := Main.convertMarkdownToPdf E inputPath o in
  let legacy := Legacy.convertMarkdownToPdf E inputPath scale fontSize m in
  (allReadable E inputPath = true -> In (Browser Launch) (snd main))
  /\ (allReadable E inputPath = false ->
      fst main = Exited 1 /\ only (fun e => negb (isBrowserEvent e)) (snd main))
  /\ (legacyReadable E inputPath = true -> In (Browser Launch) (snd legacy))
  /\ (legacyReadable E inputPath = false ->
      fst legacy = Exited 1 /\ only (fun e => negb (isBrowserEvent e)) (snd legacy)).
Proof.
  cbv zeta. repeat split.
  - apply main_launches.
  - now apply main_unreadable.
  - now apply main_unreadable.
  - apply legacy_launches.
  - now apply legacy_unreadable.
  - now apply legacy_unreadable.
Qed.

Lemma X8_browser_needs_the_files_witness :
  let E := Sample.machine Sample.heading in
  let o := Main.parseOptions (Sample.invocation None None None "docs/doc.md") in
  In (Browser Launch) (snd (Main.convertMarkdownToPdf E "docs/doc.md" o))
  /\ fst (Main.convertMarkdownToPdf E "docs/none.md" o) = Exited 1
  /\ In (Browser Launch)
        (snd (Legacy.convertMarkdownToPdf E "docs/doc.md" c1 c16 (Main.uniform c25_4)))
  /\ fst (Legacy.convertMarkdownToPdf E "docs/none.md" c1 c16 (Main.uniform c25_4))
     = Exited 1.
Proof.
  intros E o.
  destruct (X8_browser_needs_the_files E "docs/doc.md" o c1 c16 (Main.uniform c25_4))
    as (H1 & _ & H3 & _).
  destruct (X8_browser_needs_the_files E "docs/none.md" o c1 c16 (Main.uniform c25_4))
    as (_ & H2 & _ & H4).
  split; [apply H1; reflexivity|].
  split; [apply H2; reflexivity|].
  split; [apply H3; reflexivity|].
  apply H4; reflexivity.
Defined.

(* ================================================================== *)
(** ** Further properties: runs that end normally *)

Section Success.

Variable E : env.

Lemma bind_fst_done {A B} (m : M A) (f : A -> M B) (a : A) (b : B) :
  fst m = Done a -> fst (f a) = Done b -> fst (bind m f) = Done b.
Proof. intros H Hf. now rewrite (bind_done _ _ _ H). Qed.

Lemma browser_done (call : browserCall) :
  rejects E call = None -> fst (browser E call) = Done tt.
Proof. intros H. now rewrite (browser_ok _ _ H). Qed.

Lemma browser_done_inv (call : browserCall) (u : unit) :
  fst (browser E call) = Done u -> browser E call = (Done tt, [Browser call]).
Proof.
  unfold browser. destruct (rejects E call); [discriminate | reflexivity].
Qed.

Lemma tryCatch_done_inv {A} (m : M A) (h : string -> M A) (a : A) :
  (forall message, fst (h message) <> Done a) ->
  fst (tryCatch m h) = Done a -> tryCatch m h = m.
Proof.
  intros Hh. destruct m as [[x|msg|code] t]; cbn; try reflexivity.
  specialize (Hh msg). destruct (h msg). cbn in *. intros H. now destruct Hh.
Qed.

(** The events of a computation that ends normally end with [suffix],
    with no [browser.close()] before it, when those of its continuation
    do. *)
Lemma bind_ends_with {A B} (m : M A) (f : A -> M B) (b : B) (suffix : list event) :
  unclosed (snd m) ->
  (forall a, fst (f a) = Done b ->
             exists t, snd (f a) = (t ++ suffix)%list /\ unclosed t) ->
  fst (bind m f) = Done b ->
  exists t, snd (bind m f) = (t ++ suffix)%list /\ unclosed t.
Proof.
  intros Hm Hf H. destruct (bind_done_inv _ _ _ H) as (a & _ & Ha & ->).
  destruct (Hf a Ha) as (t & -> & Ht).
  exists (snd m ++ t)%list. split; [now rewrite app_assoc | now apply unclosed_app].
Qed.

Lemma unclosed_access (path : string) : unclosed (snd (access E path)).
Proof.
  unfold access, unclosed, bind, emit.
  destruct (file E path); [| destruct (present E path)]; simpl;
    intros [H|[]]; discriminate.
Qed.

Lemma unclosed_scale (scale : JsNumber.number) :
  unclosed (snd (if negb (JsNumber.eqb scale c1)
                 then browser E (ApplyScale scale) else ret tt)).
Proof.
  destruct (negb (JsNumber.eqb scale c1)); [| intros []].
  apply unclosed_browser. discriminate.
Qed.

Lemma closing_steps (path : string) (m : margins) (k : M unit)
    (report : list event) (u : unit) :
  k = (Done tt, report) ->
  fst (browser E (pdfCall path m) ;;; browser E Close ;;; k) = Done u ->
  exists t,
    snd (browser E (pdfCall path m) ;;; browser E Close ;;; k)
    = (t ++ Browser (pdfCall path m) :: Browser Close :: report)%list
    /\ unclosed t.
Proof.
  intros ->. unfold browser.
  destruct (rejects E (pdfCall path m)); [discriminate|].
  destruct (rejects E Close); [discriminate|].
  intros _. exists []. split; [reflexivity | intros []].
Qed.

End Success.

Ltac to_the_end :=
  repeat (cbv zeta; cbv beta;
          lazymatch goal with
          | |- fst (bind (browser _ (pdfCall _ _)) _) = _ -> _ => fail
          | |- _ => idtac
          end;
          apply bind_ends_with;
          [ first [ apply unclosed_readFile
                  | apply unclosed_processImages
                  | apply unclosed_generateHTML
                  | apply unclosed_scale
                  | apply unclosed_browser; discriminate
                  | intros [H|[]]; discriminate
                  | intros [] ]
          | intros ? ]).

(** X9.  A conversion that ends normally has closed the browser exactly
    once: its last four events are the [page.pdf] call for
    [outputPath inputPath], [browser.close()] and the two lines of the
    report, and there is no [browser.close()] before them. *)
Theorem X9_success_ends_with_close (E : env) (inputPath : string)
    (o : Main.options) (scale fontSize : JsNumber.number) (m : margins) :
  let created := ConsoleLog ("PDF created successfully at: " ++ outputPath inputPath) in
  (fst (Main.convertMarkdownToPdf E inputPath o) = Done tt ->
   exists t,
     snd (Main.convertMarkdownToPdf E inputPath o)
     = (t ++ [Browser (pdfCall (outputPath inputPath) (Main.optMargins o));
              Browser Close; created;
              ConsoleLog (settingsUsed (Main.scale o) (Main.fontSize o)
                                       (Main.optMargins o))])%list
     /\ ~ In (Browser Close) t)
  /\ (fst (Legacy.convertMarkdownToPdf E inputPath scale fontSize m) = Done tt ->
      exists t,
        snd (Legacy.convertMarkdownToPdf E inputPath scale fontSize m)
        = (t ++ [Browser (pdfCall (outputPath inputPath) m); Browser Close; created;
                 ConsoleLog (settingsUsed scale fontSize m)])%list
        /\ ~ In (Browser Close) t).
Proof.
  cbv zeta. split; intros H.
  - unfold Main.convertMarkdownToPdf in *.
    match type of H with fst (tryCatch ?body ?h) = _ =>
      assert (Hb : tryCatch body h = body)
        by (apply (tryCatch_done_inv _ _ tt); [intros message; discriminate | exact H])
    end.
    rewrite Hb in *. clear Hb.
    revert H. unfold Main.debugLog. to_the_end.
    apply closing_steps. reflexivity.
  - unfold Legacy.convertMarkdownToPdf in *.
    match type of H with fst (tryCatch ?body ?h) = _ =>
      assert (Hb : tryCatch body h = body)
        by (apply (tryCatch_done_inv _ _ tt); [intros message; discriminate | exact H])
    end.
    rewrite Hb in *. clear Hb.
    revert H. apply bind_ends_with.
    + apply unclosed_tryCatch.
      * apply unclosed_access.
      * intros message [H|[H|[]]]; discriminate.
    + intros _. to_the_end.
      apply closing_steps. reflexivity.
Qed.

Lemma X9_success_ends_with_close_witness :
  let E := Sample.machine Sample.heading in
  let o := Main.parseOptions (Sample.invocation None None None "docs/doc.md") in
  exists t,
    snd (Main.convertMarkdownToPdf E "docs/doc.md" o)
    = (t ++ [Browser (pdfCall "docs/doc.pdf" (Main.uniform c25_4)); Browser Close;
             ConsoleLog "PDF created successfully at: docs/doc.pdf";
             ConsoleLog (settingsUsed c1 c16 (Main.uniform c25_4))])%list
    /\ ~ In (Browser Close) t.
Proof.
  intros E o.
  apply (proj1 (X9_success_ends_with_close E "docs/doc.md" o c1 c16 (Main.uniform c25_4))).
  vm_compute. reflexivity.
Defined.

Ltac succeed H :=
  repeat (cbv zeta; cbv beta;
          first [ apply (bind_fst_done _ _ tt);
                  [ first [ reflexivity
                          | apply browser_done, H
                          | match goal with
                            | |- fst (if ?b then _ else _) = _ =>
                                destruct b; [apply browser_done, H | reflexivity]
                            end ]
                  | ]
                | reflexivity ]).

(** X10.  On a machine where no browser call fails, a conversion ends
    normally exactly when the input file and the style sheets can be
    read.  Nothing else can make it fail: not an image that is missing,
    not the options. *)
Theorem X10_success_iff_files (E : env) (inputPath : string) (o : Main.options)
    (scale fontSize : JsNumber.number) (m : margins) :
  (forall call, rejects E call = None) ->
  (fst (Main.convertMarkdownToPdf E inputPath o) = Done tt
   <-> allReadable E inputPath = true)
  /\ (fst (Legacy.convertMarkdownToPdf E inputPath scale fontSize m) = Done tt
      <-> legacyReadable E inputPath = true).
Proof.
  intros Hr. split; split.
  - intros H. destruct (allReadable E inputPath) eqn:Ha; [reflexivity|].
    destruct (main_unreadable E inputPath o Ha) as [Hx _]. congruence.
  - unfold allReadable. intros H.
    apply andb_true_iff in H as [H H3]. apply andb_true_iff in H as [H H2].
    apply andb_true_iff in H as [H0 H1].
    destruct (readable_inl _ _ H0) as [md F0].
    unfold Main.convertMarkdownToPdf, Main.debugLog. cbv zeta.
    match goal with |- fst (tryCatch ?body ?h) = _ =>
      enough (Hb : fst body = Done tt) by (now rewrite (tryCatch_done _ _ _ Hb))
    end.
    apply (bind_fst_done _ _ md); [now rewrite (readFile_ok _ _ _ F0)|].
    apply (bind_fst_done _ _ tt); [reflexivity|].
    apply (bind_fst_done _ _ tt); [reflexivity|].
    destruct (processLocalImages_done E (marked E md) (Path.dirname inputPath))
      as [html' Hi].
    apply (bind_fst_done _ _ html'); [exact Hi|].
    apply (bind_fst_done _ _ tt); [reflexivity|].
    destruct (generateHTML_ok E html' o H1 H2 H3) as [doc Hd].
    apply (bind_fst_done _ _ doc); [exact Hd|].
    succeed Hr.
  - intros H. destruct (legacyReadable E inputPath) eqn:Ha; [reflexivity|].
    destruct (legacy_unreadable E inputPath scale fontSize m Ha) as [Hx _]. congruence.
  - unfold legacyReadable. intros H. apply andb_true_iff in H as [H0 H1].
    destruct (readable_inl _ _ H0) as [md F0].
    destruct (readable_inl _ _ H1) as [css F1]. unfold customCssPath in F1.
    unfold Legacy.convertMarkdownToPdf. cbv zeta. rewrite (access_readable _ _ _ F0).
    match goal with |- fst (tryCatch ?body ?h) = _ =>
      enough (Hb : fst body = Done tt) by (now rewrite (tryCatch_done _ _ _ Hb))
    end.
    apply (bind_fst_done _ _ tt); [reflexivity|].
    apply (bind_fst_done _ _ md); [now rewrite (readFile_ok _ _ _ F0)|].
    destruct (processLocalImages_done E (marked E md) (Path.dirname inputPath))
      as [html' Hi].
    apply (bind_fst_done _ _ html'); [exact Hi|].
    apply (bind_fst_done _ _ css); [now rewrite (readFile_ok _ _ _ F1)|].
    succeed Hr.
Qed.

Lemma X10_success_iff_files_witness :
  let E := Sample.machine (Sample.img "missing.png") in
  let o := Main.parseOptions (Sample.invocation None None None "docs/doc.md") in
  fst (Main.convertMarkdownToPdf E "docs/doc.md" o) = Done tt
  /\ fst (Legacy.convertMarkdownToPdf E "docs/doc.md" c1 c16 (Main.uniform c25_4))
     = Done tt.
Proof.
  intros E o.
  destruct (X10_success_iff_files E "docs/doc.md" o c1 c16 (Main.uniform c25_4))
    as [H1 H2]; [reflexivity|].
  split; [apply H1 | apply H2]; reflexivity.
Defined.

(* ================================================================== *)
(** ** Further properties: files first, browser second *)

Section Phases.

Variable E : env.

Lemma phased_first {A B} (m : M A) (f : A -> M B) :
  only (fun e => negb (isBrowserEvent e)) (snd m) ->
  (forall a, phased (snd (f a))) -> phased (snd (bind m f)).
Proof.
  intros Hm Hf. destruct m as [[a|msg|code] t]; cbn in *.
  - destruct (Hf a) as (t1 & t2 & H & H1 & H2). destruct (f a) as [o u].
    cbn in *. subst u. exists (t ++ t1)%list, t2.
    split; [now rewrite app_assoc | split; [now apply only_app | assumption]].
  - exists t, []. split; [now rewrite app_nil_r | split; [assumption | reflexivity]].
  - exists t, []. split; [now rewrite app_nil_r | split; [assumption | reflexivity]].
Qed.

Lemma phased_second (t : list event) :
  only (fun e => negb (isFsCall e)) t -> phased t.
Proof. intros H. exists [], t. split; [reflexivity | split; [reflexivity | assumption]]. Qed.

Lemma phased_tryCatch {A} (m : M A) (h : string -> M A) :
  phased (snd m) ->
  (forall message, only (fun e => negb (isFsCall e)) (snd (h message))) ->
  phased (snd (tryCatch m h)).
Proof.
  intros Hm Hh. destruct m as [[a|msg|code] t]; cbn in *; try assumption.
  specialize (Hh msg). destruct (h msg) as [o u]. cbn in *.
  destruct Hm as (t1 & t2 & -> & H1 & H2). exists t1, (t2 ++ u)%list.
  split; [now rewrite app_assoc | split; [assumption | now apply only_app]].
Qed.

Lemma only_scale (P : event -> bool) (scale : JsNumber.number) :
  (forall call, P (Browser call) = true) ->
  only P (snd (if negb (JsNumber.eqb scale c1)
               then browser E (ApplyScale scale) else ret tt)).
Proof.
  intros H. destruct (negb (JsNumber.eqb scale c1)); [| reflexivity].
  apply only_browser, H.
Qed.

End Phases.

Ltac browsing :=
  repeat (cbv zeta; cbv beta;
          first [ apply only_browser; reflexivity
                | apply only_scale; reflexivity
                | reflexivity
                | apply only_bind; [| intros ?] ]).

(** X11.  Every run works in two phases: all the calls of the program
    on [fs] ([fs.access] and [fs.readFile], for the input, the images
    and the style sheets) come before the first browser call.  What
    touches a file after the launch is the browser alone: [page.pdf]
    writes the output file. *)
Theorem X11_fs_calls_before_browser (E : env) (inputPath : string) (o : Main.options)
    (scale fontSize : JsNumber.number) (m : margins) :
  phased (snd (Main.convertMarkdownToPdf E inputPath o))
  /\ phased (snd (Legacy.convertMarkdownToPdf E inputPath scale fontSize m)).
Proof.
  split.
  - unfold Main.convertMarkdownToPdf, Main.debugLog.
    apply phased_tryCatch; [| intros message; reflexivity].
    cbv zeta.
    apply phased_first; [now apply only_readFile | intros ?].
    apply phased_first; [reflexivity | intros ?].
    apply phased_first; [reflexivity | intros ?].
    apply phased_first; [apply processLocalImages_only; now intros [] | intros ?].
    apply phased_first; [reflexivity | intros ?].
    apply phased_first; [now apply generateHTML_only | intros ?].
    apply phased_second. browsing.
  - unfold Legacy.convertMarkdownToPdf.
    apply phased_tryCatch; [| intros message; reflexivity].
    cbv zeta.
    apply phased_first.
    { apply only_tryCatch; [| intros message; reflexivity].
      now apply only_access. }
    intros _.
    apply phased_first; [now apply only_readFile | intros ?].
    apply phased_first; [apply processLocalImages_only; now intros [] | intros ?].
    apply phased_first; [now apply only_readFile | intros ?].
    apply phased_second. browsing.
Qed.

(* ================================================================== *)
(** ** Further properties: the image pattern *)

Section Pattern.

Lemma span_spec (f : ascii -> bool) (s a b : string) :
  JsString.span f s = (a, b) ->
  s = a ++ b /\ allChars f a = true
  /\ (forall c b', b = String c b' -> f c = false).
Proof.
  revert a b; induction s as [|c s IH]; intros a b; cbn [JsString.span].
  - intros H. inversion H; subst. repeat split. discriminate.
  - destruct (f c) eqn:Hc.
    + destruct (JsString.span f s) as [a' b'] eqn:Hs. intros H. inversion H; subst.
      destruct (IH a' b eq_refl) as (-> & Ha & Hb).
      repeat split; [cbn; now rewrite Hc | exact Hb].
    + intros H. inversion H; subst. repeat split.
      intros c' b'' Hx. inversion Hx; subst. exact Hc.
Qed.

Lemma take_whole (a b : string) : JsString.take (String.length a) (a ++ b) = a.
Proof. induction a as [|c a IH]; cbn; [now destruct b | now rewrite IH]. Qed.

Lemma allChars_append (f : ascii -> bool) (a b : string) :
  allChars f (a ++ b) = allChars f a && allChars f b.
Proof. induction a as [|c a IH]; cbn; [reflexivity | now rewrite IH, andb_assoc]. Qed.

Lemma notGt_false (c : ascii) : ImgRegex.notGt c = false -> c = ">"%char.
Proof.
  unfold ImgRegex.notGt. intros H. apply negb_false_iff in H.
  now apply Ascii.eqb_eq.
Qed.

Lemma notQuote_false (c : ascii) :
  ImgRegex.notQuote c = false -> ImgRegex.isQuote c = true.
Proof. unfold ImgRegex.notQuote. apply negb_false_iff. Qed.

Ltac first_char H t c :=
  destruct t as [|c t]; [discriminate H|];
  destruct c as [[] [] [] [] [] [] [] []]; try discriminate H.

Lemma attribute_spec (t group : string) (n : nat) :
  ImgRegex.attribute t = Some (group, n) ->
  exists word rest,
    t = word ++ rest /\ srcAttribute word group /\ n = String.length word.
Proof.
  intros H.
  first_char H t ipattern:(c0). first_char H t ipattern:(c1).
  first_char H t ipattern:(c2). first_char H t ipattern:(c3).
  destruct t as [|q t1]; [discriminate|].
  cbn [ImgRegex.attribute] in H.
  destruct (ImgRegex.isQuote q) eqn:Hq; [|discriminate].
  destruct (JsString.span ImgRegex.notQuote t1) as [g t2] eqn:Hg.
  destruct g as [|g0 g]; [discriminate|].
  destruct t2 as [|q2 t3]; [discriminate|].
  destruct (JsString.span ImgRegex.notGt t3) as [tail t4] eqn:Ht.
  destruct t4 as [|c4 t5]; [discriminate|].
  inversion H; subst; clear H.
  destruct (span_spec _ _ _ _ Hg) as (-> & Hga & Hgq).
  destruct (span_spec _ _ _ _ Ht) as (-> & Hta & Htq).
  pose proof (notGt_false _ (Htq _ _ eq_refl)) as ->.
  exists ("src=" ++ String q (String g0 g ++ String q2 (tail ++ ">"))), t5.
  split; [| split].
  - cbn [append]. do 5 f_equal. rewrite !append_assoc. cbn [append].
    do 2 f_equal. rewrite !append_assoc. reflexivity.
  - exists q, q2, tail.
    repeat split; try assumption; [| discriminate].
    apply notQuote_false, (Hgq _ _ eq_refl).
  - cbn [append String.length]. rewrite !length_append. cbn [String.length].
    rewrite !length_append. cbn [String.length]. lia.
Qed.

Lemma afterRun_spec (t : string) :
  forall (j : nat) (group : string) (n : nat),
  ImgRegex.afterRun t j = Some (group, n) ->
  exists run word rest,
    t = run ++ word ++ rest
    /\ allChars ImgRegex.notGt run = true
    /\ (0 < j + String.length run)%nat
    /\ srcAttribute word group
    /\ n = (j + String.length run + String.length word)%nat.
Proof.
  assert (Hhere : forall t j group n,
             match j, ImgRegex.attribute t with
             | S _, Some (g, k) => Some (g, (j + k)%nat)
             | _, _ => None
             end = Some (group, n) ->
             exists run word rest,
               t = run ++ word ++ rest
               /\ allChars ImgRegex.notGt run = true
               /\ (0 < j + String.length run)%nat
               /\ srcAttribute word group
               /\ n = (j + String.length run + String.length word)%nat).
  { intros u j group n H. destruct j as [|j]; [discriminate|].
    destruct (ImgRegex.attribute u) as [[g k]|] eqn:Ha; [|discriminate].
    inversion H; subst; clear H.
    destruct (attribute_spec _ _ _ Ha) as (word & rest & -> & Hw & ->).
    exists EmptyString, word, rest. cbn [append String.length].
    repeat split; [lia | assumption | lia]. }
  induction t as [|c t IH]; intros j group n; cbn [ImgRegex.afterRun]; cbv zeta.
  - apply Hhere.
  - destruct (ImgRegex.notGt c) eqn:Hc; [| apply Hhere].
    destruct (ImgRegex.afterRun t (S j)) as [[g k]|] eqn:Hr; [| apply Hhere].
    intros H. inversion H; subst; clear H.
    destruct (IH _ _ _ Hr) as (run & word & rest & -> & Hrun & _ & Hw & ->).
    exists (String c run), word, rest. cbn [append String.length allChars].
    rewrite Hc, Hrun. repeat split; [lia | assumption | lia].
Qed.

Lemma matchHere_spec (s full group : string) :
  ImgRegex.matchHere s = Some (full, group) ->
  imgMatch full group /\ exists rest, s = full ++ rest.
Proof.
  intros H.
  first_char H s ipattern:(c0). first_char H s ipattern:(c1).
  first_char H s ipattern:(c2). first_char H s ipattern:(c3).
  cbn [ImgRegex.matchHere] in H.
  destruct (ImgRegex.afterRun s 0) as [[g n]|] eqn:Ha; [|discriminate].
  inversion H; subst; clear H.
  destruct (afterRun_spec _ _ _ _ Ha) as (run & word & rest & -> & Hrun & Hj & Hw & ->).
  cbn [Nat.add JsString.take].
  replace (run ++ word ++ rest) with ((run ++ word) ++ rest)
    by now rewrite append_assoc.
  rewrite <- length_append, take_whole. split.
  - exists run, word. repeat split; try assumption.
    destruct run; [cbn in Hj; lia | discriminate].
  - exists rest. reflexivity.
Qed.

Lemma matchAllFrom_spec (s : string) :
  forall (skip : nat) (full group : string),
  In (full, group) (ImgRegex.matchAllFrom s skip) ->
  imgMatch full group /\ exists before after, s = before ++ full ++ after.
Proof.
  induction s as [|c s IH]; intros skip full group; [intros []|].
  assert (Hnext : forall k, In (full, group) (ImgRegex.matchAllFrom s k) ->
                  imgMatch full group
                  /\ exists before after, String c s = before ++ full ++ after).
  { intros k H. destruct (IH _ _ _ H) as (Hm & before & after & ->).
    split; [assumption|]. now exists (String c before), after. }
  cbn [ImgRegex.matchAllFrom].
  destruct skip as [|k]; [| apply Hnext].
  destruct (ImgRegex.matchHere (String c s)) as [[f g]|] eqn:Hh; [| apply Hnext].
  intros [H|H]; [| exact (Hnext _ H)].
  inversion H; subst; clear H.
  destruct (matchHere_spec _ _ _ Hh) as (Hm & rest & Hs).
  split; [assumption|]. exists EmptyString, rest. exact Hs.
Qed.

Lemma matchHere_head (s : string) (r : string * string) :
  ImgRegex.matchHere s = Some r -> JsString.startsWith s "<img" = true.
Proof.
  destruct r as [full group]. intros H.
  destruct (matchHere_spec _ _ _ H) as ((run & word & _ & _ & _ & ->) & rest & ->).
  rewrite append_assoc. apply startsWith_append.
Qed.

Lemma matchAllFrom_none (s : string) :
  JsString.includes s "<img" = false ->
  forall skip, ImgRegex.matchAllFrom s skip = [].
Proof.
  induction s as [|c s IH]; intros H skip; [reflexivity|].
  cbn [JsString.includes] in H. apply orb_false_iff in H as [Hh Hs].
  cbn [ImgRegex.matchAllFrom]. destruct skip as [|k]; [| now apply IH].
  destruct (ImgRegex.matchHere (String c s)) as [r|] eqn:Hm; [| now apply IH].
  rewrite (matchHere_head _ _ Hm) in Hh. discriminate.
Qed.

Lemma srcAttribute_includes (word src : string) :
  srcAttribute word src -> exists a b, word = a ++ src ++ b.
Proof.
  intros (q1 & q2 & tail & _ & _ & _ & _ & _ & ->).
  exists ("src=" ++ String q1 EmptyString), (String q2 (tail ++ ">")).
  reflexivity.
Qed.

End Pattern.

(** X12.  What the image pattern finds: every match is a literal piece
    of the document of the shape [<img], a run of characters other than
    [>], [src=], a quote, the src, a quote (not necessarily the same
    one) and the rest of the tag up to the first [>]; the src is not
    empty, holds no quote and occurs in the document.  A document
    without the text [<img] has no match. *)
Theorem X12_matches_are_image_tags (html fullMatch src : string) :
  (In (fullMatch, src) (ImgRegex.matchAll html) ->
   imgMatch fullMatch src
   /\ (exists before after, html = before ++ fullMatch ++ after)
   /\ JsString.includes html src = true)
  /\ (JsString.includes html "<img" = false -> ImgRegex.matchAll html = []).
Proof.
  split.
  - intros H. destruct (matchAllFrom_spec _ _ _ _ H) as (Hm & before & after & Hs).
    split; [assumption|]. split; [now exists before, after|].
    destruct Hm as (run & word & _ & _ & Hw & ->).
    destruct (srcAttribute_includes _ _ Hw) as (a & b & ->).
    subst html.
    replace (before ++ ("<img" ++ run ++ a ++ src ++ b) ++ after)
      with ((before ++ "<img" ++ run ++ a) ++ src ++ (b ++ after)).
    + apply includes_append.
    + rewrite !append_assoc. reflexivity.
  - intros H. now apply matchAllFrom_none.
Qed.

Lemma X12_matches_are_image_tags_witness :
  imgMatch (Sample.img "a.svg") "a.svg"
  /\ (exists before after, Sample.mention = before ++ Sample.img "a.svg" ++ after)
  /\ JsString.includes Sample.mention "a.svg" = true.
Proof.
  apply (proj1 (X12_matches_are_image_tags Sample.mention (Sample.img "a.svg") "a.svg")).
  vm_compute. left. reflexivity.
Defined.

(* ================================================================== *)
(** ** Further properties: the characters of a data URL *)

Section DataUrl.

Lemma safe_bytes (c : ascii) :
  let n := nat_of_ascii c in
  doubleQuotedSafe (Encoding.hexDigit (n / 16)) = true
  /\ doubleQuotedSafe (Encoding.hexDigit (n mod 16)) = true
  /\ (Encoding.unreserved c = true -> doubleQuotedSafe c = true).
Proof.
  destruct c as [[] [] [] [] [] [] [] []]; vm_compute;
    repeat split; intros; try reflexivity; discriminate.
Qed.

Lemma safe_sextets (x : Encoding.sextet) :
  doubleQuotedSafe (Encoding.charOfSextet x) = true.
Proof. destruct x as [[[[[[] []] []] []] []] []]; reflexivity. Qed.

Lemma encodeURIComponent_safe (s : string) :
  allChars doubleQuotedSafe (Encoding.encodeURIComponent s) = true.
Proof.
  induction s as [|c s IH]; [reflexivity|].
  destruct (safe_bytes c) as (Hh & Hl & Hu).
  cbn [Encoding.encodeURIComponent].
  destruct (Encoding.unreserved c) eqn:U; cbn [allChars].
  - now rewrite (Hu eq_refl), IH.
  - now rewrite Hh, Hl, IH.
Qed.

Lemma base64_safe (bytes : list ascii) :
  allChars doubleQuotedSafe (Encoding.base64 bytes) = true.
Proof.
  induction bytes as [| [] | [] [] | [] [] [] l IH] using list_ind3;
    cbn [Encoding.base64 allChars]; rewrite ?safe_sextets, ?IH; reflexivity.
Qed.

End DataUrl.

Lemma encodeURIComponent_keeps_apostrophe (s : string) :
  JsString.includes s "'" = true ->
  JsString.includes (Encoding.encodeURIComponent s) "'" = true.
Proof.
  induction s as [|c s IH]; [discriminate|].
  cbn [JsString.includes JsString.startsWith]. rewrite andb_true_r.
  cbn [Encoding.encodeURIComponent].
  destruct (Ascii.eqb_spec c "'") as [->|Hc].
  - intros _. reflexivity.
  - cbn [orb]. intros H. specialize (IH H).
    destruct (Encoding.unreserved c); repeat apply includes_cons; exact IH.
Qed.

(** X13.  The data URL that replaces a src holds no double quote, no
    angle bracket and no space, so inside a double-quoted attribute, the
    form the Markdown parser writes, it ends neither the attribute nor
    the tag; and it holds no dollar sign, so [String.replace] inserts it
    as it is.  This holds for every SVG text, and for every raster file
    whose MIME type is free of these characters.  An apostrophe of the
    SVG text is kept, though: inside a single-quoted attribute, which
    the image pattern accepts as well, the data URL of such a text ends
    the attribute. *)
Theorem X13_data_url_characters (E : env) (imagePath content : string) :
  (allChars doubleQuotedSafe (Inliner.svgDataURL content) = true
   /\ JsString.includes (Inliner.svgDataURL content) "$" = false)
  /\ (JsString.includes content "'" = true ->
      JsString.includes (Inliner.svgDataURL content) "'" = true)
  /\ (allChars doubleQuotedSafe (Inliner.mimeType E imagePath) = true ->
      allChars doubleQuotedSafe (Inliner.rasterDataURL E imagePath content) = true).
Proof.
  split; [split | split].
  - unfold Inliner.svgDataURL. rewrite allChars_append, encodeURIComponent_safe.
    reflexivity.
  - unfold Inliner.svgDataURL. apply includes_dollar_append;
      [reflexivity | apply encodeURIComponent_no_dollar].
  - intros H. unfold Inliner.svgDataURL.
    apply (includes_append_right "data:image/svg+xml;utf8,").
    now apply encodeURIComponent_keeps_apostrophe.
  - intros H. unfold Inliner.rasterDataURL.
    rewrite !allChars_append, H, base64_safe. reflexivity.
Qed.

Lemma X13_data_url_characters_witness :
  let E := Sample.machine Sample.heading in
  allChars doubleQuotedSafe (Inliner.rasterDataURL E "/home/u/docs/a.png" "PNG") = true
  /\ JsString.includes (Inliner.svgDataURL "<svg><text>it's</text></svg>") "'" = true.
Proof.
  intros E.
  destruct (X13_data_url_characters E "/home/u/docs/a.png" "PNG") as (_ & _ & Hraster).
  destruct (X13_data_url_characters E "" "<svg><text>it's</text></svg>")
    as (_ & Hquote & _).
  split; [apply Hraster | apply Hquote]; reflexivity.
Defined.

(* ================================================================== *)
(** ** Further properties: the browser of the legacy script *)

Ltac failing_step :=
  cbv zeta; cbv beta;
  apply unclosed_step;
  [ first [ apply unclosed_readFile
          | apply unclosed_processImages
          | apply unclosed_browser; discriminate
          | intros [H|[]]; discriminate
          | intros [] ]
  | intros ? ].

Lemma legacy_failure_unclosed (E : env) (inputPath : string)
    (scale fontSize : JsNumber.number) (m : margins) :
  rejects E Close = None ->
  fst (Legacy.convertMarkdownToPdf E inputPath scale fontSize m) <> Done tt ->
  unclosed (snd (Legacy.convertMarkdownToPdf E inputPath scale fontSize m)).
Proof.
  intros Hclose Hrun. unfold Legacy.convertMarkdownToPdf in *.
  match type of Hrun with fst (tryCatch ?b0 ?h0) <> _ =>
    set (body := b0) in *; set (handler := h0) in * end.
  assert (Hbody : forall b, fst body <> Done b).
  { intros [] Hb. apply Hrun. destruct body as [[[]|msg|code] t]; simpl in *;
      congruence. }
  apply unclosed_tryCatch.
  2:{ intros message. subst handler. intros [H|[H|[]]]; discriminate. }
  clear Hrun handler. revert Hbody. subst body.
  apply unclosed_step.
  { apply unclosed_tryCatch.
    - apply unclosed_access.
    - intros message [H|[H|[]]]; discriminate. }
  intros _.
  repeat failing_step.
  cbv zeta. apply unclosed_step.
  - apply unclosed_scale.
  - intros ?. failing_step.
    intros Hn. exfalso. unfold browser in Hn. rewrite Hclose in Hn.
    apply (Hn tt). reflexivity.
Qed.

(** X14.  The legacy script has the failure path of [src/index.js]: when
    its files can be read and the run does not end normally, it has
    launched the browser, exits with status 1 and has not called
    [browser.close()] (unless it is that very call that failed). *)
Theorem X14_legacy_failure_leaves_browser (E : env) (inputPath : string)
    (scale fontSize : JsNumber.number) (m : margins) :
  let run := Legacy.convertMarkdownToPdf E inputPath scale fontSize m in
  legacyReadable E inputPath = true ->
  rejects E Close = None ->
  fst run <> Done tt ->
  fst run = Exited 1
  /\ In (Browser Launch) (snd run)
  /\ ~ In (Browser Close) (snd run).
Proof.
  cbv zeta. intros Hr Hc Hf. split; [| split].
  - destruct (legacy_convert_settles E inputPath scale fontSize m) as [Hn He].
    destruct (settled_of Hn He) as [H|H]; [contradiction | exact H].
  - now apply legacy_launches.
  - now apply legacy_failure_unclosed.
Qed.

Lemma X14_legacy_failure_leaves_browser_witness :
  let run := Legacy.convertMarkdownToPdf (Sample.stalled Sample.heading)
               "docs/doc.md" c1 c16 (Main.uniform c25_4) in
  fst run = Exited 1
  /\ In (Browser Launch) (snd run)
  /\ ~ In (Browser Close) (snd run).
Proof.
  apply (X14_legacy_failure_leaves_browser (Sample.stalled Sample.heading)
           "docs/doc.md" c1 c16 (Main.uniform c25_4)).
  - reflexivity.
  - reflexivity.
  - vm_compute. discriminate.
Defined.

(* ================================================================== *)
(** ** Further properties: the legacy script without options *)

Lemma getArgValue_unmentioned (flag : string) (defaultValue : JsNumber.number)
    (args : list string) :
  List.forallb (fun a => negb (mentions flag a)) args = true ->
  Legacy.getArgValue args flag defaultValue = defaultValue.
Proof.
  intros H. rewrite <- (app_nil_r args).
  now rewrite (getArgValue_skip_all flag defaultValue args [] H).
Qed.

(** X15.  The defaults of the legacy script pass its own validation: when
    no argument (the input path included) is one of the six flags or
    starts with one followed by an equals sign, the script prints its two
    headers and converts the first argument with scale 1, font size 16
    and margins of 25.4 mm on every side. *)
Theorem X15_legacy_defaults (E : env) (inputPath : string) (rest : list string) :
  let args := inputPath :: rest in
  let run := Legacy.convertMarkdownToPdf E inputPath c1 c16 (Main.uniform c25_4) in
  List.forallb (fun flag => List.forallb (fun a => negb (mentions flag a)) args)
               legacyFlags = true ->
  Legacy.main E args
  = (fst run,
     [ConsoleLog "Received arguments:"; ConsoleLog "Parsed values:"] ++ snd run)%list.
Proof.
  intros args run H. cbn [List.forallb legacyFlags] in H.
  repeat (apply andb_true_iff in H; destruct H as [?H H]).
  unfold Legacy.main, Legacy.parseMargins. subst args. cbv iota zeta.
  rewrite !getArgValue_unmentioned by assumption.
  change (Legacy.validateMargins _) with (Legacy.validateMargins (Legacy.entries (Main.uniform c25_4))).
  rewrite (validateMargins_pass (Legacy.entries (Main.uniform c25_4)) eq_refl).
  change (JsNumber.isNaN c1 || JsNumber.leb c1 c0)%bool with false.
  change (JsNumber.isNaN Legacy.DEFAULT_FONT_SIZE
          || JsNumber.leb Legacy.DEFAULT_FONT_SIZE c0)%bool with false.
  cbv iota. rewrite !bind_ret.
  change (Legacy.convertMarkdownToPdf E inputPath c1 Legacy.DEFAULT_FONT_SIZE _)
    with run.
  destruct run as [o t]. reflexivity.
Qed.

Lemma X15_legacy_defaults_witness :
  let E := Sample.machine Sample.heading in
  let run := Legacy.convertMarkdownToPdf E "docs/doc.md" c1 c16 (Main.uniform c25_4) in
  Legacy.main E ["docs/doc.md"]
  = (fst run,
     [ConsoleLog "Received arguments:"; ConsoleLog "Parsed values:"] ++ snd run)%list.
Proof.
  apply (X15_legacy_defaults (Sample.machine Sample.heading) "docs/doc.md" []).
  reflexivity.
Defined.

(* ================================================================== *)
(** ** Further properties: the geometry of the page *)

Ltac viewing :=
  repeat (cbv zeta; cbv beta;
          first [ apply only_readFile; reflexivity
                | apply processLocalImages_only; now intros []
                | apply generateHTML_only; reflexivity
                | apply only_browser; reflexivity
                | reflexivity
                | match goal with
                  | |- only _ (snd (if ?b then _ else _)) => destruct b
                  end
                | apply only_bind; [| intros ?] ]).

Ltac unscaled :=
  repeat (cbv zeta; cbv beta;
          first [ apply only_readFile; reflexivity
                | apply processLocalImages_only; now intros []
                | apply generateHTML_only; reflexivity
                | apply only_browser; reflexivity
                | reflexivity
                | apply only_bind; [| intros ?] ]).

Ltac scaled :=
  repeat (cbv zeta; cbv beta;
          first [ apply bind_in_first; solve [apply browser_emits]
                | apply bind_in_rest; intros ? ]).

(** X16.  The geometry of the page does not depend on the options: every
    [page.setViewport] call of every run asks for 793 by 1122 pixels,
    whatever the scale.  The scale only decides whether the body is
    transformed: never when it equals 1, and in every run that ends
    normally when it does not (NaN included). *)
Theorem X16_page_geometry (E : env) (inputPath : string) (o : Main.options)
    (scale fontSize : JsNumber.number) (m : margins) :
  let main := Main.convertMarkdownToPdf E inputPath o in
  let legacy := Legacy.convertMarkdownToPdf E inputPath scale fontSize m in
  (only viewportIsA4 (snd main) /\ only viewportIsA4 (snd legacy))
  /\ (JsNumber.eqb (Main.scale o) c1 = true ->
      only (fun e => negb (isApplyScale e)) (snd main))
  /\ (JsNumber.eqb scale c1 = true ->
      only (fun e => negb (isApplyScale e)) (snd legacy))
  /\ (JsNumber.eqb (Main.scale o) c1 = false -> fst main = Done tt ->
      In (Browser (ApplyScale (Main.scale o))) (snd main))
  /\ (JsNumber.eqb scale c1 = false -> fst legacy = Done tt ->
      In (Browser (ApplyScale scale)) (snd legacy)).
Proof.
  cbv zeta. split; [split|split; [|split; [|split]]].
  - unfold Main.convertMarkdownToPdf, Main.debugLog.
    apply only_tryCatch; [| intros message; reflexivity]. viewing.
  - unfold Legacy.convertMarkdownToPdf.
    apply only_tryCatch; [| intros message; reflexivity].
    apply only_bind.
    + apply only_tryCatch; [| intros message; reflexivity].
      now apply only_access.
    + intros _. viewing.
  - intros Hs. unfold Main.convertMarkdownToPdf, Main.debugLog. rewrite Hs.
    apply only_tryCatch; [| intros message; reflexivity]. unscaled.
  - intros Hs. unfold Legacy.convertMarkdownToPdf. rewrite Hs.
    apply only_tryCatch; [| intros message; reflexivity].
    apply only_bind.
    + apply only_tryCatch; [| intros message; reflexivity].
      now apply only_access.
    + intros _. unscaled.
  - intros Hs H. unfold Main.convertMarkdownToPdf, Main.debugLog in *.
    rewrite Hs in *. cbn [negb] in *.
    match type of H with fst (tryCatch ?body ?h) = _ =>
      assert (Hb : tryCatch body h = body)
        by (apply (tryCatch_done_inv _ _ tt); [intros message; discriminate | exact H])
    end.
    rewrite Hb in *. clear Hb. revert H. scaled.
  - intros Hs H. unfold Legacy.convertMarkdownToPdf in *.
    rewrite Hs in *. cbn [negb] in *.
    match type of H with fst (tryCatch ?body ?h) = _ =>
      assert (Hb : tryCatch body h = body)
        by (apply (tryCatch_done_inv _ _ tt); [intros message; discriminate | exact H])
    end.
    rewrite Hb in *. clear Hb. revert H. scaled.
Qed.

Lemma X16_page_geometry_witness :
  let E := Sample.machine Sample.heading in
  let o := Main.parseOptions (Sample.invocation (Some "abc") None None "docs/doc.md") in
  In (Browser (ApplyScale JsNumber.NaN))
     (snd (Main.convertMarkdownToPdf E "docs/doc.md" o))
  /\ only (fun e => negb (isApplyScale e))
          (snd (Legacy.convertMarkdownToPdf E "docs/doc.md" c1 c16 (Main.uniform c25_4))).
Proof.
  intros E o.
  destruct (X16_page_geometry E "docs/doc.md" o c1 c16 (Main.uniform c25_4))
    as (_ & _ & H2 & H3 & _).
  split; [apply H3 | apply H2]; reflexivity.
Defined.
